(** * MSAL authentication service: token lifecycle state machine

    A shallow embedding of [src/core/auth-service.ts] (class
    [MsalAuthService]), of the React hook [useAuthentication]
    ([src/react/use-authentication.ts]) with its [AuthenticationWrapper],
    and of the Angular service, route guard and HTTP interceptor
    ([src/angular]).

    The class keeps mutable fields ([this.cachedToken], ...) and talks to
    the browser (clock, timers, storage) and to the identity provider
    ([PublicClientApplication]).  Every [async] method is embedded as a
    resumption: it runs synchronously on the heap up to its next [await],
    where it hands out the awaited request together with a continuation
    that is later resumed on the heap as it is at that time. *)

From Stdlib Require Import ZArith String List Bool Lia.
From stdpp Require Import base option list strings gmap.

Local Open Scope string_scope.

(** ** Values thrown and caught *)

(** The classes of [Error] the code tells apart with [instanceof]. *)
Inductive ErrorClass :=
| PlainError
| BrowserAuthError
| InteractionRequiredAuthError
| OtherAuthError.

(** A thrown JavaScript value: an [Error] object (class, [errorCode],
    [message]) or something that is not an [Error]. *)
Inductive Thrown :=
| ErrorObject (cls : ErrorClass) (errorCode message : string)
| NonError (v : string).

(** [new Error(message)] *)
Definition Error (message : string) : Thrown := ErrorObject PlainError "" message.

Definition instanceofError (e : Thrown) : bool :=
  match e with ErrorObject _ _ _ => true | NonError _ => false end.

Definition instanceofBrowserAuthError (e : Thrown) : bool :=
  match e with ErrorObject BrowserAuthError _ _ => true | _ => false end.

Definition instanceofInteractionRequiredAuthError (e : Thrown) : bool :=
  match e with ErrorObject InteractionRequiredAuthError _ _ => true | _ => false end.

Definition errorCode (e : Thrown) : string :=
  match e with ErrorObject _ c _ => c | NonError _ => "" end.

Definition message (e : Thrown) : string :=
  match e with ErrorObject _ _ m => m | NonError _ => "" end.

Definition eqs (a b : string) : bool := bool_decide (a = b).

(** ** Data of [src/core/types.ts] *)

Inductive AuthFlowType := popup | redirect.

Inductive CacheLocation := sessionStorageTier | localStorageTier.

Inductive Prompt := select_account | login | consent | none.

Record AccountInfo := { homeAccountId : string; username : string }.

Module MsalAuthConfig.
Record t := {
  clientId : string;
  tenantId : string;
  redirectUri : string;
  scopes : list string;
  flowType : option AuthFlowType;
  cacheLocation : option CacheLocation;
  navigateToLoginRequestUrl : option bool;
  prompt : option Prompt;
  enableLogging : option bool;
  authority : option string;
  postLogoutRedirectUri : option string;
  tokenRenewalOffsetSeconds : option Z
}.
End MsalAuthConfig.

(** The provider's [Configuration], as [initialize] builds it. *)
Module Configuration.
Record t := {
  clientId : string;
  authority : string;
  redirectUri : string;
  postLogoutRedirectUri : string;
  navigateToLoginRequestUrl : bool;
  cacheLocation : CacheLocation;
  storeAuthStateInCookie : bool;
  allowNativeBroker : bool;
  windowHashTimeout : Z;
  iframeHashTimeout : Z;
  loadFrameTimeout : Z;
  tokenRenewalOffsetSeconds : Z;
  loggerOptions : bool
}.
End Configuration.

(** Times are milliseconds since the epoch ([Date.getTime()], [Date.now()]). *)
Module AuthenticationResult.
Record t := {
  accessToken : string;
  expiresOn : option Z;
  account : option AccountInfo
}.
End AuthenticationResult.

Module TokenResult.
Record t := {
  accessToken : string;
  expiresOn : option Z;
  account : option AccountInfo
}.
End TokenResult.

Module AuthServiceStatus.
Record t := {
  isInitialized : bool;
  hasToken : bool;
  tokenExpiry : option Z;
  isLoginInProgress : bool;
  accountCount : nat;
  flowType : AuthFlowType
}.
End AuthServiceStatus.

Module AuthenticationState.
Record t := {
  isInitializing : bool;
  isAuthenticated : bool;
  needsLogin : bool;
  authError : option string;
  jwtToken : option string;
  isInIframe : bool;
  sdkInitialized : bool
}.
End AuthenticationState.

(** ** The service object and its surroundings *)

(** Handles returned by [setInterval]: positive integers, hence truthy. *)
Definition TimerId := positive.

(** The private fields of [MsalAuthService].  The provider instance is
    identified by the [Configuration] it was constructed from. *)
Record Service := {
  msalInstance : option Configuration.t;
  config : option MsalAuthConfig.t;
  isInitialized : bool;
  cachedToken : option string;
  tokenExpiryTime : option Z;
  isLoginInProgress : bool;
  flowType : AuthFlowType;
  tokenRefreshInterval : option TimerId
}.

(** What the service reads from, and writes to, the browser and the
    provider outside an [await]: the clock, the provider's account list
    ([getAllAccounts()]), what [new PublicClientApplication(..)] throws if
    it throws, the instances constructed so far, the armed intervals, and
    the two storage tiers ([storageAccessible = false]: touching them
    throws). *)
Record Env := {
  now : Z;
  accounts : list AccountInfo;
  constructorThrows : option Thrown;
  constructed : list Configuration.t;
  timers : gset positive;
  nextTimer : positive;
  sessionStorage : gmap string string;
  localStorage : gmap string string;
  storageAccessible : bool
}.

Record Heap := { svc : Service; env : Env }.

(** [new MsalAuthService()] *)
Definition newService : Service :=
  {| msalInstance := None; config := None; isInitialized := false;
     cachedToken := None; tokenExpiryTime := None;
     isLoginInProgress := false; flowType := popup;
     tokenRefreshInterval := None |}.

(** Field assignments [this.f = v]. *)
Definition set_msalInstance (v : option Configuration.t) (h : Heap) : Heap :=
  let s := svc h in
  {| svc := {| msalInstance := v; config := config s;
               isInitialized := isInitialized s; cachedToken := cachedToken s;
               tokenExpiryTime := tokenExpiryTime s;
               isLoginInProgress := isLoginInProgress s;
               flowType := flowType s;
               tokenRefreshInterval := tokenRefreshInterval s |};
     env := env h |}.

Definition set_config (v : option MsalAuthConfig.t) (h : Heap) : Heap :=
  let s := svc h in
  {| svc := {| msalInstance := msalInstance s; config := v;
               isInitialized := isInitialized s; cachedToken := cachedToken s;
               tokenExpiryTime := tokenExpiryTime s;
               isLoginInProgress := isLoginInProgress s;
               flowType := flowType s;
               tokenRefreshInterval := tokenRefreshInterval s |};
     env := env h |}.

Definition set_isInitialized (v : bool) (h : Heap) : Heap :=
  let s := svc h in
  {| svc := {| msalInstance := msalInstance s; config := config s;
               isInitialized := v; cachedToken := cachedToken s;
               tokenExpiryTime := tokenExpiryTime s;
               isLoginInProgress := isLoginInProgress s;
               flowType := flowType s;
               tokenRefreshInterval := tokenRefreshInterval s |};
     env := env h |}.

Definition set_cachedToken (v : option string) (h : Heap) : Heap :=
  let s := svc h in
  {| svc := {| msalInstance := msalInstance s; config := config s;
               isInitialized := isInitialized s; cachedToken := v;
               tokenExpiryTime := tokenExpiryTime s;
               isLoginInProgress := isLoginInProgress s;
               flowType := flowType s;
               tokenRefreshInterval := tokenRefreshInterval s |};
     env := env h |}.

Definition set_tokenExpiryTime (v : option Z) (h : Heap) : Heap :=
  let s := svc h in
  {| svc := {| msalInstance := msalInstance s; config := config s;
               isInitialized := isInitialized s; cachedToken := cachedToken s;
               tokenExpiryTime := v;
               isLoginInProgress := isLoginInProgress s;
               flowType := flowType s;
               tokenRefreshInterval := tokenRefreshInterval s |};
     env := env h |}.

Definition set_isLoginInProgress (v : bool) (h : Heap) : Heap :=
  let s := svc h in
  {| svc := {| msalInstance := msalInstance s; config := config s;
               isInitialized := isInitialized s; cachedToken := cachedToken s;
               tokenExpiryTime := tokenExpiryTime s;
               isLoginInProgress := v;
               flowType := flowType s;
               tokenRefreshInterval := tokenRefreshInterval s |};
     env := env h |}.

Definition set_flowType (v : AuthFlowType) (h : Heap) : Heap :=
  let s := svc h in
  {| svc := {| msalInstance := msalInstance s; config := config s;
               isInitialized := isInitialized s; cachedToken := cachedToken s;
               tokenExpiryTime := tokenExpiryTime s;
               isLoginInProgress := isLoginInProgress s;
               flowType := v;
               tokenRefreshInterval := tokenRefreshInterval s |};
     env := env h |}.

Definition set_tokenRefreshInterval (v : option TimerId) (h : Heap) : Heap :=
  let s := svc h in
  {| svc := {| msalInstance := msalInstance s; config := config s;
               isInitialized := isInitialized s; cachedToken := cachedToken s;
               tokenExpiryTime := tokenExpiryTime s;
               isLoginInProgress := isLoginInProgress s;
               flowType := flowType s;
               tokenRefreshInterval := v |};
     env := env h |}.

(** Browser primitives that change the environment. *)
Definition env_construct (c : Configuration.t) (h : Heap) : Heap :=
  let e := env h in
  {| svc := svc h;
     env := {| now := now e; accounts := accounts e;
               constructorThrows := constructorThrows e;
               constructed := (constructed e ++ [c])%list;
               timers := timers e; nextTimer := nextTimer e;
               sessionStorage := sessionStorage e;
               localStorage := localStorage e;
               storageAccessible := storageAccessible e |} |}.

(** [setInterval(callback, ms)]: arms a fresh handle. *)
Definition setInterval (h : Heap) : TimerId * Heap :=
  let e := env h in
  (nextTimer e,
   {| svc := svc h;
      env := {| now := now e; accounts := accounts e;
                constructorThrows := constructorThrows e;
                constructed := constructed e;
                timers := {[ nextTimer e ]} ∪ timers e;
                nextTimer := Pos.succ (nextTimer e);
                sessionStorage := sessionStorage e;
                localStorage := localStorage e;
                storageAccessible := storageAccessible e |} |}).

(** [clearInterval(id)] *)
Definition clearInterval (id : TimerId) (h : Heap) : Heap :=
  let e := env h in
  {| svc := svc h;
     env := {| now := now e; accounts := accounts e;
               constructorThrows := constructorThrows e;
               constructed := constructed e;
               timers := timers e ∖ {[ id ]};
               nextTimer := nextTimer e;
               sessionStorage := sessionStorage e;
               localStorage := localStorage e;
               storageAccessible := storageAccessible e |} |}.

Definition set_storage (ss ls : gmap string string) (h : Heap) : Heap :=
  let e := env h in
  {| svc := svc h;
     env := {| now := now e; accounts := accounts e;
               constructorThrows := constructorThrows e;
               constructed := constructed e;
               timers := timers e; nextTimer := nextTimer e;
               sessionStorage := ss; localStorage := ls;
               storageAccessible := storageAccessible e |} |}.

(** What the world has changed when an awaited promise settles: time has
    passed and the provider's account list may be another. *)
Definition settle_env (clock : Z) (accts : list AccountInfo) (h : Heap) : Heap :=
  let e := env h in
  {| svc := svc h;
     env := {| now := clock; accounts := accts;
               constructorThrows := constructorThrows e;
               constructed := constructed e;
               timers := timers e; nextTimer := nextTimer e;
               sessionStorage := sessionStorage e;
               localStorage := localStorage e;
               storageAccessible := storageAccessible e |} |}.

(** ** Asynchronous methods as resumptions *)

(** What the code awaits: the provider's promise-returning methods, the
    sleeps [await new Promise(resolve => setTimeout(resolve, ms))], and the
    embedding application's [onAuthSuccess] callback. *)
Inductive Request :=
| PcaInitialize
| HandleRedirectPromise
| AcquireTokenSilent (scopes : list string) (account : AccountInfo) (forceRefresh : bool)
| AcquireTokenRedirect (scopes : list string) (prompt : Prompt)
| AcquireTokenPopup (scopes : list string) (prompt : Prompt)
| LogoutRedirect (account : AccountInfo)
| LogoutPopup (account : AccountInfo)
| SetTimeout (ms : Z)
| OnAuthSuccess.

(** The type a request's promise is fulfilled with. *)
Definition answer (q : Request) : Type :=
  match q with
  | HandleRedirectPromise => option AuthenticationResult.t
  | AcquireTokenSilent _ _ _ => AuthenticationResult.t
  | AcquireTokenPopup _ _ => AuthenticationResult.t
  | _ => unit
  end.

Inductive Settled (T : Type) :=
| Fulfilled (v : T)
| RejectedWith (e : Thrown).
Arguments Fulfilled {T} v.
Arguments RejectedWith {T} e.

Inductive Outcome (A : Type) :=
| Return (a : A)
| Throw (e : Thrown).
Arguments Return {A} a.
Arguments Throw {A} e.

(** A call of an [async] method that ran up to: its end ([Done]), an
    [await] ([Await], with the heap as the call left it and the rest of the
    call), or the bound put on the unfolding of [getAccessToken]'s
    recursion ([Cut]; no other method produces it). *)
Inductive Async (A : Type) : Type :=
| Done (o : Outcome A) (h : Heap)
| Await (q : Request) (h : Heap) (k : Settled (answer q) -> Heap -> Async A)
| Cut (h : Heap).
Arguments Done {A} o h.
Arguments Await {A} q h k.
Arguments Cut {A} h.

Definition resolve {A} (a : A) (h : Heap) : Async A := Done (Return a) h.
Definition reject {A} (e : Thrown) (h : Heap) : Async A := Done (Throw e) h.

(** [await p]: a rejection of [p] is thrown at the [await]. *)
Definition await (q : Request) (h : Heap) : Async (answer q) :=
  Await q h (fun r h' =>
    match r with
    | Fulfilled v => resolve v h'
    | RejectedWith e => reject e h'
    end).

(** The rest of a method after a (possibly suspending) call [m]: [f] gets
    how [m] ended and the heap it left. *)
Fixpoint andThen {A B} (m : Async A) (f : Outcome A -> Heap -> Async B) : Async B :=
  match m with
  | Done o h => f o h
  | Await q h k => Await q h (fun r h' => andThen (k r h') f)
  | Cut h => Cut h
  end.

(** Sequencing: [const x = await m; f(x)]. *)
Definition bind {A B} (m : Async A) (f : A -> Heap -> Async B) : Async B :=
  andThen m (fun o h =>
    match o with
    | Return a => f a h
    | Throw e => reject e h
    end).

(** [try { m } catch (error) { handler(error) }] *)
Definition try_catch {A} (m : Async A) (handler : Thrown -> Heap -> Async A) : Async A :=
  andThen m (fun o h =>
    match o with
    | Return a => resolve a h
    | Throw e => handler e h
    end).

(** [try { m } finally { fin }], for a [fin] that only assigns fields. *)
Definition try_finally {A} (m : Async A) (fin : Heap -> Heap) : Async A :=
  andThen m (fun o h => Done o (fin h)).

(** ** The methods of [MsalAuthService] *)

(** [ensureInitialized()]: throws unless the three fields are set; the
    model hands the two non-null fields to the caller, which the source
    reads back with [this.msalInstance!] and [this.config!]. *)
Definition ensureInitialized (h : Heap)
  : Thrown + (Configuration.t * MsalAuthConfig.t) :=
  match isInitialized (svc h), msalInstance (svc h), config (svc h) with
  | true, Some inst, Some cfg => inr (inst, cfg)
  | _, _, _ => inl (Error "MSAL not initialized. Call initialize() first.")
  end.

Definition getAllAccounts (h : Heap) : Thrown + list AccountInfo :=
  match ensureInitialized h with
  | inl e => inl e
  | inr _ => inr (accounts (env h))
  end.

Definition getCurrentAccount (h : Heap) : Thrown + option AccountInfo :=
  match getAllAccounts h with
  | inl e => inl e
  | inr accts => inr (if (0 <? length accts)%nat then head accts else None)
  end.

Definition isLoggedIn (h : Heap) : Thrown + bool :=
  match getAllAccounts h with
  | inl e => inl e
  | inr accts => inr (0 <? length accts)%nat
  end.

(** The safety margin of [setCachedToken]: [5 * 60 * 1000] ms. *)
Definition cacheLead : Z := (5 * 60 * 1000)%Z.

(** [setCachedToken(result)]:
    [(result.expiresOn?.getTime() || Date.now()) - (5 * 60 * 1000)]. *)
Definition setCachedToken (result : AuthenticationResult.t) (h : Heap) : Heap :=
  let h := set_cachedToken (Some (AuthenticationResult.accessToken result)) h in
  let reported :=
    match AuthenticationResult.expiresOn result with
    | Some t => if (t =? 0)%Z then now (env h) else t
    | None => now (env h)
    end in
  set_tokenExpiryTime (Some (reported - cacheLead)%Z) h.

Definition clearCachedToken (h : Heap) : Heap :=
  set_tokenExpiryTime None (set_cachedToken None h).

Definition stopTokenRefreshTimer (h : Heap) : Heap :=
  match tokenRefreshInterval (svc h) with
  | Some id => set_tokenRefreshInterval None (clearInterval id h)
  | None => h
  end.

(** [handleInteractionInProgress()]: the stuck-interaction recovery. *)
Definition handleInteractionInProgress (h : Heap) : Async unit :=
  let h := set_isLoginInProgress false h in
  let h := clearCachedToken h in
  await (SetTimeout 2000) h.

(** The fast path's test
    [this.cachedToken && this.tokenExpiryTime && Date.now() < this.tokenExpiryTime]:
    the cached token and its expiry, when all three conjuncts are truthy. *)
Definition cacheHit (h : Heap) : option (string * Z) :=
  match cachedToken (svc h), tokenExpiryTime (svc h) with
  | Some tok, Some expiry =>
      if negb (eqs tok "") && negb (expiry =? 0)%Z && (now (env h) <? expiry)%Z
      then Some (tok, expiry) else None
  | _, _ => None
  end.

Definition acquireTokenSilent (h : Heap) : Async TokenResult.t :=
  match ensureInitialized h with
  | inl e => reject e h
  | inr (_, cfg) =>
    match cacheHit h with
    | Some (tok, expiry) =>
        match getCurrentAccount h with
        | inl e => reject e h
        | inr acct =>
            resolve {| TokenResult.accessToken := tok;
                       TokenResult.expiresOn := Some expiry;
                       TokenResult.account := acct |} h
        end
    | None =>
        match getCurrentAccount h with
        | inl e => reject e h
        | inr None => reject (Error "NO_ACCOUNTS_FOUND") h
        | inr (Some account) =>
            try_catch
              (bind (await (AcquireTokenSilent (MsalAuthConfig.scopes cfg) account false) h)
                 (fun result h =>
                    let h := setCachedToken result h in
                    resolve {| TokenResult.accessToken := AuthenticationResult.accessToken result;
                               TokenResult.expiresOn := AuthenticationResult.expiresOn result;
                               TokenResult.account := AuthenticationResult.account result |} h))
              (fun error h =>
                 if instanceofBrowserAuthError error
                    && eqs (errorCode error) "interaction_in_progress"
                 then bind (handleInteractionInProgress h)
                        (fun _ h => reject (Error "INTERACTION_IN_PROGRESS_RESOLVED") h)
                 else if instanceofInteractionRequiredAuthError error
                 then reject (Error "INTERACTION_REQUIRED") h
                 else reject (Error "SILENT_REFRESH_FAILED") h)
        end
    end
  end.

(** The callback handed to [setInterval] by [startTokenRefreshTimer]. *)
Definition refreshTick (h : Heap) : Async unit :=
  try_catch
    (match isLoggedIn h with
     | inl e => reject e h
     | inr true => bind (acquireTokenSilent h) (fun _ h => resolve tt h)
     | inr false => resolve tt (stopTokenRefreshTimer h)
     end)
    (fun _ h => resolve tt h).

Definition startTokenRefreshTimer (h : Heap) : Heap :=
  let h := stopTokenRefreshTimer h in
  let '(id, h) := setInterval h in
  set_tokenRefreshInterval (Some id) h.

(** A firing of interval [id]: its callback runs if [id] is still armed. *)
Definition fire (id : TimerId) (h : Heap) : Async unit :=
  if bool_decide (id ∈ timers (env h)) then refreshTick h else resolve tt h.

Definition loginInteractive (h : Heap) : Async AuthenticationResult.t :=
  match ensureInitialized h with
  | inl e => reject e h
  | inr (_, cfg) =>
    if isLoginInProgress (svc h) then reject (Error "Login already in progress") h
    else
      let h := set_isLoginInProgress true h in
      let scopes := MsalAuthConfig.scopes cfg in
      let prompt := default select_account (MsalAuthConfig.prompt cfg) in
      try_finally
        (try_catch
           (match flowType (svc h) with
            | redirect =>
                bind (await (AcquireTokenRedirect scopes prompt) h)
                  (fun _ h => reject (Error "Redirect initiated") h)
            | popup =>
                bind (await (AcquireTokenPopup scopes prompt) h)
                  (fun result h =>
                     let h := setCachedToken result h in
                     let h := startTokenRefreshTimer h in
                     resolve result h)
            end)
           (fun error h =>
              if instanceofBrowserAuthError error then
                if eqs (errorCode error) "interaction_in_progress" then
                  bind (handleInteractionInProgress h)
                    (fun _ h =>
                       reject (Error "Authentication window was closed or interrupted. Please try again.") h)
                else if eqs (errorCode error) "user_cancelled"
                        || eqs (errorCode error) "popup_window_error" then
                  reject (Error "Authentication was cancelled. Please try again.") h
                else reject error h
              else reject error h))
        (set_isLoginInProgress false)
  end.

(** [getAccessToken()], its recursion unfolded at most [fuel] times. *)
Fixpoint getAccessToken (fuel : nat) (h : Heap) : Async string :=
  match fuel with
  | O => Cut h
  | S fuel' =>
    try_catch
      (bind (acquireTokenSilent h)
         (fun tokenResult h => resolve (TokenResult.accessToken tokenResult) h))
      (fun error h =>
         if instanceofError error then
           if eqs (message error) "NO_ACCOUNTS_FOUND"
              || eqs (message error) "INTERACTION_REQUIRED"
              || eqs (message error) "SILENT_REFRESH_FAILED" then
             bind (loginInteractive h)
               (fun result h => resolve (AuthenticationResult.accessToken result) h)
           else if eqs (message error) "INTERACTION_IN_PROGRESS_RESOLVED" then
             getAccessToken fuel' h
           else reject error h
         else reject error h)
  end.

Definition forceRefreshToken (fuel : nat) (h : Heap) : Async string :=
  getAccessToken fuel (clearCachedToken h).

Definition logout (h : Heap) : Async unit :=
  match ensureInitialized h with
  | inl e => reject e h
  | inr _ =>
    let h := stopTokenRefreshTimer h in
    match getCurrentAccount h with
    | inl e => reject e h
    | inr None => resolve tt (set_isLoginInProgress false h)
    | inr (Some account) =>
        bind (match flowType (svc h) with
              | redirect => await (LogoutRedirect account) h
              | popup => await (LogoutPopup account) h
              end)
          (fun _ h => resolve tt (set_isLoginInProgress false (clearCachedToken h)))
    end
  end.

(** [clearPendingInteractions()]: both [try] blocks swallow what they
    catch. *)
Definition clearPendingInteractions (h : Heap) : Async unit :=
  try_catch
    (let h := set_isLoginInProgress false h in
     match getAllAccounts h with
     | inl e => reject e h
     | inr accts =>
         if (0 <? length accts)%nat then
           try_catch
             (bind (acquireTokenSilent h) (fun _ h => resolve tt h))
             (fun silentError h =>
                if instanceofBrowserAuthError silentError
                   && eqs (errorCode silentError) "interaction_in_progress"
                then await (SetTimeout 1000) h
                else resolve tt h)
         else resolve tt h
     end)
    (fun _ h => resolve tt h).

(** JavaScript's [a || b] on an optional string and on an optional number. *)
Definition orString (a : option string) (b : string) : string :=
  match a with
  | Some s => if eqs s "" then b else s
  | None => b
  end.

Definition orNumber (a : option Z) (b : Z) : Z :=
  match a with
  | Some n => if (n =? 0)%Z then b else n
  | None => b
  end.

(** The [msalConfig] object literal of [initialize]. *)
Definition msalConfig (cfg : MsalAuthConfig.t) : Configuration.t :=
  {| Configuration.clientId := MsalAuthConfig.clientId cfg;
     Configuration.authority :=
       orString (MsalAuthConfig.authority cfg)
         ("https://login.microsoftonline.com/" +:+ MsalAuthConfig.tenantId cfg);
     Configuration.redirectUri := MsalAuthConfig.redirectUri cfg;
     Configuration.postLogoutRedirectUri :=
       orString (MsalAuthConfig.postLogoutRedirectUri cfg) (MsalAuthConfig.redirectUri cfg);
     Configuration.navigateToLoginRequestUrl :=
       default false (MsalAuthConfig.navigateToLoginRequestUrl cfg);
     Configuration.cacheLocation :=
       default localStorageTier (MsalAuthConfig.cacheLocation cfg);
     Configuration.storeAuthStateInCookie := false;
     Configuration.allowNativeBroker := false;
     Configuration.windowHashTimeout := 60000;
     Configuration.iframeHashTimeout := 6000;
     Configuration.loadFrameTimeout := 0;
     Configuration.tokenRenewalOffsetSeconds :=
       orNumber (MsalAuthConfig.tokenRenewalOffsetSeconds cfg) 300;
     Configuration.loggerOptions := default false (MsalAuthConfig.enableLogging cfg) |}.

(** [this.isInitialized && this.config?.clientId === config.clientId] *)
Definition alreadyInitialized (cfg : MsalAuthConfig.t) (h : Heap) : bool :=
  isInitialized (svc h)
  && match config (svc h) with
     | Some c => eqs (MsalAuthConfig.clientId c) (MsalAuthConfig.clientId cfg)
     | None => false
     end.

Definition initialize (cfg : MsalAuthConfig.t) (h : Heap) : Async unit :=
  if alreadyInitialized cfg h then resolve tt h
  else
    let h := set_config (Some cfg) h in
    let h := set_flowType (default popup (MsalAuthConfig.flowType cfg)) h in
    try_catch
      (let h := env_construct (msalConfig cfg) h in
       match constructorThrows (env h) with
       | Some e => reject e h
       | None =>
         let h := set_msalInstance (Some (msalConfig cfg)) h in
         bind (await PcaInitialize h) (fun _ h =>
         bind (match flowType (svc h) with
               | redirect =>
                   bind (await HandleRedirectPromise h) (fun redirectResponse h =>
                     match redirectResponse with
                     | Some r => resolve tt (setCachedToken r h)
                     | None => resolve tt h
                     end)
               | popup => resolve tt h
               end) (fun _ h =>
         bind (clearPendingInteractions h) (fun _ h =>
         let h := set_isInitialized true h in
         match isLoggedIn h with
         | inl e => reject e h
         | inr true => resolve tt (startTokenRefreshTimer h)
         | inr false => resolve tt h
         end)))
       end)
      (fun error h => reject error (set_isInitialized true h)).

(** [key.includes(sub)] *)
Fixpoint includes (key sub : string) : bool :=
  String.prefix sub key
  || match key with
     | EmptyString => false
     | String _ rest => includes rest sub
     end.

(** The keys swept by [clearAuthenticationState]. *)
Definition reservedKey (key : string) : bool :=
  includes key "msal" || includes key "microsoft" || includes key "login".

(** [Object.keys(storage)] *)
Definition storageKeysOf (m : gmap string string) : list string :=
  (map_to_list m).*1.

(** The body of the [forEach]: [removeItem(key)] on both tiers. *)
Definition sweepKey (st : gmap string string * gmap string string) (key : string)
  : gmap string string * gmap string string :=
  if reservedKey key then (delete key st.1, delete key st.2) else st.

(** The storage [try] block; a throw on reaching storage is swallowed. *)
Definition sweepStorage (h : Heap) : Heap :=
  if storageAccessible (env h) then
    let storageKeys :=
      (storageKeysOf (sessionStorage (env h))
         ++ storageKeysOf (localStorage (env h)))%list in
    let st := foldl sweepKey (sessionStorage (env h), localStorage (env h)) storageKeys in
    set_storage st.1 st.2 h
  else h.

(** [clearAuthenticationState()]: an [async] method without an [await]. *)
Definition clearAuthenticationState (h : Heap) : Async unit :=
  let h := stopTokenRefreshTimer h in
  let h := set_isLoginInProgress false h in
  let h := clearCachedToken h in
  let h := sweepStorage h in
  let h := set_isInitialized false h in
  resolve tt h.

(** [!!this.cachedToken] *)
Definition truthyString (s : option string) : bool :=
  match s with
  | Some v => negb (eqs v "")
  | None => false
  end.

(** [getStatus()]: the object literal's properties are evaluated in order,
    and [this.getAllAccounts()] may throw. *)
Definition getStatus (h : Heap) : Thrown + AuthServiceStatus.t :=
  match getAllAccounts h with
  | inl e => inl e
  | inr accts =>
      inr {| AuthServiceStatus.isInitialized := isInitialized (svc h);
             AuthServiceStatus.hasToken := truthyString (cachedToken (svc h));
             AuthServiceStatus.tokenExpiry := tokenExpiryTime (svc h);
             AuthServiceStatus.isLoginInProgress := isLoginInProgress (svc h);
             AuthServiceStatus.accountCount := length accts;
             AuthServiceStatus.flowType := flowType (svc h) |}
  end.

(** ** Running a call to its end against a provider *)

(** The settlement of an awaited request: how the promise settled, and the
    clock and the provider's account list when the call resumes. *)
Record Settlement (q : Request) := {
  reply : Settled (answer q);
  clock : Z;
  accountsThen : list AccountInfo
}.
Arguments reply {q} _.
Arguments clock {q} _.
Arguments accountsThen {q} _.

(** A provider (and browser) behaviour: the settlement of the [n]-th
    awaited request of a run. *)
Definition World := nat -> forall q : Request, Settlement q.

(** The result of a run: the outcome ([None]: cut by the unfolding bound
    of [getAccessToken]), the final heap, and the requests awaited. *)
Record Run (A : Type) := {
  outcome : option (Outcome A);
  final : Heap;
  requests : list Request
}.
Arguments outcome {A} _.
Arguments final {A} _.
Arguments requests {A} _.

Definition issued {A} (q : Request) (r : Run A) : Run A :=
  {| outcome := outcome r; final := final r; requests := q :: requests r |}.

(** Nothing else touches the heap between an [await] and its resumption. *)
Fixpoint run {A} (w : World) (n : nat) (t : Async A) : Run A :=
  match t with
  | Done o h => {| outcome := Some o; final := h; requests := [] |}
  | Await q h k =>
      let s := w n q in
      issued q (run w (S n) (k (reply s) (settle_env (clock s) (accountsThen s) h)))
  | Cut h => {| outcome := None; final := h; requests := [] |}
  end.

(** ** The initialisation effect of [useAuthentication] *)

(** The [setAuthState(prev => ({...prev, ..}))] updates of the effect. *)
Definition startInitializing (st : AuthenticationState.t) : AuthenticationState.t :=
  {| AuthenticationState.isInitializing := true;
     AuthenticationState.isAuthenticated := AuthenticationState.isAuthenticated st;
     AuthenticationState.needsLogin := false;
     AuthenticationState.authError := None;
     AuthenticationState.jwtToken := AuthenticationState.jwtToken st;
     AuthenticationState.isInIframe := AuthenticationState.isInIframe st;
     AuthenticationState.sdkInitialized := AuthenticationState.sdkInitialized st |}.

Definition withToken (token : string) (st : AuthenticationState.t) : AuthenticationState.t :=
  {| AuthenticationState.isInitializing := AuthenticationState.isInitializing st;
     AuthenticationState.isAuthenticated := true;
     AuthenticationState.needsLogin := AuthenticationState.needsLogin st;
     AuthenticationState.authError := AuthenticationState.authError st;
     AuthenticationState.jwtToken := Some token;
     AuthenticationState.isInIframe := AuthenticationState.isInIframe st;
     AuthenticationState.sdkInitialized := AuthenticationState.sdkInitialized st |}.

Definition withNeedsLogin (st : AuthenticationState.t) : AuthenticationState.t :=
  {| AuthenticationState.isInitializing := AuthenticationState.isInitializing st;
     AuthenticationState.isAuthenticated := AuthenticationState.isAuthenticated st;
     AuthenticationState.needsLogin := true;
     AuthenticationState.authError := AuthenticationState.authError st;
     AuthenticationState.jwtToken := AuthenticationState.jwtToken st;
     AuthenticationState.isInIframe := AuthenticationState.isInIframe st;
     AuthenticationState.sdkInitialized := AuthenticationState.sdkInitialized st |}.

Definition doneInitializing (st : AuthenticationState.t) : AuthenticationState.t :=
  {| AuthenticationState.isInitializing := false;
     AuthenticationState.isAuthenticated := AuthenticationState.isAuthenticated st;
     AuthenticationState.needsLogin := AuthenticationState.needsLogin st;
     AuthenticationState.authError := AuthenticationState.authError st;
     AuthenticationState.jwtToken := AuthenticationState.jwtToken st;
     AuthenticationState.isInIframe := AuthenticationState.isInIframe st;
     AuthenticationState.sdkInitialized := AuthenticationState.sdkInitialized st |}.

Definition initializationFailed (error : Thrown) (st : AuthenticationState.t)
  : AuthenticationState.t :=
  {| AuthenticationState.isInitializing := false;
     AuthenticationState.isAuthenticated := AuthenticationState.isAuthenticated st;
     AuthenticationState.needsLogin := true;
     AuthenticationState.authError :=
       Some (if instanceofError error then message error else "Initialization failed");
     AuthenticationState.jwtToken := AuthenticationState.jwtToken st;
     AuthenticationState.isInIframe := AuthenticationState.isInIframe st;
     AuthenticationState.sdkInitialized := AuthenticationState.sdkInitialized st |}.

(** The [initialize] closure run by the hook's [useEffect], on the
    singleton [authService]; it resolves to the [authState] it leaves.
    [onAuthSuccess] tells whether the callback was supplied.  The inner
    [try { token = await getAccessToken(); ..; await onAuthSuccess() }
    catch { needsLogin }] is split at its first [await], each part with
    the same handler. *)
Definition useAuthentication_initialize (cfg : MsalAuthConfig.t) (onAuthSuccess : bool)
    (fuel : nat) (st : AuthenticationState.t) (h : Heap)
  : Async AuthenticationState.t :=
  let st1 := startInitializing st in
  try_catch
    (bind (initialize cfg h) (fun _ h =>
     bind (match isLoggedIn h with
           | inl e => reject e h
           | inr true =>
               andThen (getAccessToken fuel h) (fun o h =>
                 match o with
                 | Return token =>
                     let st2 := withToken token st1 in
                     if onAuthSuccess then
                       try_catch
                         (bind (await OnAuthSuccess h) (fun _ h => resolve st2 h))
                         (fun _ h => resolve (withNeedsLogin st2) h)
                     else resolve st2 h
                 | Throw _ => resolve (withNeedsLogin st1) h
                 end)
           | inr false => resolve (withNeedsLogin st1) h
           end) (fun st3 h => resolve (doneInitializing st3) h)))
    (fun error h => resolve (initializationFailed error st1) h).

(** The heap a call has left when it first stops (at its end, at its
    first [await], or at the unfolding bound). *)
Definition leaves {A} (t : Async A) : Heap :=
  match t with
  | Done _ h => h
  | Await _ h _ => h
  | Cut h => h
  end.

(** A run [r], continued by the run of [f] on how [r] ended. *)
Definition continued {A B} (w : World) (n : nat) (r : Run A)
    (f : Outcome A -> Heap -> Async B) : Run B :=
  match outcome r with
  | Some o =>
      let r2 := run w (n + length (requests r)) (f o (final r)) in
      {| outcome := outcome r2; final := final r2;
         requests := (requests r ++ requests r2)%list |}
  | None => {| outcome := None; final := final r; requests := requests r |}
  end.

(** [P] holds of every heap a call leaves, whenever it holds of every heap
    the call is resumed on. *)
Fixpoint maintains {A} (P : Heap -> Prop) (t : Async A) : Prop :=
  match t with
  | Done _ h => P h
  | Await q h k => P h /\ forall r h', P h' -> maintains P (k r h')
  | Cut h => P h
  end.

(** [P] does not depend on the clock or on the provider's account list. *)
Definition worldProof (P : Heap -> Prop) : Prop :=
  forall c a h, P h -> P (settle_env c a h).

(** The error of [ensureInitialized]. *)
Definition notInitialized : Thrown :=
  Error "MSAL not initialized. Call initialize() first.".

(** A storage tier without its reserved keys. *)
Definition unreserved (m : gmap string string) : gmap string string :=
  filter (fun kv => reservedKey kv.1 = false) m.

(** The handle [this.tokenRefreshInterval] holds, as a set. *)
Definition ownTimer (h : Heap) : gset positive :=
  match tokenRefreshInterval (svc h) with
  | Some id => {[ id ]}
  | None => ∅
  end.

(** The service stays initialized, with the configuration [cfg]. *)
Definition stillInitialized (cfg : MsalAuthConfig.t) (h : Heap) : Prop :=
  isInitialized (svc h) = true /\ config (svc h) = Some cfg.

(** ** Concrete sessions *)

Definition demoConfig : MsalAuthConfig.t :=
  {| MsalAuthConfig.clientId := "client-1";
     MsalAuthConfig.tenantId := "tenant-1";
     MsalAuthConfig.redirectUri := "https://app.example";
     MsalAuthConfig.scopes := ["api://client-1/access_as_user"];
     MsalAuthConfig.flowType := None;
     MsalAuthConfig.cacheLocation := None;
     MsalAuthConfig.navigateToLoginRequestUrl := None;
     MsalAuthConfig.prompt := None;
     MsalAuthConfig.enableLogging := None;
     MsalAuthConfig.authority := None;
     MsalAuthConfig.postLogoutRedirectUri := None;
     MsalAuthConfig.tokenRenewalOffsetSeconds := None |}.

Definition alice : AccountInfo :=
  {| homeAccountId := "alice-id"; username := "alice@example.com" |}.

(** A browser at time [t] in which the provider lists [accts]. *)
Definition demoEnv (t : Z) (accts : list AccountInfo) : Env :=
  {| now := t; accounts := accts; constructorThrows := None;
     constructed := []; timers := ∅; nextTimer := 1%positive;
     sessionStorage := {[ "msal.token.keys" := "k" ]};
     localStorage := {[ "theme" := "dark" ]};
     storageAccessible := true |}.

(** A service never initialized. *)
Definition freshHeap : Heap := {| svc := newService; env := demoEnv 1000 [] |}.

(** A service initialized with [cfg], nothing cached, no login pending. *)
Definition readyService (cfg : MsalAuthConfig.t) : Service :=
  {| msalInstance := Some (msalConfig cfg); config := Some cfg;
     isInitialized := true; cachedToken := None; tokenExpiryTime := None;
     isLoginInProgress := false;
     flowType := default popup (MsalAuthConfig.flowType cfg);
     tokenRefreshInterval := None |}.

Definition readyHeap (t : Z) (accts : list AccountInfo) : Heap :=
  {| svc := readyService demoConfig; env := demoEnv t accts |}.

(** A browser in which [new PublicClientApplication(..)] throws. *)
Definition brokenConstructorHeap : Heap :=
  {| svc := newService;
     env := {| now := 1000; accounts := []; 
               constructorThrows := Some (ErrorObject OtherAuthError "invalid_config" "bad client id");
               constructed := []; timers := ∅; nextTimer := 1%positive;
               sessionStorage := ∅; localStorage := ∅;
               storageAccessible := true |} |}.

(** [demoConfig] registered under another [clientId]. *)
Definition otherConfig : MsalAuthConfig.t :=
  {| MsalAuthConfig.clientId := "client-2";
     MsalAuthConfig.tenantId := "tenant-1";
     MsalAuthConfig.redirectUri := "https://app.example";
     MsalAuthConfig.scopes := ["api://client-2/access_as_user"];
     MsalAuthConfig.flowType := None;
     MsalAuthConfig.cacheLocation := None;
     MsalAuthConfig.navigateToLoginRequestUrl := None;
     MsalAuthConfig.prompt := None;
     MsalAuthConfig.enableLogging := None;
     MsalAuthConfig.authority := None;
     MsalAuthConfig.postLogoutRedirectUri := None;
     MsalAuthConfig.tokenRenewalOffsetSeconds := None |}.

(** A provider on which every request succeeds with no value of interest
    ([result]: the value of token acquisitions). *)
Definition succeeding (result : AuthenticationResult.t) (t : Z)
    (accts : list AccountInfo) : World :=
  fun _ q =>
    {| reply :=
         match q return Settled (answer q) with
         | PcaInitialize => Fulfilled tt
         | HandleRedirectPromise => Fulfilled None
         | AcquireTokenSilent _ _ _ => Fulfilled result
         | AcquireTokenRedirect _ _ => Fulfilled tt
         | AcquireTokenPopup _ _ => Fulfilled result
         | LogoutRedirect _ => Fulfilled tt
         | LogoutPopup _ => Fulfilled tt
         | SetTimeout _ => Fulfilled tt
         | OnAuthSuccess => Fulfilled tt
         end;
       clock := t; accountsThen := accts |}.

(** A provider whose every promise is rejected with [e], except that
    sleeps elapse and the application's callback succeeds. *)
Definition failing (e : Thrown) (t : Z) (accts : list AccountInfo) : World :=
  fun _ q =>
    {| reply :=
         match q return Settled (answer q) with
         | SetTimeout _ => Fulfilled tt
         | OnAuthSuccess => Fulfilled tt
         | _ => RejectedWith e
         end;
       clock := t; accountsThen := accts |}.

Definition demoResult (token : string) (expiry : Z) : AuthenticationResult.t :=
  {| AuthenticationResult.accessToken := token;
     AuthenticationResult.expiresOn := Some expiry;
     AuthenticationResult.account := Some alice |}.

(** [this.config] is [cfg]. *)
Definition configIs (cfg : MsalAuthConfig.t) (h : Heap) : Prop :=
  config (svc h) = Some cfg.

(** [demoConfig] with a renewal lead of [lead] seconds configured. *)
Definition configWithLead (lead : Z) : MsalAuthConfig.t :=
  {| MsalAuthConfig.clientId := "client-1";
     MsalAuthConfig.tenantId := "tenant-1";
     MsalAuthConfig.redirectUri := "https://app.example";
     MsalAuthConfig.scopes := ["api://client-1/access_as_user"];
     MsalAuthConfig.flowType := None;
     MsalAuthConfig.cacheLocation := None;
     MsalAuthConfig.navigateToLoginRequestUrl := None;
     MsalAuthConfig.prompt := None;
     MsalAuthConfig.enableLogging := None;
     MsalAuthConfig.authority := None;
     MsalAuthConfig.postLogoutRedirectUri := None;
     MsalAuthConfig.tokenRenewalOffsetSeconds := Some lead |}.

(** A session initialized with a lead of 600 s, [alice] signed in. *)
Definition lead600Heap : Heap :=
  {| svc := readyService (configWithLead 600); env := demoEnv 1000 [alice] |}.

(** The token the cache hands out: [tok], with the local expiry. *)
Definition cachedResult (tok : string) (expiry : Z) (acct : option AccountInfo)
  : TokenResult.t :=
  {| TokenResult.accessToken := tok;
     TokenResult.expiresOn := Some expiry;
     TokenResult.account := acct |}.

(** ** The renewal timer *)

(** The timer is armed with handle [id], the armed intervals are [T]. *)
Definition timerIs (id : option TimerId) (T : gset positive) (h : Heap) : Prop :=
  tokenRefreshInterval (svc h) = id /\ timers (env h) = T.

(** A firing of interval [id] finds it armed and sees a service that is
    initialized while the provider lists no account. *)
Definition seesNoAccount (id : TimerId) (h : Heap) : bool :=
  bool_decide (id ∈ timers (env h))
  && match isLoggedIn h with
     | inr false => true
     | _ => false
     end.

(** One firing of a sequence: when it happens, the accounts the provider
    lists then, and how the provider behaves while the callback runs. *)
Record Firing := {
  firedAt : Z;
  accountsAtFiring : list AccountInfo;
  provider : World
}.

(** The interval [id] fires once per element of [fs], each callback
    running to its end before the next firing. *)
Fixpoint fireAll (id : TimerId) (fs : list Firing) (h : Heap) : Heap :=
  match fs with
  | [] => h
  | f :: fs' =>
      fireAll id fs'
        (final (run (provider f) 0
                  (fire id (settle_env (firedAt f) (accountsAtFiring f) h))))
  end.

(** A session with [alice] signed in, a token cached until [expiry], and
    the renewal timer armed with handle 1. *)
Definition armedHeap (t expiry : Z) : Heap :=
  {| svc := {| msalInstance := Some (msalConfig demoConfig);
               config := Some demoConfig; isInitialized := true;
               cachedToken := Some "tok"; tokenExpiryTime := Some expiry;
               isLoginInProgress := false; flowType := popup;
               tokenRefreshInterval := Some 1%positive |};
     env := {| now := t; accounts := [alice]; constructorThrows := None;
               constructed := [msalConfig demoConfig];
               timers := {[ 1%positive ]}; nextTimer := 2%positive;
               sessionStorage := ∅; localStorage := ∅;
               storageAccessible := true |} |}.

(** A firing during which every provider promise is rejected. *)
Definition failedFiring (t : Z) : Firing :=
  {| firedAt := t; accountsAtFiring := [alice];
     provider := failing (ErrorObject OtherAuthError "network_error" "offline") t [alice] |}.

(** The call comes to an end whatever its awaited promises settle to: no
    path of it runs into the unfolding bound. *)
Fixpoint completes {A} (t : Async A) : Prop :=
  match t with
  | Done _ _ => True
  | Await q h k => forall r h', completes (k r h')
  | Cut _ => False
  end.

(** ** Logging out *)

(** The request [logout] awaits for [account] under the current flow. *)
Definition endSession (h : Heap) (account : AccountInfo) : Request :=
  match flowType (svc h) with
  | redirect => LogoutRedirect account
  | popup => LogoutPopup account
  end.

(** The only armed interval is the one whose handle the service holds. *)
Definition timerOwned (h : Heap) : Prop := timers (env h) = ownTimer h.

(** [armedHeap] while an interactive login is pending. *)
Definition busyHeap (t expiry : Z) : Heap :=
  set_isLoginInProgress true (armedHeap t expiry).

Definition networkError : Thrown :=
  ErrorObject OtherAuthError "network_error" "offline".

(** ** Escalation to interactive login *)

(** The provider's interactive requests. *)
Definition isInteractive (q : Request) : bool :=
  match q with
  | AcquireTokenPopup _ _ => true
  | AcquireTokenRedirect _ _ => true
  | _ => false
  end.

Definition interactiveAttempts {A} (r : Run A) : nat :=
  length (filter (fun q => isInteractive q = true) (requests r)).

(** What [getAccessToken] makes of the end of its [loginInteractive()]
    call: [return result.accessToken]. *)
Definition tokenOf (o : option (Outcome AuthenticationResult.t))
  : option (Outcome string) :=
  match o with
  | Some (Return result) => Some (Return (AuthenticationResult.accessToken result))
  | Some (Throw e) => Some (Throw e)
  | None => None
  end.

(** ** Failures of initialization *)

(** The run of [initialize(cfg)] ends by throwing [e]. *)
Definition initializeFails (w : World) (n : nat) (cfg : MsalAuthConfig.t)
    (h : Heap) (e : Thrown) : Prop :=
  outcome (run w n (initialize cfg h)) = Some (Throw e).

(** The hook's initial [authState]. *)
Definition initialAuthState (inIframe : bool) : AuthenticationState.t :=
  {| AuthenticationState.isInitializing := true;
     AuthenticationState.isAuthenticated := false;
     AuthenticationState.needsLogin := false;
     AuthenticationState.authError := None;
     AuthenticationState.jwtToken := None;
     AuthenticationState.isInIframe := inIframe;
     AuthenticationState.sdkInitialized := false |}.

(** The message the hook shows for a thrown value. *)
Definition failureMessage (e : Thrown) : string :=
  if instanceofError e then message e else "Initialization failed".

(** ** The retry of [getAccessToken] *)

(** The provider's error for a stuck interaction, as the code tests it. *)
Definition interactionInProgress (e : Thrown) : bool :=
  instanceofBrowserAuthError e && eqs (errorCode e) "interaction_in_progress".

(** The promise was rejected with that error. *)
Definition reportsStuck {T} (s : Settled T) : bool :=
  match s with
  | RejectedWith e => interactionInProgress e
  | Fulfilled _ => false
  end.

Definition isSilent (q : Request) : bool :=
  match q with
  | AcquireTokenSilent _ _ _ => true
  | _ => false
  end.

(** The caught errors on which [getAccessToken] calls itself again. *)
Definition retries (e : Thrown) : bool :=
  instanceofError e
  && negb (eqs (message e) "NO_ACCOUNTS_FOUND"
           || eqs (message e) "INTERACTION_REQUIRED"
           || eqs (message e) "SILENT_REFRESH_FAILED")
  && eqs (message e) "INTERACTION_IN_PROGRESS_RESOLVED".

(** The [catch] block of [getAccessToken], with [fuel] unfoldings left. *)
Definition getAccessToken_catch (fuel : nat) (o : Outcome string) (h : Heap)
  : Async string :=
  match o with
  | Return a => resolve a h
  | Throw error =>
      if instanceofError error then
        if eqs (message error) "NO_ACCOUNTS_FOUND"
           || eqs (message error) "INTERACTION_REQUIRED"
           || eqs (message error) "SILENT_REFRESH_FAILED" then
          bind (loginInteractive h)
            (fun result h => resolve (AuthenticationResult.accessToken result) h)
        else if eqs (message error) "INTERACTION_IN_PROGRESS_RESOLVED" then
          getAccessToken fuel h
        else reject error h
      else reject error h
  end.

(** [getAccessToken()] comes to an end against [w] from [h]: some bound on
    the unfolding of its recursion is not reached. *)
Definition terminates (w : World) (n : nat) (h : Heap) : Prop :=
  exists fuel o, outcome (run w n (getAccessToken fuel h)) = Some o.

Definition stuckError : Thrown :=
  ErrorObject BrowserAuthError "interaction_in_progress"
    "Interaction is currently in progress.".

(** A provider that reports a stuck interaction on every silent
    acquisition; everything else succeeds, [alice] stays signed in. *)
Definition stuckProvider : World :=
  fun n q =>
    {| reply :=
         match q return Settled (answer q) with
         | PcaInitialize => Fulfilled tt
         | HandleRedirectPromise => Fulfilled None
         | AcquireTokenSilent _ _ _ => RejectedWith stuckError
         | AcquireTokenRedirect _ _ => Fulfilled tt
         | AcquireTokenPopup _ _ => Fulfilled (demoResult "fresh" 3600000)
         | LogoutRedirect _ => Fulfilled tt
         | LogoutPopup _ => Fulfilled tt
         | SetTimeout _ => Fulfilled tt
         | OnAuthSuccess => Fulfilled tt
         end;
       clock := (1000 + 1000 * Z.of_nat n)%Z; accountsThen := [alice] |}.

(** A provider that reports a stuck interaction on the first [k] awaited
    requests of a run and succeeds afterwards. *)
Definition stuckUntil (k : nat) : World :=
  fun n q => if (n <? k)%nat then stuckProvider n q
             else succeeding (demoResult "fresh" 3600000) 5000 [alice] n q.

(** ** Concurrent calls of [loginInteractive] *)

(** A call suspended at an [await]: the request awaited, and the rest of
    the call. *)
Record Pending := {
  awaited : Request;
  resumption : Settled (answer awaited) -> Heap -> Async AuthenticationResult.t
}.

(** The service shared by the calls of [loginInteractive()] made so far:
    the heap, the calls suspended at an [await], and how the others ended,
    in the order of their ends. *)
Record Session := {
  heap : Heap;
  inFlight : list Pending;
  ended : list (Outcome AuthenticationResult.t)
}.

Definition start (h : Heap) : Session :=
  {| heap := h; inFlight := []; ended := [] |}.

(** A call has run up to its next stop, beside the suspended [others]. *)
Definition advance (t : Async AuthenticationResult.t) (others : list Pending)
    (done : list (Outcome AuthenticationResult.t)) : Session :=
  match t with
  | Done o h => {| heap := h; inFlight := others; ended := (done ++ [o])%list |}
  | Await q h k =>
      {| heap := h;
         inFlight := (others ++ [{| awaited := q; resumption := k |}])%list;
         ended := done |}
  | Cut h => {| heap := h; inFlight := others; ended := done |}
  end.

(** A new call of [loginInteractive()] runs up to its first stop. *)
Definition call (s : Session) : Session :=
  advance (loginInteractive (heap s)) (inFlight s) (ended s).

(** The promise awaited by the [i]-th suspended call settles as [r] says,
    and that call runs up to its next stop. *)
Definition settleAt (i : nat) (r : forall q : Request, Settlement q) (s : Session)
  : Session :=
  match inFlight s !! i with
  | Some p =>
      let a := r (awaited p) in
      advance (resumption p (reply a) (settle_env (clock a) (accountsThen a) (heap s)))
        (delete i (inFlight s)) (ended s)
  | None => s
  end.

(** The interleavings of calls and settlements, the promises settling
    only in the [allowed] ways. *)
Inductive step (allowed : forall T, Settled T -> Prop) : Session -> Session -> Prop :=
| step_call s : step allowed s (call s)
| step_settle s i p r :
    inFlight s !! i = Some p ->
    allowed _ (reply (r (awaited p))) ->
    step allowed s (settleAt i r s).

Definition anyReply : forall T, Settled T -> Prop := fun _ _ => True.

(** No promise is rejected with the stuck-interaction error. *)
Definition noRecovery : forall T, Settled T -> Prop :=
  fun _ r => reportsStuck r = false.

(** A suspended call that, resumed with a reply other than the
    stuck-interaction error, ends at once and leaves the lock released and
    the service initialized as it was. *)
Definition endsReleased (inst : Configuration.t) (cfg : MsalAuthConfig.t)
    (p : Pending) : Prop :=
  forall r h, reportsStuck r = false ->
    ensureInitialized h = inr (inst, cfg) ->
    exists o h', resumption p r h = Done o h'
      /\ isLoginInProgress (svc h') = false
      /\ ensureInitialized h' = inr (inst, cfg).

(** At most one call is in flight, and the lock is held exactly then. *)
Definition singleFlight (inst : Configuration.t) (cfg : MsalAuthConfig.t)
    (s : Session) : Prop :=
  ensureInitialized (heap s) = inr (inst, cfg)
  /\ ((inFlight s = [] /\ isLoginInProgress (svc (heap s)) = false)
      \/ (exists p, inFlight s = [p]
            /\ isLoginInProgress (svc (heap s)) = true
            /\ endsReleased inst cfg p)).

(** The lock is held exactly when a call is in flight. *)
Definition lockMatchesFlight (s : Session) : Prop :=
  isLoginInProgress (svc (heap s))
  = match inFlight s with
    | [] => false
    | _ :: _ => true
    end.

(** What a further call of [loginInteractive()] does in [s]: with no call
    in flight it sets the lock and suspends at the provider's interactive
    request; with a call in flight it fails at once. *)
Definition nextCall (s : Session) : Prop :=
  match inFlight s with
  | [] =>
      exists q k,
        loginInteractive (heap s) = Await q (set_isLoginInProgress true (heap s)) k
        /\ isInteractive q = true
  | _ :: _ =>
      loginInteractive (heap s) = reject (Error "Login already in progress") (heap s)
  end.

(** The popup of the first call is answered with the stuck-interaction
    error; a second call is made during the recovery delay. *)
Definition duringRecovery : Session :=
  call (settleAt 0 (failing stuckError 2000 [] 0) (call (start (readyHeap 1000 [])))).

(** Then the first call's delay elapses, and a third call is made. *)
Definition afterRecovery : Session :=
  call (settleAt 0 (failing stuckError 4000 [] 0) duringRecovery).

(** ** Postconditions of runs *)

(** [Q] holds of how the call ends and of the heap it leaves, however the
    awaited promises settle and whatever the clock and the account list
    are at each resumption, nothing else touching the heap meanwhile. *)
Fixpoint post {A} (Q : Outcome A -> Heap -> Prop) (t : Async A) : Prop :=
  match t with
  | Done o h => Q o h
  | Await q h k => forall r c a, post Q (k r (settle_env c a h))
  | Cut _ => True
  end.

(** What [post] says of a run. *)
Definition ended_with {A} (Q : Outcome A -> Heap -> Prop) (r : Run A) : Prop :=
  match outcome r with
  | Some o => Q o (final r)
  | None => True
  end.

(** The sleeps of the code elapse: a promise resolved by [setTimeout] is
    never rejected. *)
Definition sleepsElapse (w : World) : Prop :=
  forall n ms, reply (w n (SetTimeout ms)) = Fulfilled tt.

(** The five errors [acquireTokenSilent] throws by itself. *)
Definition silentErrors : list Thrown :=
  [ notInitialized;
    Error "NO_ACCOUNTS_FOUND";
    Error "INTERACTION_IN_PROGRESS_RESOLVED";
    Error "INTERACTION_REQUIRED";
    Error "SILENT_REFRESH_FAILED" ].

(** The error [acquireTokenSilent] makes of a rejection by the provider. *)
Definition classifySilent (e : Thrown) : Thrown :=
  if interactionInProgress e then Error "INTERACTION_IN_PROGRESS_RESOLVED"
  else if instanceofInteractionRequiredAuthError e then Error "INTERACTION_REQUIRED"
  else Error "SILENT_REFRESH_FAILED".

(** The error [loginInteractive] makes of a rejection by the provider. *)
Definition classifyLogin (e : Thrown) : Thrown :=
  if interactionInProgress e
  then Error "Authentication window was closed or interrupted. Please try again."
  else if instanceofBrowserAuthError e
          && (eqs (errorCode e) "user_cancelled" || eqs (errorCode e) "popup_window_error")
  then Error "Authentication was cancelled. Please try again."
  else e.

(** The run that awaited nothing and ended with [o], leaving [h]. *)
Definition immediate {A} (o : Outcome A) (h : Heap) : Run A :=
  {| outcome := Some o; final := h; requests := [] |}.

(** The silent request of [acquireTokenSilent] from [h] under [cfg]. *)
Definition silentRequest (cfg : MsalAuthConfig.t) (account : AccountInfo) : Request :=
  AcquireTokenSilent (MsalAuthConfig.scopes cfg) account false.

(** The popup request of [loginInteractive] under [cfg]. *)
Definition popupRequest (cfg : MsalAuthConfig.t) : Request :=
  AcquireTokenPopup (MsalAuthConfig.scopes cfg)
    (default select_account (MsalAuthConfig.prompt cfg)).

Definition redirectRequest (cfg : MsalAuthConfig.t) : Request :=
  AcquireTokenRedirect (MsalAuthConfig.scopes cfg)
    (default select_account (MsalAuthConfig.prompt cfg)).

(** The requests [initialize] awaits on a service not yet initialized. *)
Definition startupRequest (q : Request) : bool :=
  match q with
  | PcaInitialize => true
  | HandleRedirectPromise => true
  | _ => false
  end.

(** [demoConfig] under the redirect flow. *)
Definition redirectConfig : MsalAuthConfig.t :=
  {| MsalAuthConfig.clientId := "client-1";
     MsalAuthConfig.tenantId := "tenant-1";
     MsalAuthConfig.redirectUri := "https://app.example";
     MsalAuthConfig.scopes := ["api://client-1/access_as_user"];
     MsalAuthConfig.flowType := Some redirect;
     MsalAuthConfig.cacheLocation := None;
     MsalAuthConfig.navigateToLoginRequestUrl := None;
     MsalAuthConfig.prompt := None;
     MsalAuthConfig.enableLogging := None;
     MsalAuthConfig.authority := None;
     MsalAuthConfig.postLogoutRedirectUri := None;
     MsalAuthConfig.tokenRenewalOffsetSeconds := None |}.

(** A provider on which everything succeeds and the page has just come
    back from a redirect with [result]. *)
Definition returning (result : AuthenticationResult.t) (t : Z)
    (accts : list AccountInfo) : World :=
  fun _ q =>
    {| reply :=
         match q return Settled (answer q) with
         | PcaInitialize => Fulfilled tt
         | HandleRedirectPromise => Fulfilled (Some result)
         | AcquireTokenSilent _ _ _ => Fulfilled result
         | AcquireTokenRedirect _ _ => Fulfilled tt
         | AcquireTokenPopup _ _ => Fulfilled result
         | LogoutRedirect _ => Fulfilled tt
         | LogoutPopup _ => Fulfilled tt
         | SetTimeout _ => Fulfilled tt
         | OnAuthSuccess => Fulfilled tt
         end;
       clock := t; accountsThen := accts |}.

(** The interactive request of [loginInteractive] under the flow of [h]. *)
Definition interactiveRequest (h : Heap) (cfg : MsalAuthConfig.t) : Request :=
  match flowType (svc h) with
  | popup => popupRequest cfg
  | redirect => redirectRequest cfg
  end.

(** The provider rejects that request, the [n]-th awaited, with [e]. *)
Definition interactiveRejected (w : World) (n : nat) (h : Heap)
    (cfg : MsalAuthConfig.t) (e : Thrown) : Prop :=
  match flowType (svc h) with
  | popup => reply (w n (popupRequest cfg)) = RejectedWith e
  | redirect => reply (w n (redirectRequest cfg)) = RejectedWith e
  end.

(** [readyHeap] under the redirect flow. *)
Definition redirectHeap (t : Z) (accts : list AccountInfo) : Heap :=
  {| svc := readyService redirectConfig; env := demoEnv t accts |}.

(** The call did not return a value, and left the timer as [h] had it. *)
Definition noResultNoTimer {A} (h : Heap) (o : Outcome A) (h' : Heap) : Prop :=
  (forall a, o <> Return a)
  /\ tokenRefreshInterval (svc h') = tokenRefreshInterval (svc h)
  /\ timers (env h') = timers (env h)
  /\ isLoginInProgress (svc h') = isLoginInProgress (svc h).

(** ** The actions of [useAuthentication] *)

(** [setAuthState(prev => ({...prev, isInitializing: true, authError: null}))] *)
Definition beginAction (st : AuthenticationState.t) : AuthenticationState.t :=
  {| AuthenticationState.isInitializing := true;
     AuthenticationState.isAuthenticated := AuthenticationState.isAuthenticated st;
     AuthenticationState.needsLogin := AuthenticationState.needsLogin st;
     AuthenticationState.authError := None;
     AuthenticationState.jwtToken := AuthenticationState.jwtToken st;
     AuthenticationState.isInIframe := AuthenticationState.isInIframe st;
     AuthenticationState.sdkInitialized := AuthenticationState.sdkInitialized st |}.

(** [{...prev, jwtToken: token, isAuthenticated: true, needsLogin: false}] *)
Definition loggedIn (token : string) (st : AuthenticationState.t) : AuthenticationState.t :=
  {| AuthenticationState.isInitializing := AuthenticationState.isInitializing st;
     AuthenticationState.isAuthenticated := true;
     AuthenticationState.needsLogin := false;
     AuthenticationState.authError := AuthenticationState.authError st;
     AuthenticationState.jwtToken := Some token;
     AuthenticationState.isInIframe := AuthenticationState.isInIframe st;
     AuthenticationState.sdkInitialized := AuthenticationState.sdkInitialized st |}.

(** [{...prev, authError: msg}] *)
Definition withAuthError (msg : string) (st : AuthenticationState.t) : AuthenticationState.t :=
  {| AuthenticationState.isInitializing := AuthenticationState.isInitializing st;
     AuthenticationState.isAuthenticated := AuthenticationState.isAuthenticated st;
     AuthenticationState.needsLogin := AuthenticationState.needsLogin st;
     AuthenticationState.authError := Some msg;
     AuthenticationState.jwtToken := AuthenticationState.jwtToken st;
     AuthenticationState.isInIframe := AuthenticationState.isInIframe st;
     AuthenticationState.sdkInitialized := AuthenticationState.sdkInitialized st |}.

(** [{...prev, isAuthenticated: false, needsLogin: true, jwtToken: null,
    authError: null}] *)
Definition signedOut (st : AuthenticationState.t) : AuthenticationState.t :=
  {| AuthenticationState.isInitializing := AuthenticationState.isInitializing st;
     AuthenticationState.isAuthenticated := false;
     AuthenticationState.needsLogin := true;
     AuthenticationState.authError := None;
     AuthenticationState.jwtToken := None;
     AuthenticationState.isInIframe := AuthenticationState.isInIframe st;
     AuthenticationState.sdkInitialized := AuthenticationState.sdkInitialized st |}.

(** [handleClearAuthState], the caller having queued the updates
    [meanwhile] between the call and its resumption after the [await]
    ([id] when the call is awaited or made on its own):
    [try { setAuthState(..); await authService.clearAuthenticationState();
    setAuthState(..) } catch {} finally { setAuthState(..) }]. *)
Definition handleClearAuthState_during
    (meanwhile : AuthenticationState.t -> AuthenticationState.t)
    (st : AuthenticationState.t) (h : Heap) : Async AuthenticationState.t :=
  let st1 := beginAction st in
  andThen (clearAuthenticationState h) (fun o h =>
    let st2 := meanwhile st1 in
    match o with
    | Return _ => resolve (doneInitializing (signedOut st2)) h
    | Throw _ => resolve (doneInitializing st2) h
    end).

Definition handleClearAuthState (st : AuthenticationState.t) (h : Heap)
  : Async AuthenticationState.t :=
  handleClearAuthState_during (fun st => st) st h.

(** The [errorMessage] of [handleLogin]'s [catch] block. *)
Definition loginErrorMessage (error : Thrown) : string :=
  if instanceofError error then
    if includes (message error) "interaction_in_progress" then
      "Authentication window was closed or interrupted. Please try again."
    else if includes (message error) "cancelled" then
      "Authentication was cancelled. Please try again."
    else message error
  else "Login failed".

(** The errors on which [handleLogin] calls [handleClearAuthState()]. *)
Definition clearsOnLoginError (error : Thrown) : bool :=
  instanceofError error && includes (message error) "interaction_in_progress".

(** The [catch] and [finally] blocks of [handleLogin], entered with the
    state [st].  [handleClearAuthState()] is called without [await]: it
    runs up to its own [await] at once, and its remaining updates come
    after the two that [handleLogin] still makes. *)
Definition handleLogin_catch (st : AuthenticationState.t) (error : Thrown) (h : Heap)
  : Async AuthenticationState.t :=
  if clearsOnLoginError error then
    handleClearAuthState_during
      (fun st => doneInitializing (withAuthError (loginErrorMessage error) st)) st h
  else resolve (doneInitializing (withAuthError (loginErrorMessage error) st)) h.

(** [handleLogin]; it resolves to the [authState] it leaves.  The [try]
    block is split at its [await]s, each part with the same handler. *)
Definition handleLogin (onAuthSuccess : bool) (st : AuthenticationState.t) (h : Heap)
  : Async AuthenticationState.t :=
  let st1 := beginAction st in
  andThen (loginInteractive h) (fun o h =>
    match o with
    | Return result =>
        let st2 := loggedIn (AuthenticationResult.accessToken result) st1 in
        if onAuthSuccess then
          andThen (await OnAuthSuccess h) (fun o h =>
            match o with
            | Return _ => resolve (doneInitializing st2) h
            | Throw error => handleLogin_catch st2 error h
            end)
        else resolve (doneInitializing st2) h
    | Throw error => handleLogin_catch st1 error h
    end).

(** [handleLogout] *)
Definition handleLogout (st : AuthenticationState.t) (h : Heap)
  : Async AuthenticationState.t :=
  let st1 := beginAction st in
  andThen (logout h) (fun o h =>
    match o with
    | Return _ => resolve (doneInitializing (signedOut st1)) h
    | Throw error =>
        resolve (doneInitializing
                   (withAuthError (if instanceofError error then message error
                                   else "Logout failed") st1)) h
    end).

(** ** [AuthenticationWrapper] *)

(** The props that decide what is rendered: which optional components
    were supplied, and [showAuthStatus]. *)
Record WrapperProps := {
  showAuthStatus : bool;
  loadingComponent : bool;
  loginComponent : bool;
  errorComponent : bool;
  wrapperComponent : bool
}.

(** What the wrapper renders. *)
Inductive View :=
| CustomWrapperView (isInitializing isAuthenticated needsLogin : bool)
    (authError : option string)
| LoadingView (custom : bool)
| LoginComponentView
| ErrorComponentView (error : string)
| DefaultLoginView (error : option string)
| ChildrenView (statusBar : bool).

Definition AuthenticationWrapper (props : WrapperProps) (st : AuthenticationState.t)
  : View :=
  if wrapperComponent props then
    CustomWrapperView (AuthenticationState.isInitializing st)
      (AuthenticationState.isAuthenticated st) (AuthenticationState.needsLogin st)
      (AuthenticationState.authError st)
  else if AuthenticationState.isInitializing st then
    LoadingView (loadingComponent props)
  else if AuthenticationState.needsLogin st
          && negb (AuthenticationState.isAuthenticated st) then
    if loginComponent props then LoginComponentView
    else
      match AuthenticationState.authError st with
      | Some err =>
          if errorComponent props && negb (eqs err "") then ErrorComponentView err
          else DefaultLoginView (Some err)
      | None => DefaultLoginView None
      end
  else ChildrenView (showAuthStatus props).

(** The default wrapper: no optional component supplied. *)
Definition defaultProps : WrapperProps :=
  {| showAuthStatus := false; loadingComponent := false; loginComponent := false;
     errorComponent := false; wrapperComponent := false |}.

(** The snapshot leaves the initializing state with a login asked for or
    a user authenticated. *)
Definition settledState (st : AuthenticationState.t) : Prop :=
  AuthenticationState.isInitializing st = false
  /\ (AuthenticationState.needsLogin st = true
      \/ AuthenticationState.isAuthenticated st = true).

(** A hook action ended: it returned the snapshot, which satisfies [Q]. *)
Definition returnsState (Q : AuthenticationState.t -> Prop)
    (o : Outcome AuthenticationState.t) (h : Heap) : Prop :=
  exists st', o = Return st' /\ Q st'.


(** The snapshot after an action that failed with the message [msg]:
    the session fields are those of [st]. *)
Definition actionFailed (msg : string) (st st' : AuthenticationState.t) : Prop :=
  AuthenticationState.isInitializing st' = false
  /\ AuthenticationState.authError st' = Some msg
  /\ AuthenticationState.isAuthenticated st' = AuthenticationState.isAuthenticated st
  /\ AuthenticationState.needsLogin st' = AuthenticationState.needsLogin st
  /\ AuthenticationState.jwtToken st' = AuthenticationState.jwtToken st.

(** The signed-out snapshot. *)
Definition isSignedOut (st' : AuthenticationState.t) : Prop :=
  AuthenticationState.isInitializing st' = false
  /\ AuthenticationState.isAuthenticated st' = false
  /\ AuthenticationState.needsLogin st' = true
  /\ AuthenticationState.jwtToken st' = None
  /\ AuthenticationState.authError st' = None.

(** A snapshot of an authenticated user. *)
Definition authenticatedState (token : string) : AuthenticationState.t :=
  {| AuthenticationState.isInitializing := false;
     AuthenticationState.isAuthenticated := true;
     AuthenticationState.needsLogin := false;
     AuthenticationState.authError := None;
     AuthenticationState.jwtToken := Some token;
     AuthenticationState.isInIframe := false;
     AuthenticationState.sdkInitialized := false |}.


(** ** The Angular service, guard and interceptor *)

(** How a method of the Angular [MsalAuthService] ended: the value of its
    [authStateSubject] then, and what its promise was rejected with, if it
    was rejected. *)
Record Ended := {
  subject : AuthenticationState.t;
  thrown : option Thrown
}.

Module Angular.

(** [initialize(config)], on the subject value [st]; it never rejects. *)
Definition initialize (cfg : MsalAuthConfig.t) (fuel : nat)
    (st : AuthenticationState.t) (h : Heap) : Async AuthenticationState.t :=
  let st1 := beginAction st in
  andThen (initialize cfg h) (fun o h =>
    match o with
    | Return _ =>
        match isLoggedIn h with
        | inl error => resolve (initializationFailed error st1) h
        | inr true =>
            andThen (getAccessToken fuel h) (fun o h =>
              match o with
              | Return token => resolve (doneInitializing (withToken token st1)) h
              | Throw _ => resolve (doneInitializing (withNeedsLogin st1)) h
              end)
        | inr false => resolve (doneInitializing (withNeedsLogin st1)) h
        end
    | Throw error => resolve (initializationFailed error st1) h
    end).

(** The [errorMessage] of [login]'s [catch] block. *)
Definition loginErrorMessage (error : Thrown) : string :=
  if instanceofError error then
    if includes (message error) "cancelled" then
      "Authentication was cancelled. Please try again."
    else message error
  else "Login failed".

(** [login()]; it rethrows what [loginInteractive()] throws. *)
Definition login (st : AuthenticationState.t) (h : Heap) : Async Ended :=
  let st1 := beginAction st in
  andThen (loginInteractive h) (fun o h =>
    match o with
    | Return result =>
        resolve {| subject := doneInitializing
                                (loggedIn (AuthenticationResult.accessToken result) st1);
                   thrown := None |} h
    | Throw error =>
        resolve {| subject := doneInitializing
                                (withAuthError (loginErrorMessage error) st1);
                   thrown := Some error |} h
    end).

(** [logout()]; it rethrows what the core [logout()] throws. *)
Definition logout (st : AuthenticationState.t) (h : Heap) : Async Ended :=
  let st1 := beginAction st in
  andThen (logout h) (fun o h =>
    match o with
    | Return _ =>
        resolve {| subject := doneInitializing (signedOut st1); thrown := None |} h
    | Throw error =>
        resolve {| subject := doneInitializing
                                (withAuthError (if instanceofError error
                                                then message error
                                                else "Logout failed") st1);
                   thrown := Some error |} h
    end).

(** [getAccessTokenAsync()] *)
Definition getAccessTokenAsync (fuel : nat) (h : Heap) : Async string :=
  getAccessToken fuel h.

(** [clearAuthenticationState()] *)
Definition clearAuthenticationState (st : AuthenticationState.t) (h : Heap)
  : Async Ended :=
  andThen (clearAuthenticationState h) (fun o h =>
    match o with
    | Return _ =>
        resolve {| subject := doneInitializing (signedOut st); thrown := None |} h
    | Throw error => resolve {| subject := st; thrown := Some error |} h
    end).

End Angular.

(** What [MsalAuthGuard] answers the router: [true], [false], or the
    [UrlTree] of [/login] with the query parameter [returnUrl]. *)
Inductive GuardAnswer :=
| Activate
| Refuse
| RedirectToLogin (returnUrl : string).

(** [checkAuth(url)], on the subject value [st]; it resolves to the
    subject value it leaves and to its answer. *)
Definition checkAuth (url : string) (st : AuthenticationState.t) (h : Heap)
  : Async (AuthenticationState.t * GuardAnswer) :=
  if AuthenticationState.isAuthenticated st then resolve (st, Activate) h
  else if AuthenticationState.needsLogin st then
    andThen (Angular.login st h) (fun o h =>
      match o with
      | Return e =>
          match thrown e with
          | None => resolve (subject e, Activate) h
          | Some _ => resolve (subject e, RedirectToLogin url) h
          end
      | Throw _ => resolve (st, RedirectToLogin url) h
      end)
  else resolve (st, Refuse) h.

Definition canActivate (url : string) (st : AuthenticationState.t) (h : Heap)
  : Async (AuthenticationState.t * GuardAnswer) :=
  checkAuth url st h.


(** [skipUrls.some(skipUrl => url.includes(skipUrl))] *)
Definition shouldSkipAuth (url : string) : bool :=
  existsb (fun skipUrl => includes url skipUrl)
    ["login.microsoftonline.com"; "graph.microsoft.com"].

(** What [MsalAuthInterceptor.intercept] hands to [next.handle]: the
    request of the given [url], as it came ([setHeaders = []]) or cloned
    with the headers [setHeaders] set. *)
Record Handled := {
  handledUrl : string;
  setHeaders : list (string * string)
}.

(** [intercept(request, next)], up to the call of [next.handle]; the
    events and errors of the handler, and an error of the token
    acquisition, pass through its [catchError] as they are. *)
Definition intercept (fuel : nat) (url : string) (h : Heap) : Async Handled :=
  if shouldSkipAuth url then resolve {| handledUrl := url; setHeaders := [] |} h
  else
    bind (Angular.getAccessTokenAsync fuel h) (fun token h =>
      resolve {| handledUrl := url;
                 setHeaders := [("Authorization", "Bearer " +:+ token)] |} h).

(** * Properties *)

(** ** Runs of composed calls *)

Lemma run_andThen {A B} (w : World) (m : Async A) (f : Outcome A -> Heap -> Async B) :
  forall n, run w n (andThen m f) = continued w n (run w n m) f.
Proof.
  induction m as [o h | q h k IH | h]; intros n; simpl.
  - unfold continued; simpl. rewrite Nat.add_0_r.
    destruct (run w n (f o h)); reflexivity.
  - rewrite IH. unfold continued, issued; simpl.
    destruct (outcome (run w (S n) _)); simpl; [|reflexivity].
    replace (n + S (length (requests (run w (S n) (k (reply (w n q))
      (settle_env (clock (w n q)) (accountsThen (w n q)) h))))))
      with (S n + length (requests (run w (S n) (k (reply (w n q))
      (settle_env (clock (w n q)) (accountsThen (w n q)) h))))) by lia.
    reflexivity.
  - reflexivity.
Qed.



Lemma maintains_andThen {A B} (P : Heap -> Prop) (m : Async A)
    (f : Outcome A -> Heap -> Async B) :
  maintains P m ->
  (forall o h, P h -> maintains P (f o h)) ->
  maintains P (andThen m f).
Proof.
  induction m as [o h | q h k IH | h]; simpl; intros Hm Hf.
  - apply Hf, Hm.
  - destruct Hm as [Hh Hk]. split; [exact Hh|].
    intros r h' Hh'. apply IH; [apply Hk, Hh' | exact Hf].
  - exact Hm.
Qed.

Lemma maintains_run {A} (P : Heap -> Prop) (w : World) (t : Async A) :
  worldProof P -> maintains P t -> forall n, P (final (run w n t)).
Proof.
  intros HP. induction t as [o h | q h k IH | h]; simpl; intros Ht n.
  - exact Ht.
  - destruct Ht as [Hh Hk]. apply IH, Hk, HP, Hh.
  - exact Ht.
Qed.

Lemma maintains_leaves {A} (P : Heap -> Prop) (t : Async A) :
  maintains P t -> P (leaves t).
Proof. destruct t; simpl; tauto. Qed.

(** ** The storage sweep *)

Lemma sweepKey_fst_lookup st key k :
  (sweepKey st key).1 !! k
  = if reservedKey key && bool_decide (k = key) then None else st.1 !! k.
Proof.
  unfold sweepKey. destruct (reservedKey key); simpl.
  - case_bool_decide as Hk.
    + subst. apply lookup_delete_eq.
    + apply lookup_delete_ne. congruence.
  - reflexivity.
Qed.

Lemma sweepKey_snd_lookup st key k :
  (sweepKey st key).2 !! k
  = if reservedKey key && bool_decide (k = key) then None else st.2 !! k.
Proof.
  unfold sweepKey. destruct (reservedKey key); simpl.
  - case_bool_decide as Hk.
    + subst. apply lookup_delete_eq.
    + apply lookup_delete_ne. congruence.
  - reflexivity.
Qed.

Lemma sweep_lookup keys : forall st k,
  (foldl sweepKey st keys).1 !! k
    = (if reservedKey k && bool_decide (k ∈ keys) then None else st.1 !! k)
  /\ (foldl sweepKey st keys).2 !! k
    = (if reservedKey k && bool_decide (k ∈ keys) then None else st.2 !! k).
Proof.
  induction keys as [|key keys IH]; intros st k; simpl.
  - rewrite andb_false_r. split; reflexivity.
  - destruct (IH (sweepKey st key) k) as [-> ->].
    rewrite sweepKey_fst_lookup, sweepKey_snd_lookup.
    destruct (reservedKey k) eqn:Hr; simpl.
    + destruct (bool_decide (k ∈ keys)) eqn:Hin.
      * apply bool_decide_eq_true in Hin.
        rewrite bool_decide_eq_true_2 by (right; exact Hin). split; reflexivity.
      * apply bool_decide_eq_false in Hin.
        destruct (decide (k = key)) as [->|Hne].
        -- rewrite Hr. rewrite !bool_decide_eq_true_2 by (reflexivity || left).
           split; reflexivity.
        -- rewrite (bool_decide_eq_false_2 (k = key)) by exact Hne.
           rewrite andb_false_r.
           rewrite bool_decide_eq_false_2; [split; reflexivity|].
           intros Hk. apply elem_of_cons in Hk. tauto.
    + destruct (decide (k = key)) as [->|Hne].
      * rewrite Hr. split; reflexivity.
      * rewrite (bool_decide_eq_false_2 (k = key)) by exact Hne.
        rewrite andb_false_r. split; reflexivity.
Qed.

Lemma sweep_unreserved keys : forall st,
  (forall k, k ∈ keys -> reservedKey k = false) -> foldl sweepKey st keys = st.
Proof.
  induction keys as [|key keys IH]; intros st Hk; simpl; [reflexivity|].
  unfold sweepKey at 2. rewrite (Hk key) by left.
  apply IH. intros k Hin. apply Hk. right. exact Hin.
Qed.

Lemma storageKeysOf_elem (m : gmap string string) k :
  k ∈ storageKeysOf m <-> is_Some (m !! k).
Proof.
  unfold storageKeysOf. rewrite list_elem_of_fmap. split.
  - intros [[k' v] [-> Hin]]. apply elem_of_map_to_list in Hin. eauto.
  - intros [v Hv]. exists (k, v). split; [reflexivity|].
    apply elem_of_map_to_list. exact Hv.
Qed.

(** After a sweep no key of either tier is a reserved one. *)
Lemma swept_keys_unreserved (ss ls : gmap string string) k :
  let keys := (storageKeysOf ss ++ storageKeysOf ls)%list in
  let st := foldl sweepKey (ss, ls) keys in
  k ∈ (storageKeysOf st.1 ++ storageKeysOf st.2)%list -> reservedKey k = false.
Proof.
  intros keys st Hin.
  destruct (reservedKey k) eqn:Hr; [exfalso|reflexivity].
  destruct (sweep_lookup keys (ss, ls) k) as [H1 H2]. fold st in H1, H2.
  rewrite Hr in H1, H2. simpl in H1, H2.
  apply elem_of_app in Hin.
  assert (Hkeys : k ∈ keys).
  { destruct Hin as [Hin|Hin]; apply storageKeysOf_elem in Hin;
      destruct (bool_decide (k ∈ keys)) eqn:Hd;
      try (apply bool_decide_eq_true in Hd; exact Hd).
    - rewrite H1 in Hin. subst keys. apply elem_of_app. left.
      apply storageKeysOf_elem. exact Hin.
    - rewrite H2 in Hin. subst keys. apply elem_of_app. right.
      apply storageKeysOf_elem. exact Hin. }
  rewrite bool_decide_eq_true_2 in H1, H2 by exact Hkeys.
  destruct Hin as [Hin|Hin]; apply storageKeysOf_elem in Hin.
  - rewrite H1 in Hin. destruct Hin; discriminate.
  - rewrite H2 in Hin. destruct Hin; discriminate.
Qed.

Lemma sweepStorage_idem h : sweepStorage (sweepStorage h) = sweepStorage h.
Proof.
  unfold sweepStorage. destruct (storageAccessible (env h)) eqn:Hacc.
  - simpl. rewrite Hacc.
    rewrite sweep_unreserved.
    + reflexivity.
    + intros k Hk. eapply swept_keys_unreserved. exact Hk.
  - rewrite Hacc. reflexivity.
Qed.

Lemma sweep_unreserved_tiers (ss ls : gmap string string) :
  foldl sweepKey (ss, ls) (storageKeysOf ss ++ storageKeysOf ls)%list
  = (unreserved ss, unreserved ls).
Proof.
  set (keys := (storageKeysOf ss ++ storageKeysOf ls)%list).
  assert (Hl : forall k,
    (foldl sweepKey (ss, ls) keys).1 !! k = unreserved ss !! k
    /\ (foldl sweepKey (ss, ls) keys).2 !! k = unreserved ls !! k).
  { intros k. destruct (sweep_lookup keys (ss, ls) k) as [-> ->]. simpl.
    unfold unreserved. split.
    - destruct (ss !! k) as [v|] eqn:Hk.
      + rewrite (bool_decide_eq_true_2 (k ∈ keys)).
        2:{ apply elem_of_app. left. apply storageKeysOf_elem. eauto. }
        rewrite andb_true_r. destruct (reservedKey k) eqn:Hr.
        * symmetry. apply map_lookup_filter_None. right. intros x _. simpl. congruence.
        * symmetry. apply map_lookup_filter_Some. split; [exact Hk | exact Hr].
      + destruct (_ && _); symmetry; apply map_lookup_filter_None; left; exact Hk.
    - destruct (ls !! k) as [v|] eqn:Hk.
      + rewrite (bool_decide_eq_true_2 (k ∈ keys)).
        2:{ apply elem_of_app. right. apply storageKeysOf_elem. eauto. }
        rewrite andb_true_r. destruct (reservedKey k) eqn:Hr.
        * symmetry. apply map_lookup_filter_None. right. intros x _. simpl. congruence.
        * symmetry. apply map_lookup_filter_Some. split; [exact Hk | exact Hr].
      + destruct (_ && _); symmetry; apply map_lookup_filter_None; left; exact Hk. }
  destruct (foldl sweepKey (ss, ls) keys) as [a b]. simpl in Hl.
  f_equal; apply map_eq; intros k; apply Hl.
Qed.

Lemma unreserved_idem (m : gmap string string) : unreserved (unreserved m) = unreserved m.
Proof.
  apply map_eq. intros k. unfold unreserved.
  destruct (filter (fun kv : string * string => reservedKey kv.1 = false) m !! k)
    as [v|] eqn:Hk.
  - apply map_lookup_filter_Some. split; [exact Hk|].
    apply map_lookup_filter_Some in Hk. tauto.
  - apply map_lookup_filter_None. left. exact Hk.
Qed.

Lemma sweepStorage_spec h :
  sweepStorage h
  = if storageAccessible (env h)
    then set_storage (unreserved (sessionStorage (env h)))
           (unreserved (localStorage (env h))) h
    else h.
Proof.
  unfold sweepStorage. destruct (storageAccessible (env h)); [|reflexivity].
  rewrite sweep_unreserved_tiers. reflexivity.
Qed.

(** ** Clearing the authentication state *)

(** C8. [clearAuthenticationState()] is idempotent: called a second time
    right after a first call, it resolves again and leaves the heap exactly
    as the first call left it: handle cleared and its interval disarmed,
    lock flag false, cached token and expiry null, both storage tiers
    without their reserved keys (untouched when storage cannot be reached),
    initialized flag false. *)
Theorem clearAuthenticationState_idempotent (w w' : World) (n n' : nat) (h : Heap) :
  let first := run w n (clearAuthenticationState h) in
  let second := run w' n' (clearAuthenticationState (final first)) in
  final second = final first
  /\ outcome first = Some (Return tt)
  /\ outcome second = Some (Return tt)
  /\ requests first = [] /\ requests second = []
  /\ tokenRefreshInterval (svc (final first)) = None
  /\ timers (env (final first)) = timers (env h) ∖ ownTimer h
  /\ isLoginInProgress (svc (final first)) = false
  /\ cachedToken (svc (final first)) = None
  /\ tokenExpiryTime (svc (final first)) = None
  /\ isInitialized (svc (final first)) = false
  /\ sessionStorage (env (final first))
     = (if storageAccessible (env h) then unreserved (sessionStorage (env h))
        else sessionStorage (env h))
  /\ localStorage (env (final first))
     = (if storageAccessible (env h) then unreserved (localStorage (env h))
        else localStorage (env h)).
Proof.
  simpl. rewrite !sweepStorage_spec.
  destruct h as [[inst cfg ini tok expiry lock flow [id|]] e];
    unfold stopTokenRefreshTimer, ownTimer; simpl;
    destruct (storageAccessible e) eqn:Hacc; simpl;
    rewrite ?Hacc; simpl;
    unfold set_storage, set_isInitialized, clearCachedToken; simpl;
    rewrite ?unreserved_idem;
    repeat split; try reflexivity; symmetry; apply difference_empty_L.
Qed.

(** ** The status snapshot *)

Lemma getStatus_uninitialized h :
  isInitialized (svc h) = false -> getStatus h = inl notInitialized.
Proof.
  intros Hi. unfold getStatus, getAllAccounts, ensureInitialized.
  rewrite Hi. reflexivity.
Qed.

Lemma clearAuthenticationState_uninitializes w n h :
  isInitialized (svc (final (run w n (clearAuthenticationState h)))) = false.
Proof. reflexivity. Qed.

(** C9. The status snapshot cannot be read before initialization:
    [getStatus()] throws the not-initialized error on every service whose
    initialized flag is unset, in particular on a service never
    initialized and on one reset by [clearAuthenticationState()]. *)
Theorem getStatus_throws_before_initialization (h : Heap) (e : Env) (w : World) (n : nat) :
  (isInitialized (svc h) = false -> getStatus h = inl notInitialized)
  /\ getStatus {| svc := newService; env := e |} = inl notInitialized
  /\ getStatus (final (run w n (clearAuthenticationState h))) = inl notInitialized.
Proof.
  split; [apply getStatus_uninitialized|]. split.
  - apply getStatus_uninitialized. reflexivity.
  - apply getStatus_uninitialized, clearAuthenticationState_uninitializes.
Qed.

Lemma getStatus_throws_before_initialization_witness :
  getStatus freshHeap = inl notInitialized.
Proof.
  apply (proj1 (getStatus_throws_before_initialization freshHeap (env freshHeap)
                  (succeeding (demoResult "t" 0) 0 []) 0)).
  reflexivity.
Defined.

(** ** What the methods leave of the initialization *)

Lemma svc_stopTokenRefreshTimer h :
  msalInstance (svc (stopTokenRefreshTimer h)) = msalInstance (svc h)
  /\ config (svc (stopTokenRefreshTimer h)) = config (svc h)
  /\ isInitialized (svc (stopTokenRefreshTimer h)) = isInitialized (svc h)
  /\ cachedToken (svc (stopTokenRefreshTimer h)) = cachedToken (svc h)
  /\ tokenExpiryTime (svc (stopTokenRefreshTimer h)) = tokenExpiryTime (svc h)
  /\ isLoginInProgress (svc (stopTokenRefreshTimer h)) = isLoginInProgress (svc h)
  /\ flowType (svc (stopTokenRefreshTimer h)) = flowType (svc h)
  /\ tokenRefreshInterval (svc (stopTokenRefreshTimer h)) = None.
Proof.
  unfold stopTokenRefreshTimer.
  destruct (tokenRefreshInterval (svc h)) eqn:Ht; simpl; auto 10.
Qed.

Lemma svc_startTokenRefreshTimer h :
  msalInstance (svc (startTokenRefreshTimer h)) = msalInstance (svc h)
  /\ config (svc (startTokenRefreshTimer h)) = config (svc h)
  /\ isInitialized (svc (startTokenRefreshTimer h)) = isInitialized (svc h)
  /\ cachedToken (svc (startTokenRefreshTimer h)) = cachedToken (svc h)
  /\ tokenExpiryTime (svc (startTokenRefreshTimer h)) = tokenExpiryTime (svc h)
  /\ isLoginInProgress (svc (startTokenRefreshTimer h)) = isLoginInProgress (svc h)
  /\ flowType (svc (startTokenRefreshTimer h)) = flowType (svc h).
Proof.
  unfold startTokenRefreshTimer. simpl.
  destruct (svc_stopTokenRefreshTimer h) as (?&?&?&?&?&?&?&?). auto 10.
Qed.

(** ** Calls that come to an end *)

Lemma completes_andThen {A B} (m : Async A) (f : Outcome A -> Heap -> Async B) :
  completes m -> (forall o h, completes (f o h)) -> completes (andThen m f).
Proof.
  induction m as [o h | q h k IH | h]; simpl; intros Hm Hf.
  - apply Hf.
  - intros r h'. apply IH; [apply Hm | exact Hf].
  - contradiction.
Qed.

Lemma completes_run {A} (w : World) (t : Async A) :
  completes t -> forall n, exists o, outcome (run w n t) = Some o.
Proof.
  induction t as [o h | q h k IH | h]; simpl; intros Ht n.
  - eauto.
  - apply IH, Ht.
  - contradiction.
Qed.

(** Walks through a method body to see that it has no unfolding bound. *)
Ltac finish :=
  repeat first
    [ progress (unfold bind, try_catch, try_finally, await, resolve, reject,
                handleInteractionInProgress)
    | apply completes_andThen
    | progress simpl
    | progress intros
    | exact I
    | match goal with
      | |- completes (match ?x with _ => _ end) => destruct x eqn:?
      | |- completes (if ?x then _ else _) => destruct x eqn:?
      end ].

Lemma completes_acquireTokenSilent h : completes (acquireTokenSilent h).
Proof. unfold acquireTokenSilent. finish. Qed.

Lemma completes_loginInteractive h : completes (loginInteractive h).
Proof. unfold loginInteractive. finish. Qed.

Lemma completes_logout h : completes (logout h).
Proof. unfold logout. finish. Qed.

Lemma completes_refreshTick h : completes (refreshTick h).
Proof.
  unfold refreshTick, try_catch. apply completes_andThen.
  - destruct (isLoggedIn h) as [e|[|]]; simpl; try exact I.
    unfold bind. apply completes_andThen; [apply completes_acquireTokenSilent|].
    intros [a|e] h'; exact I.
  - intros [a|e] h'; exact I.
Qed.

Lemma completes_clearPendingInteractions h : completes (clearPendingInteractions h).
Proof.
  unfold clearPendingInteractions, try_catch. apply completes_andThen.
  - destruct (getAllAccounts _) as [e|accts]; simpl; [exact I|].
    destruct (0 <? length accts)%nat; simpl; [|exact I].
    apply completes_andThen.
    + unfold bind. apply completes_andThen; [apply completes_acquireTokenSilent|].
      intros [a|e] h'; exact I.
    + intros [a|e] h'; simpl; [exact I|]. destruct (_ && _); simpl; [|exact I].
      intros [v|e'] h''; exact I.
  - intros [a|e] h'; exact I.
Qed.

Lemma completes_initialize cfg h : completes (initialize cfg h).
Proof.
  unfold initialize. destruct (alreadyInitialized cfg h); [exact I|].
  unfold try_catch. apply completes_andThen.
  - simpl. destruct (constructorThrows (env h)); simpl; [exact I|].
    intros [v|e] h1; simpl; [|exact I].
    unfold bind. apply completes_andThen.
    + destruct (flowType (svc h1)); simpl; [exact I|].
      intros [[r|]|e] h2; exact I.
    + intros [a|e] h2; simpl; [|exact I]. apply completes_andThen.
      * apply completes_clearPendingInteractions.
      * intros [a'|e] h3; simpl; [|exact I].
        destruct (isLoggedIn _) as [e|[|]]; exact I.
  - intros [a|e] h'; exact I.
Qed.

(** Walks through a method body: one [await], branch or assignment at a
    time. *)
Ltac walk :=
  repeat first
    [ progress (unfold bind, try_catch, try_finally, await, resolve, reject,
                handleInteractionInProgress)
    | apply maintains_andThen
    | progress simpl
    | progress intros
    | match goal with
      | |- _ /\ _ => split
      | |- maintains _ (match ?x with _ => _ end) => destruct x eqn:?
      | |- maintains _ (if ?x then _ else _) => destruct x eqn:?
      end ].

(** Properties of the heap that only look at [this.isInitialized] and
    [this.config]. *)
Section InitFrame.
Variable P : Heap -> Prop.
Hypothesis P_frame : forall h h',
  isInitialized (svc h') = isInitialized (svc h) ->
  config (svc h') = config (svc h) -> P h -> P h'.

Lemma frame_stop h : P h -> P (stopTokenRefreshTimer h).
Proof.
  apply P_frame; destruct (svc_stopTokenRefreshTimer h) as (_&?&?&_); assumption.
Qed.

Lemma frame_start h : P h -> P (startTokenRefreshTimer h).
Proof.
  apply P_frame; destruct (svc_startTokenRefreshTimer h) as (_&?&?&_); assumption.
Qed.

Lemma frame_world : worldProof P.
Proof. intros c a h. apply P_frame; reflexivity. Qed.

(** Closes the leaves of a walk: the heap reached differs from one known
    to satisfy [P] by assignments to other fields. *)
Ltac leaf :=
  try assumption;
  repeat first [ apply frame_stop | apply frame_start ];
  try assumption;
  match goal with
  | H : P ?h |- P _ => refine (P_frame h _ _ _ H); reflexivity
  end.

Lemma maintains_acquireTokenSilent h : P h -> maintains P (acquireTokenSilent h).
Proof. intros H. unfold acquireTokenSilent. walk; leaf. Qed.

Lemma maintains_loginInteractive h : P h -> maintains P (loginInteractive h).
Proof. intros H. unfold loginInteractive. walk; leaf. Qed.

Lemma maintains_getAccessToken fuel : forall h,
  P h -> maintains P (getAccessToken fuel h).
Proof.
  induction fuel as [|fuel IH]; intros h H; simpl; [exact H|].
  unfold try_catch at 1. apply maintains_andThen.
  - unfold bind. apply maintains_andThen.
    + apply maintains_acquireTokenSilent, H.
    + intros [a|e] h' H'; simpl; exact H'.
  - intros [a|e] h' H'; [exact H'|].
    destruct (instanceofError e); [|exact H'].
    destruct (_ || _).
    + unfold bind. apply maintains_andThen.
      * apply maintains_loginInteractive, H'.
      * intros [a|e'] h'' H''; simpl; exact H''.
    + destruct (eqs _ _); [apply IH, H' | exact H'].
Qed.

Lemma maintains_forceRefreshToken fuel h :
  P h -> maintains P (forceRefreshToken fuel h).
Proof.
  intros H. apply maintains_getAccessToken.
  refine (P_frame h _ _ _ H); reflexivity.
Qed.

Lemma maintains_logout h : P h -> maintains P (logout h).
Proof.
  intros H. pose proof (frame_stop _ H) as H1. revert H1. unfold logout.
  generalize (stopTokenRefreshTimer h) as h1. intros h1 H1.
  walk; leaf.
Qed.

Lemma maintains_refreshTick h : P h -> maintains P (refreshTick h).
Proof.
  intros H. unfold refreshTick, try_catch. apply maintains_andThen.
  - destruct (isLoggedIn h) as [e|[|]]; simpl; try leaf.
    unfold bind. apply maintains_andThen.
    + apply maintains_acquireTokenSilent, H.
    + intros [a|e] h' H'; simpl; exact H'.
  - intros [a|e] h' H'; simpl; exact H'.
Qed.

Lemma maintains_clearPendingInteractions h :
  P h -> maintains P (clearPendingInteractions h).
Proof.
  intros H. unfold clearPendingInteractions, try_catch. apply maintains_andThen.
  - destruct (getAllAccounts _) as [e|accts]; simpl; [leaf|].
    destruct (0 <? length accts)%nat; simpl; [|leaf].
    apply maintains_andThen.
    + unfold bind. apply maintains_andThen.
      * apply maintains_acquireTokenSilent. leaf.
      * intros [a|e] h' H'; simpl; exact H'.
    + intros [a|e] h' H'; simpl; [exact H'|].
      destruct (_ && _); simpl; [|exact H'].
      split; [exact H'|]. intros [v|e'] h'' H''; exact H''.
  - intros [a|e] h' H'; simpl; exact H'.
Qed.

End InitFrame.

Lemma stillInitialized_frame cfg h h' :
  isInitialized (svc h') = isInitialized (svc h) ->
  config (svc h') = config (svc h) ->
  stillInitialized cfg h -> stillInitialized cfg h'.
Proof. unfold stillInitialized. intros -> ->. tauto. Qed.

Lemma configIs_frame cfg h h' :
  isInitialized (svc h') = isInitialized (svc h) ->
  config (svc h') = config (svc h) ->
  configIs cfg h -> configIs cfg h'.
Proof. unfold configIs. intros _ ->. tauto. Qed.

(** ** Postconditions *)

Lemma post_andThen {A B} (Q1 : Outcome A -> Heap -> Prop) (Q : Outcome B -> Heap -> Prop)
    (m : Async A) (f : Outcome A -> Heap -> Async B) :
  post Q1 m -> (forall o h, Q1 o h -> post Q (f o h)) -> post Q (andThen m f).
Proof.
  induction m as [o h | q h k IH | h]; simpl; intros Hm Hf.
  - apply Hf, Hm.
  - intros r c a. apply IH; [apply Hm | exact Hf].
  - exact I.
Qed.

Lemma post_weaken {A} (Q Q' : Outcome A -> Heap -> Prop) (t : Async A) :
  (forall o h, Q o h -> Q' o h) -> post Q t -> post Q' t.
Proof.
  intros HQ. induction t as [o h | q h k IH | h]; simpl; intros Ht.
  - apply HQ, Ht.
  - intros r c a. apply IH, Ht.
  - exact I.
Qed.

Lemma post_run {A} (Q : Outcome A -> Heap -> Prop) (t : Async A) :
  post Q t -> forall w n, ended_with Q (run w n t).
Proof.
  unfold ended_with.
  induction t as [o h | q h k IH | h]; simpl; intros Ht w n.
  - exact Ht.
  - apply IH, Ht.
  - exact I.
Qed.

Lemma maintains_post {A} (P : Heap -> Prop) (t : Async A) :
  worldProof P -> maintains P t -> post (fun _ h => P h) t.
Proof.
  intros HP. induction t as [o h | q h k IH | h]; simpl; intros Ht.
  - exact Ht.
  - destruct Ht as [Hh Hk]. intros r c a. apply IH, Hk, HP, Hh.
  - exact I.
Qed.

Lemma post_trivial {A} (t : Async A) : post (fun _ _ => True) t.
Proof. induction t as [o h | q h k IH | h]; simpl; auto. Qed.

(** Whatever happens after the guard, [initialize(cfg)] has stored [cfg]
    and set the flag when it ends. *)
Lemma initialize_marks cfg h :
  alreadyInitialized cfg h = false ->
  post (fun _ h' => stillInitialized cfg h') (initialize cfg h).
Proof.
  intros Ha. unfold initialize. rewrite Ha. unfold try_catch.
  apply post_andThen with
    (Q1 := fun o h' => configIs cfg h'
                       /\ (forall a, o = Return a -> isInitialized (svc h') = true)).
  2:{ intros [a|e] h' [Hc Hi]; simpl; split; eauto. }
  simpl. destruct (constructorThrows (env h)); simpl.
  { split; [reflexivity|discriminate]. }
  intros [v|e] c a; simpl; [|split; [reflexivity|discriminate]].
  unfold bind.
  apply post_andThen with (Q1 := fun _ h' => configIs cfg h').
  { destruct (default popup (MsalAuthConfig.flowType cfg)); simpl; [reflexivity|].
    intros [[r|]|e] c' a'; simpl; reflexivity. }
  intros [u|e] h1 H1; simpl; [|split; [exact H1|discriminate]].
  apply post_andThen with (Q1 := fun _ h' => configIs cfg h').
  { apply maintains_post.
    - apply frame_world, configIs_frame.
    - apply maintains_clearPendingInteractions; [apply configIs_frame|exact H1]. }
  intros [u'|e] h2 H2; simpl; [|split; [exact H2|discriminate]].
  destruct (isLoggedIn _) as [e|[|]]; simpl.
  - split; [exact H2|discriminate].
  - split.
    + apply (frame_start _ (configIs_frame cfg)). exact H2.
    + intros _ _. destruct (svc_startTokenRefreshTimer (set_isInitialized true h2))
        as (_&_&Hi&_). exact (eq_trans Hi eq_refl).
  - split; [exact H2|reflexivity].
Qed.

(** ** Initialization *)

(** A failed [initialize(cfg)] has stored [cfg] and set the flag. *)
Lemma initialize_failed w n cfg h e :
  outcome (run w n (initialize cfg h)) = Some (Throw e) ->
  alreadyInitialized cfg h = false
  /\ stillInitialized cfg (final (run w n (initialize cfg h))).
Proof.
  unfold initialize. destruct (alreadyInitialized cfg h) eqn:Ha.
  { simpl. discriminate. }
  intros Ho. split; [reflexivity|].
  unfold try_catch in *. rewrite run_andThen in *. unfold continued in *.
  match type of Ho with context [outcome (run w n ?b)] => set (body := b) in * end.
  assert (Hc : configIs cfg (final (run w n body))).
  { apply maintains_run. { apply frame_world, configIs_frame. }
    subst body. simpl.
    destruct (constructorThrows (env h)); simpl; [reflexivity|].
    split; [reflexivity|]. intros r h1 H1.
    destruct r as [v|e1]; simpl; [|exact H1].
    unfold bind. apply maintains_andThen.
    - destruct (flowType (svc h1)); simpl; [exact H1|].
      split; [exact H1|]. intros [[r|]|e2] h2 H2; simpl; exact H2.
    - intros [a|e2] h2 H2; simpl; [|exact H2].
      apply maintains_andThen.
      + apply maintains_clearPendingInteractions; [apply configIs_frame|exact H2].
      + intros [a'|e3] h3 H3; simpl; [|exact H3].
        destruct (isLoggedIn _) as [e4|[|]]; simpl; try exact H3.
        apply (frame_start _ (configIs_frame cfg)). exact H3. }
  destruct (outcome (run w n body)) as [[a|e']|]; simpl in *; try discriminate.
  split; [reflexivity|exact Hc].
Qed.

(** Past its guard, [initialize(cfg)] stores [cfg] and constructs the
    provider before anything else. *)
Lemma initialize_constructs cfg h :
  alreadyInitialized cfg h = false ->
  constructed (env (leaves (initialize cfg h)))
  = (constructed (env h) ++ [msalConfig cfg])%list
  /\ config (svc (leaves (initialize cfg h))) = Some cfg.
Proof.
  intros Ha. unfold initialize. rewrite Ha. simpl.
  destruct (constructorThrows (env h)); split; reflexivity.
Qed.

(** A configuration of another [clientId] does not pass the guard. *)
Lemma alreadyInitialized_other cfg cfg' h :
  config (svc h) = Some cfg ->
  MsalAuthConfig.clientId cfg' <> MsalAuthConfig.clientId cfg ->
  alreadyInitialized cfg' h = false.
Proof.
  intros Hc Hne. unfold alreadyInitialized, eqs. rewrite Hc.
  rewrite bool_decide_eq_false_2 by congruence. apply andb_false_r.
Qed.

(** Any run of [initialize(cfg)] that passes the guard ends with [cfg]
    stored and the flag set. *)
Lemma initialize_stores w n cfg h :
  alreadyInitialized cfg h = false ->
  stillInitialized cfg (final (run w n (initialize cfg h))).
Proof.
  intros Ha.
  destruct (completes_run w _ (completes_initialize cfg h) n) as [o Ho].
  pose proof (post_run _ _ (initialize_marks cfg h Ha) w n) as Hp.
  unfold ended_with in Hp. rewrite Ho in Hp. exact Hp.
Qed.

(** C10. A failed [initialize(config)] leaves the service marked as
    initialized with that configuration, so a later [initialize] with a
    configuration of the same [clientId] returns at once: it constructs
    no provider, awaits nothing and leaves the heap as it is, whatever
    the browser has become.  The other methods keep the flag and the
    configuration; [clearAuthenticationState()] resets the flag, after
    which [initialize] constructs a provider again.  So does an
    [initialize] with a configuration of another [clientId]: it is not
    guarded, stores its configuration and constructs the provider, and
    once it has ended an [initialize] with the first [clientId]
    constructs again. *)
Theorem failed_initialize_is_not_retried (w : World) (n : nat)
    (cfg cfg' : MsalAuthConfig.t) (h : Heap) (e : Thrown) :
  outcome (run w n (initialize cfg h)) = Some (Throw e) ->
  MsalAuthConfig.clientId cfg' = MsalAuthConfig.clientId cfg ->
  let failed := final (run w n (initialize cfg h)) in
  let cleared := final (run w n (clearAuthenticationState failed)) in
  stillInitialized cfg failed
  /\ (forall h', svc h' = svc failed -> initialize cfg' h' = resolve tt h')
  /\ (forall fuel h', stillInitialized cfg h' ->
        maintains (stillInitialized cfg) (acquireTokenSilent h')
        /\ maintains (stillInitialized cfg) (loginInteractive h')
        /\ maintains (stillInitialized cfg) (getAccessToken fuel h')
        /\ maintains (stillInitialized cfg) (forceRefreshToken fuel h')
        /\ maintains (stillInitialized cfg) (logout h')
        /\ maintains (stillInitialized cfg) (refreshTick h'))
  /\ isInitialized (svc cleared) = false
  /\ constructed (env (leaves (initialize cfg' cleared)))
     = (constructed (env cleared) ++ [msalConfig cfg'])%list
  /\ (forall (other : MsalAuthConfig.t) (w' : World) (n' : nat) (h' : Heap),
        stillInitialized cfg h' ->
        MsalAuthConfig.clientId other <> MsalAuthConfig.clientId cfg ->
        let reconfigured := final (run w' n' (initialize other h')) in
        constructed (env (leaves (initialize other h')))
        = (constructed (env h') ++ [msalConfig other])%list
        /\ stillInitialized other reconfigured
        /\ constructed (env (leaves (initialize cfg' reconfigured)))
           = (constructed (env reconfigured) ++ [msalConfig cfg'])%list).
Proof.
  intros Ho Hid. destruct (initialize_failed _ _ _ _ _ Ho) as [_ Hs].
  simpl. split; [exact Hs|]. split.
  { intros h' Hh'. unfold initialize, alreadyInitialized. rewrite Hh'.
    destruct Hs as [-> ->]. simpl. unfold eqs.
    rewrite bool_decide_eq_true_2 by (symmetry; exact Hid). reflexivity. }
  split.
  { intros fuel h' Hh'. pose proof (stillInitialized_frame cfg) as Hf.
    repeat split.
    - apply maintains_acquireTokenSilent; assumption.
    - apply maintains_loginInteractive; assumption.
    - apply maintains_getAccessToken; assumption.
    - apply maintains_forceRefreshToken; assumption.
    - apply maintains_logout; assumption.
    - apply maintains_refreshTick; assumption. }
  split; [reflexivity|]. split.
  { unfold initialize, alreadyInitialized. simpl.
    match goal with |- context [constructorThrows ?x] => destruct (constructorThrows x) end;
      reflexivity. }
  intros other w' n' h' [_ Hc'] Hne.
  assert (Ha : alreadyInitialized other h' = false)
    by (apply (alreadyInitialized_other cfg); assumption).
  pose proof (initialize_stores w' n' other h' Ha) as Hst.
  split; [apply (initialize_constructs other h' Ha)|]. split; [exact Hst|].
  apply initialize_constructs, (alreadyInitialized_other other).
  - apply Hst.
  - congruence.
Qed.

Lemma failed_initialize_is_not_retried_witness :
  initialize demoConfig
    (final (run (succeeding (demoResult "t" 0) 0 []) 0
              (initialize demoConfig brokenConstructorHeap)))
  = resolve tt
      (final (run (succeeding (demoResult "t" 0) 0 []) 0
                (initialize demoConfig brokenConstructorHeap))).
Proof.
  refine (proj1 (proj2 (failed_initialize_is_not_retried
                  (succeeding (demoResult "t" 0) 0 []) 0 demoConfig demoConfig
                  brokenConstructorHeap
                  (ErrorObject OtherAuthError "invalid_config" "bad client id")
                  _ _)) _ _); reflexivity.
Defined.

(** C10 as stated fails: [clearAuthenticationState()] is not the only way
    back to a provider construction.  After a failed [initialize] with
    [clientId] "client-1", an [initialize] with "client-2" constructs
    again and replaces the stored configuration, and the next
    [initialize] with "client-1" is then not a no-op: it constructs a
    third time, the flag never having been reset. *)
Lemma initialize_with_other_clientId_retries :
  let w := succeeding (demoResult "t" 0) 0 [] in
  let failed := run w 0 (initialize demoConfig brokenConstructorHeap) in
  let other := run w 0 (initialize otherConfig (final failed)) in
  let again := run w 0 (initialize demoConfig (final other)) in
  outcome failed
  = Some (Throw (ErrorObject OtherAuthError "invalid_config" "bad client id"))
  /\ isInitialized (svc (final failed)) = true
  /\ isInitialized (svc (final other)) = true
  /\ requests other = [] /\ requests again = []
  /\ outcome again
     = Some (Throw (ErrorObject OtherAuthError "invalid_config" "bad client id"))
  /\ constructed (env (final again))
     = [msalConfig demoConfig; msalConfig otherConfig; msalConfig demoConfig].
Proof. repeat split; reflexivity. Qed.

(** ** The cache's effective window *)

Lemma ensureInitialized_inr h inst cfg :
  ensureInitialized h = inr (inst, cfg) ->
  isInitialized (svc h) = true /\ msalInstance (svc h) = Some inst
  /\ config (svc h) = Some cfg.
Proof.
  unfold ensureInitialized.
  destruct (isInitialized (svc h)), (msalInstance (svc h)), (config (svc h));
    intros H; inversion H; auto.
Qed.

Lemma ensureInitialized_frame h h' :
  isInitialized (svc h') = isInitialized (svc h) ->
  msalInstance (svc h') = msalInstance (svc h) ->
  config (svc h') = config (svc h) ->
  ensureInitialized h' = ensureInitialized h.
Proof. unfold ensureInitialized. intros -> -> ->. reflexivity. Qed.

(** A silent acquisition that reaches the provider and succeeds caches
    the result with [setCachedToken]. *)
Lemma acquireTokenSilent_caches w n h inst cfg account rest result :
  ensureInitialized h = inr (inst, cfg) ->
  cacheHit h = None ->
  accounts (env h) = account :: rest ->
  let s := w n (AcquireTokenSilent (MsalAuthConfig.scopes cfg) account false) in
  reply s = Fulfilled result ->
  let r := run w n (acquireTokenSilent h) in
  final r = setCachedToken result (settle_env (clock s) (accountsThen s) h)
  /\ requests r = [AcquireTokenSilent (MsalAuthConfig.scopes cfg) account false]
  /\ outcome r
     = Some (Return {| TokenResult.accessToken := AuthenticationResult.accessToken result;
                       TokenResult.expiresOn := AuthenticationResult.expiresOn result;
                       TokenResult.account := AuthenticationResult.account result |}).
Proof.
  intros Hi Hc Ha s Hr. unfold acquireTokenSilent, getCurrentAccount, getAllAccounts.
  rewrite Hi, Hc, Ha. simpl. fold s. rewrite Hr. simpl. auto.
Qed.

(** C1, as the code has it.  A token cached from a result with reported
    expiry [E] is stored with the expiry [E - 300000] ms: the lead is the
    constant 5 minutes of [setCachedToken], whatever renewal lead the
    configuration names.  For a non-empty token (and [E], [E - 300000]
    not 0, which JavaScript takes for false), a later [acquireTokenSilent()]
    at time [t] returns the cached token without awaiting the provider when
    [t < E - 300000]; when [t >= E - 300000] it fails with
    [NO_ACCOUNTS_FOUND] if the provider lists no account and otherwise
    awaits the provider's silent acquisition. *)
Theorem cache_window_is_five_minutes (h : Heap) (inst : Configuration.t)
    (cfg : MsalAuthConfig.t) (result : AuthenticationResult.t) (E t : Z)
    (accts : list AccountInfo) :
  ensureInitialized h = inr (inst, cfg) ->
  AuthenticationResult.expiresOn result = Some E ->
  E <> 0%Z -> (E - 300000)%Z <> 0%Z ->
  AuthenticationResult.accessToken result <> "" ->
  let later := settle_env t accts (setCachedToken result h) in
  tokenExpiryTime (svc (setCachedToken result h)) = Some (E - 300000)%Z
  /\ cachedToken (svc (setCachedToken result h))
     = Some (AuthenticationResult.accessToken result)
  /\ ((t < E - 300000)%Z ->
      acquireTokenSilent later
      = resolve (cachedResult (AuthenticationResult.accessToken result)
                   (E - 300000) (head accts)) later)
  /\ ((E - 300000 <= t)%Z ->
      match accts with
      | [] => acquireTokenSilent later = reject (Error "NO_ACCOUNTS_FOUND") later
      | account :: _ =>
          exists k, acquireTokenSilent later
                    = Await (AcquireTokenSilent (MsalAuthConfig.scopes cfg) account false)
                        later k
      end).
Proof.
  intros Hi HE HE0 HEl Htok later.
  assert (Hexp : tokenExpiryTime (svc (setCachedToken result h)) = Some (E - 300000)%Z).
  { unfold setCachedToken. rewrite HE. simpl.
    destruct (E =? 0)%Z eqn:Hz; [apply Z.eqb_eq in Hz; contradiction|].
    reflexivity. }
  assert (Hini : ensureInitialized later = inr (inst, cfg)).
  { rewrite <- Hi. apply ensureInitialized_frame; reflexivity. }
  assert (Hhit : cacheHit later
                 = if (t <? E - 300000)%Z
                   then Some (AuthenticationResult.accessToken result, (E - 300000)%Z)
                   else None).
  { assert (H1 : tokenExpiryTime (svc later) = Some (E - 300000)%Z) by exact Hexp.
    assert (H2 : cachedToken (svc later)
                 = Some (AuthenticationResult.accessToken result)) by reflexivity.
    assert (H3 : now (env later) = t) by reflexivity.
    unfold cacheHit. rewrite H1, H2, H3.
    unfold eqs. rewrite bool_decide_eq_false_2 by exact Htok.
    destruct (E - 300000 =? 0)%Z eqn:Hz; [apply Z.eqb_eq in Hz; contradiction|].
    reflexivity. }
  assert (Hacc : getCurrentAccount later = inr (head accts)).
  { unfold getCurrentAccount, getAllAccounts. rewrite Hini. subst later. simpl.
    destruct accts; reflexivity. }
  split; [exact Hexp|]. split; [reflexivity|]. split.
  - intros Hlt. unfold acquireTokenSilent. rewrite Hini, Hhit, Hacc.
    apply Z.ltb_lt in Hlt. rewrite Hlt. reflexivity.
  - intros Hge. unfold acquireTokenSilent. rewrite Hini, Hhit, Hacc.
    apply Z.ltb_ge in Hge. rewrite Hge.
    destruct accts as [|account rest]; simpl; [reflexivity|].
    eexists. unfold try_catch, bind, await. simpl. reflexivity.
Qed.

Lemma cache_window_is_five_minutes_witness :
  acquireTokenSilent
    (settle_env 3299999 [alice] (setCachedToken (demoResult "tok" 3600000) lead600Heap))
  = resolve (cachedResult "tok" 3300000 (Some alice))
      (settle_env 3299999 [alice] (setCachedToken (demoResult "tok" 3600000) lead600Heap)).
Proof.
  refine (proj1 (proj2 (proj2 (cache_window_is_five_minutes lead600Heap
            (msalConfig (configWithLead 600)) (configWithLead 600)
            (demoResult "tok" 3600000) 3600000 3299999 [alice] _ _ _ _ _))) _);
    try reflexivity; try discriminate.
Defined.

(** C1 as stated fails: with a lead of 600 s configured, a token reported
    to expire at [E = 3600000] is stored with expiry [3300000], not
    [E - 600000 = 3000000], and at [now = 3100000 >= E - L] the cached
    token is still returned without a provider call. *)
Lemma cache_window_ignores_configured_lead :
  let w := succeeding (demoResult "tok" 3600000) 2000 [alice] in
  let cached := final (run w 0 (acquireTokenSilent lead600Heap)) in
  let later := settle_env 3100000 [alice] cached in
  (config (svc cached) ≫= MsalAuthConfig.tokenRenewalOffsetSeconds) = Some 600%Z
  /\ outcome (run w 0 (acquireTokenSilent lead600Heap))
     = Some (Return {| TokenResult.accessToken := "tok";
                       TokenResult.expiresOn := Some 3600000%Z;
                       TokenResult.account := Some alice |})
  /\ tokenExpiryTime (svc cached) = Some 3300000%Z
  /\ tokenExpiryTime (svc cached) <> Some (3600000 - 600 * 1000)%Z
  /\ (3100000 >= 3600000 - 600 * 1000)%Z
  /\ acquireTokenSilent later = resolve (cachedResult "tok" 3300000 (Some alice)) later.
Proof.
  repeat split; try reflexivity; try discriminate.
Qed.

(** ** The renewal timer *)

Lemma timerIs_world id T : worldProof (timerIs id T).
Proof. intros c a h H. exact H. Qed.

Lemma maintains_timer_acquireTokenSilent id T h :
  timerIs id T h -> maintains (timerIs id T) (acquireTokenSilent h).
Proof. intros H. unfold acquireTokenSilent. walk; assumption. Qed.

(** The callback never throws; it leaves the timer as it found it, unless
    it saw an initialized service without account and stopped it. *)
Lemma refreshTick_timer w n h :
  let r := run w n (refreshTick h) in
  outcome r = Some (Return tt)
  /\ match isLoggedIn h with
     | inr false => final r = stopTokenRefreshTimer h
     | _ => timerIs (tokenRefreshInterval (svc h)) (timers (env h)) (final r)
     end.
Proof.
  unfold refreshTick, try_catch. rewrite run_andThen. unfold continued.
  destruct (isLoggedIn h) as [e|[|]] eqn:Hl; simpl.
  - split; [reflexivity|split; reflexivity].
  - unfold bind. rewrite run_andThen. unfold continued.
    pose proof (maintains_run _ w _ (timerIs_world _ _)
                  (maintains_timer_acquireTokenSilent _ _ h (conj eq_refl eq_refl)) n) as Hf.
    destruct (completes_run w _ (completes_acquireTokenSilent h) n) as [o Ho].
    rewrite Ho. destruct o as [a|e]; simpl; split; auto.
  - split; reflexivity.
Qed.

Lemma fire_timer id w n h :
  let r := run w n (fire id h) in
  outcome r = Some (Return tt)
  /\ (if seesNoAccount id h then final r = stopTokenRefreshTimer h
      else timerIs (tokenRefreshInterval (svc h)) (timers (env h)) (final r)).
Proof.
  unfold fire, seesNoAccount.
  destruct (bool_decide (id ∈ timers (env h))); simpl.
  - destruct (refreshTick_timer w n h) as [Ho Hf]. split; [exact Ho|].
    destruct (isLoggedIn h) as [e|[|]]; exact Hf.
  - split; [reflexivity|split; reflexivity].
Qed.

Lemma isLoggedIn_some_account c accts h :
  accts <> [] -> isLoggedIn (settle_env c accts h) <> inr false.
Proof.
  intros Ha. unfold isLoggedIn, getAllAccounts.
  destruct (ensureInitialized _); [discriminate|]. simpl.
  destruct accts; [contradiction|]. discriminate.
Qed.

(** C7. A firing of the renewal timer never throws and never disarms the
    timer because the silent acquisition failed: it leaves the handle and
    the armed intervals as they were, unless it found the service
    initialized with no account listed, in which case it stops the timer
    itself.  Hence over any sequence of firings at each of which the
    provider lists an account, the timer stays armed whatever the
    provider answers. *)
Theorem renewal_timer_survives_failures (id : TimerId) (w : World) (n : nat)
    (h : Heap) (fs : list Firing) :
  let r := run w n (fire id h) in
  outcome r = Some (Return tt)
  /\ (if seesNoAccount id h
      then final r = stopTokenRefreshTimer h
           /\ timerIs None (timers (env h) ∖ ownTimer h) (final r)
      else timerIs (tokenRefreshInterval (svc h)) (timers (env h)) (final r))
  /\ (Forall (fun f => accountsAtFiring f <> []) fs ->
      timerIs (tokenRefreshInterval (svc h)) (timers (env h)) (fireAll id fs h)).
Proof.
  destruct (fire_timer id w n h) as [Ho Hf]. split; [exact Ho|]. split.
  - destruct (seesNoAccount id h); [|exact Hf]. split; [exact Hf|].
    simpl in Hf. rewrite Hf. unfold stopTokenRefreshTimer, ownTimer, timerIs.
    destruct (tokenRefreshInterval (svc h)) eqn:Ht; simpl; split;
      try reflexivity; try assumption.
    symmetry. apply difference_empty_L.
  - clear. revert h. induction fs as [|f fs IH]; intros h Hall; simpl.
    + split; reflexivity.
    + inversion Hall as [|f' fs' Hf Hfs]; subst.
      set (h0 := settle_env (firedAt f) (accountsAtFiring f) h).
      destruct (fire_timer id (provider f) 0 h0) as [_ Hk].
      assert (Hs : seesNoAccount id h0 = false).
      { unfold seesNoAccount.
        pose proof (isLoggedIn_some_account (firedAt f) _ h Hf) as Hne. fold h0 in Hne.
        destruct (isLoggedIn h0) as [e|[|]]; try apply andb_false_r.
        contradiction. }
      rewrite Hs in Hk. destruct Hk as [Hk1 Hk2].
      specialize (IH (final (run (provider f) 0 (fire id h0))) Hfs).
      rewrite Hk1, Hk2 in IH. exact IH.
Qed.

Lemma renewal_timer_survives_failures_witness :
  timerIs (Some 1%positive) {[ 1%positive ]}
    (fireAll 1%positive [failedFiring 1800000; failedFiring 3600000] (armedHeap 0 5)).
Proof.
  refine (proj2 (proj2 (renewal_timer_survives_failures 1%positive
            (succeeding (demoResult "t" 0) 0 []) 0 (armedHeap 0 5)
            [failedFiring 1800000; failedFiring 3600000])) _).
  repeat constructor; discriminate.
Defined.

(** ** Logging out *)

Lemma env_stopTokenRefreshTimer h :
  now (env (stopTokenRefreshTimer h)) = now (env h)
  /\ accounts (env (stopTokenRefreshTimer h)) = accounts (env h)
  /\ timers (env (stopTokenRefreshTimer h)) = timers (env h) ∖ ownTimer h.
Proof.
  unfold stopTokenRefreshTimer, ownTimer.
  destruct (tokenRefreshInterval (svc h)); simpl; repeat split.
  symmetry. apply difference_empty_L.
Qed.

Lemma cacheHit_stopTokenRefreshTimer h :
  cacheHit (stopTokenRefreshTimer h) = cacheHit h.
Proof.
  unfold cacheHit.
  destruct (svc_stopTokenRefreshTimer h) as (_&_&_&->&->&_).
  destruct (env_stopTokenRefreshTimer h) as (->&_). reflexivity.
Qed.

Lemma getCurrentAccount_initialized h inst cfg :
  ensureInitialized h = inr (inst, cfg) ->
  getCurrentAccount h = inr (head (accounts (env h))).
Proof.
  intros Hi. unfold getCurrentAccount, getAllAccounts. rewrite Hi.
  destruct (accounts (env h)); reflexivity.
Qed.

Lemma fire_disarmed id h : timers (env h) = ∅ -> fire id h = resolve tt h.
Proof.
  intros Ht. unfold fire. rewrite Ht.
  rewrite bool_decide_eq_false_2 by set_solver. reflexivity.
Qed.

(** *** The service owns the only armed interval *)

Lemma timerOwned_frame h h' :
  tokenRefreshInterval (svc h') = tokenRefreshInterval (svc h) ->
  timers (env h') = timers (env h) ->
  timerOwned h -> timerOwned h'.
Proof. unfold timerOwned, ownTimer. intros -> ->. tauto. Qed.

Lemma timerOwned_stop h : timerOwned h -> timerOwned (stopTokenRefreshTimer h).
Proof.
  unfold timerOwned. intros Ho.
  destruct (env_stopTokenRefreshTimer h) as (_&_&->).
  destruct (svc_stopTokenRefreshTimer h) as (_&_&_&_&_&_&_&Hnone).
  unfold ownTimer at 2. rewrite Hnone, Ho. apply difference_diag_L.
Qed.

Lemma timerOwned_start h : timerOwned h -> timerOwned (startTokenRefreshTimer h).
Proof.
  intros Ho. apply timerOwned_stop in Ho. revert Ho.
  unfold startTokenRefreshTimer, timerOwned, ownTimer. simpl.
  destruct (svc_stopTokenRefreshTimer h) as (_&_&_&_&_&_&_&->).
  intros ->. apply (right_id_L ∅ (∪)).
Qed.

Lemma timerOwned_world : worldProof timerOwned.
Proof. intros c a h H. exact H. Qed.

(** Closes the leaves of a walk for [timerOwned]. *)
Ltac owned :=
  try assumption;
  repeat first [ apply timerOwned_stop | apply timerOwned_start ];
  try assumption;
  match goal with
  | H : timerOwned ?h |- timerOwned _ =>
      refine (timerOwned_frame h _ _ _ H); reflexivity
  end.

Lemma timerOwned_acquireTokenSilent h :
  timerOwned h -> maintains timerOwned (acquireTokenSilent h).
Proof. intros H. unfold acquireTokenSilent. walk; owned. Qed.

Lemma timerOwned_loginInteractive h :
  timerOwned h -> maintains timerOwned (loginInteractive h).
Proof. intros H. unfold loginInteractive. walk; owned. Qed.

Lemma timerOwned_logout h : timerOwned h -> maintains timerOwned (logout h).
Proof.
  intros H. pose proof (timerOwned_stop _ H) as H1. revert H1. unfold logout.
  generalize (stopTokenRefreshTimer h) as h1. intros h1 H1.
  walk; owned.
Qed.

Lemma timerOwned_refreshTick h : timerOwned h -> maintains timerOwned (refreshTick h).
Proof.
  intros H. unfold refreshTick, try_catch. apply maintains_andThen.
  - destruct (isLoggedIn h) as [e|[|]]; simpl; try owned.
    unfold bind. apply maintains_andThen.
    + apply timerOwned_acquireTokenSilent, H.
    + intros [a|e] h' H'; simpl; exact H'.
  - intros [a|e] h' H'; simpl; exact H'.
Qed.

Lemma timerOwned_getAccessToken fuel : forall h,
  timerOwned h -> maintains timerOwned (getAccessToken fuel h).
Proof.
  induction fuel as [|fuel IH]; intros h H; simpl; [exact H|].
  unfold try_catch at 1. apply maintains_andThen.
  - unfold bind. apply maintains_andThen.
    + apply timerOwned_acquireTokenSilent, H.
    + intros [a|e] h' H'; simpl; exact H'.
  - intros [a|e] h' H'; [exact H'|].
    destruct (instanceofError e); [|exact H'].
    destruct (_ || _).
    + unfold bind. apply maintains_andThen.
      * apply timerOwned_loginInteractive, H'.
      * intros [a|e'] h'' H''; simpl; exact H''.
    + destruct (eqs _ _); [apply IH, H' | exact H'].
Qed.

Lemma timerOwned_clearAuthenticationState w n h :
  timerOwned h -> timerOwned (final (run w n (clearAuthenticationState h))).
Proof.
  intros H. simpl. apply timerOwned_stop in H. revert H.
  generalize (stopTokenRefreshTimer h) as h1. intros h1 H1.
  rewrite sweepStorage_spec. simpl.
  destruct (storageAccessible (env h1)); owned.
Qed.

Lemma timerOwned_clearPendingInteractions h :
  timerOwned h -> maintains timerOwned (clearPendingInteractions h).
Proof.
  intros H. unfold clearPendingInteractions, try_catch. apply maintains_andThen.
  - destruct (getAllAccounts _) as [e|accts]; simpl; [owned|].
    destruct (0 <? length accts)%nat; simpl; [|owned].
    apply maintains_andThen.
    + unfold bind. apply maintains_andThen.
      * apply timerOwned_acquireTokenSilent. owned.
      * intros [a|e] h' H'; simpl; exact H'.
    + intros [a|e] h' H'; simpl; [exact H'|].
      destruct (_ && _); simpl; [|exact H'].
      split; [exact H'|]. intros [v|e'] h'' H''; exact H''.
  - intros [a|e] h' H'; simpl; exact H'.
Qed.

Lemma timerOwned_initialize cfg h :
  timerOwned h -> maintains timerOwned (initialize cfg h).
Proof.
  intros H. unfold initialize. destruct (alreadyInitialized cfg h); [exact H|].
  unfold try_catch. apply maintains_andThen.
  - simpl. destruct (constructorThrows (env h)); simpl; [owned|].
    split; [owned|]. intros [v|e] h1 H1; simpl; [|exact H1].
    unfold bind. apply maintains_andThen.
    + destruct (flowType (svc h1)); simpl; [exact H1|].
      split; [exact H1|]. intros [[r|]|e] h2 H2; simpl; owned.
    + intros [a|e] h2 H2; simpl; [|exact H2]. apply maintains_andThen.
      * apply timerOwned_clearPendingInteractions, H2.
      * intros [a'|e] h3 H3; simpl; [|exact H3].
        destruct (isLoggedIn _) as [e|[|]]; simpl; owned.
  - intros [a|e] h' H'; simpl; owned.
Qed.

(** C5, as the code has it.  On an initialized service [logout()] first
    stops the renewal timer, so the handle is cleared and its interval
    disarmed however the call ends; if that was the only armed interval,
    no firing runs the callback any more.  With no account listed it
    awaits nothing, clears the lock flag and returns, leaving the cache as
    it was.  With an account it awaits the provider's end-session call for
    it; when that succeeds, cache and lock flag are cleared and, if the
    provider then lists no account, a following [acquireTokenSilent()]
    fails with [NO_ACCOUNTS_FOUND]; when it fails, [logout()] throws the
    provider's error. *)
Theorem logout_stops_timer_and_clears_on_success (w : World) (n : nat) (h : Heap)
    (inst : Configuration.t) (cfg : MsalAuthConfig.t) :
  ensureInitialized h = inr (inst, cfg) ->
  let r := run w n (logout h) in
  timerIs None (timers (env h) ∖ ownTimer h) (final r)
  /\ (timerOwned h -> forall id, fire id (final r) = resolve tt (final r))
  /\ match head (accounts (env h)) with
     | None =>
         outcome r = Some (Return tt) /\ requests r = []
         /\ isLoginInProgress (svc (final r)) = false
         /\ cachedToken (svc (final r)) = cachedToken (svc h)
         /\ (cacheHit h = None ->
             acquireTokenSilent (final r) = reject (Error "NO_ACCOUNTS_FOUND") (final r))
     | Some account =>
         requests r = [endSession h account]
         /\ match reply (w n (endSession h account)) with
            | Fulfilled _ =>
                outcome r = Some (Return tt)
                /\ isLoginInProgress (svc (final r)) = false
                /\ cachedToken (svc (final r)) = None
                /\ tokenExpiryTime (svc (final r)) = None
                /\ (accountsThen (w n (endSession h account)) = [] ->
                    acquireTokenSilent (final r)
                    = reject (Error "NO_ACCOUNTS_FOUND") (final r))
            | RejectedWith e => outcome r = Some (Throw e)
            end
     end.
Proof.
  intros Hi.
  destruct (svc_stopTokenRefreshTimer h) as (Hm&Hc&Hin&Htok&Hexp&Hlock&Hflow&Hint).
  destruct (env_stopTokenRefreshTimer h) as (Hnow&Hacc&Htim).
  assert (Hi1 : ensureInitialized (stopTokenRefreshTimer h) = inr (inst, cfg)).
  { rewrite <- Hi. apply ensureInitialized_frame; assumption. }
  assert (Hcur : getCurrentAccount (stopTokenRefreshTimer h)
                 = inr (head (accounts (env h)))).
  { rewrite (getCurrentAccount_initialized _ _ _ Hi1), Hacc. reflexivity. }
  unfold logout. rewrite Hi, Hcur.
  destruct (head (accounts (env h))) as [account|] eqn:Hhead.
  - (* an account is listed *)
    rewrite Hflow. unfold endSession.
    set (q := match flowType (svc h) with
              | popup => LogoutPopup account
              | redirect => LogoutRedirect account
              end).
    assert (Hrun : forall r0 : Run unit,
      r0 = run w n (bind (await q (stopTokenRefreshTimer h))
             (fun _ h0 => resolve tt (set_isLoginInProgress false (clearCachedToken h0)))) ->
      timerIs None (timers (env h) ∖ ownTimer h) (final r0)
      /\ requests r0 = [q]
      /\ match reply (w n q) with
         | Fulfilled _ =>
             outcome r0 = Some (Return tt)
             /\ final r0 = set_isLoginInProgress false (clearCachedToken
                   (settle_env (clock (w n q)) (accountsThen (w n q))
                      (stopTokenRefreshTimer h)))
         | RejectedWith e => outcome r0 = Some (Throw e)
         end).
    { intros r0 ->. unfold bind, await. simpl.
      destruct (reply (w n q)) as [v|e]; simpl; unfold timerIs; simpl;
        rewrite Hint, Htim; auto. }
    assert (Hgoal : forall r0 : Run unit,
      r0 = run w n (bind (await q (stopTokenRefreshTimer h))
             (fun _ h0 => resolve tt (set_isLoginInProgress false (clearCachedToken h0)))) ->
      timerIs None (timers (env h) ∖ ownTimer h) (final r0)
      /\ (timerOwned h -> forall id, fire id (final r0) = resolve tt (final r0))
      /\ requests r0 = [q]
      /\ match reply (w n q) with
         | Fulfilled _ =>
             outcome r0 = Some (Return tt)
             /\ isLoginInProgress (svc (final r0)) = false
             /\ cachedToken (svc (final r0)) = None
             /\ tokenExpiryTime (svc (final r0)) = None
             /\ (accountsThen (w n q) = [] ->
                 acquireTokenSilent (final r0)
                 = reject (Error "NO_ACCOUNTS_FOUND") (final r0))
         | RejectedWith e => outcome r0 = Some (Throw e)
         end).
    { intros r0 Hr0. destruct (Hrun r0 Hr0) as (Ht&Hq&Hrep).
      split; [exact Ht|]. split.
      { intros Ho id. apply fire_disarmed. destruct Ht as [_ ->].
        rewrite Ho. apply difference_diag_L. }
      split; [exact Hq|].
      destruct (reply (w n q)) as [v|e]; [|exact Hrep].
      destruct Hrep as [Ho Hf]. split; [exact Ho|]. rewrite Hf.
      repeat split. intros Hno.
      unfold acquireTokenSilent, getCurrentAccount, getAllAccounts.
      erewrite ensureInitialized_frame; [rewrite Hi1| | |]; try reflexivity.
      unfold cacheHit. simpl. rewrite Hno. reflexivity. }
    destruct (flowType (svc h)); apply Hgoal; reflexivity.
  - (* no account is listed *)
    simpl. unfold timerIs. simpl. rewrite Hint, Htim, Htok.
    split; [split; reflexivity|]. split.
    { intros Ho id. apply fire_disarmed. simpl. rewrite Htim, Ho.
      apply difference_diag_L. }
    repeat split. intros Hmiss.
    unfold acquireTokenSilent, getCurrentAccount, getAllAccounts.
    erewrite ensureInitialized_frame; [rewrite Hi1| | |]; try reflexivity.
    assert (Hmiss' : cacheHit (set_isLoginInProgress false (stopTokenRefreshTimer h)) = None).
    { rewrite <- Hmiss, <- (cacheHit_stopTokenRefreshTimer h). reflexivity. }
    rewrite Hmiss'. simpl. rewrite Hacc.
    destruct (accounts (env h)); [reflexivity|discriminate].
Qed.

Lemma logout_stops_timer_and_clears_on_success_witness :
  let h := armedHeap 1000 9000000 in
  let r := run (succeeding (demoResult "t" 0) 5000 []) 0 (logout h) in
  timerIs None (timers (env h) ∖ ownTimer h) (final r)
  /\ forall id, fire id (final r) = resolve tt (final r).
Proof.
  intros h r.
  pose proof (logout_stops_timer_and_clears_on_success
                (succeeding (demoResult "t" 0) 5000 []) 0 h
                (msalConfig demoConfig) demoConfig eq_refl) as H.
  split; [exact (proj1 H)|]. apply (proj1 (proj2 H)). reflexivity.
Defined.

(** C5 as stated fails when the provider's end-session call throws:
    [logout()] then raises before it reaches [clearCachedToken()] and the
    assignment to the lock flag, so the cached token and a set lock flag
    stay, and a following [acquireTokenSilent()] hands out the cached
    token instead of failing with [NO_ACCOUNTS_FOUND]. *)
Lemma logout_failure_keeps_cache_and_lock :
  let w := failing networkError 2000 [alice] in
  let r := run w 0 (logout (busyHeap 1000 9000000)) in
  outcome r = Some (Throw networkError)
  /\ requests r = [LogoutPopup alice]
  /\ cachedToken (svc (final r)) = Some "tok"
  /\ isLoginInProgress (svc (final r)) = true
  /\ acquireTokenSilent (final r)
     = resolve (cachedResult "tok" 9000000 (Some alice)) (final r).
Proof. repeat split; reflexivity. Qed.

(** With no account listed, [logout()] returns without clearing the
    cache: an unexpired cached token is still handed out afterwards. *)
Lemma logout_without_account_keeps_cache :
  let h := settle_env 1000 [] (armedHeap 1000 9000000) in
  let r := run (succeeding (demoResult "t" 0) 2000 []) 0 (logout h) in
  outcome r = Some (Return tt)
  /\ cachedToken (svc (final r)) = Some "tok"
  /\ acquireTokenSilent (final r)
     = resolve (cachedResult "tok" 9000000 None) (final r).
Proof. repeat split; reflexivity. Qed.

(** ** Escalation to interactive login *)

(** A [loginInteractive()] call that passes the lock check awaits the
    provider's interactive request once, and nothing else interactive. *)
Lemma loginInteractive_attempts w n h inst cfg :
  ensureInitialized h = inr (inst, cfg) ->
  interactiveAttempts (run w n (loginInteractive h))
  = if isLoginInProgress (svc h) then 0 else 1.
Proof.
  intros Hi. unfold loginInteractive. rewrite Hi.
  destruct (isLoginInProgress (svc h)); [reflexivity|].
  unfold interactiveAttempts, try_finally, try_catch, bind, await.
  simpl. destruct (flowType (svc h)); simpl.
  - destruct (reply _) as [v|e]; simpl; [reflexivity|].
    destruct (instanceofBrowserAuthError e); simpl; [|reflexivity].
    destruct (eqs (errorCode e) "interaction_in_progress"); simpl.
    + destruct (reply _); reflexivity.
    + destruct (_ || _); reflexivity.
  - destruct (reply _) as [v|e]; simpl; [reflexivity|].
    destruct (instanceofBrowserAuthError e); simpl; [|reflexivity].
    destruct (eqs (errorCode e) "interaction_in_progress"); simpl.
    + destruct (reply _); reflexivity.
    + destruct (_ || _); reflexivity.
Qed.

(** A popup login whose provider request is fulfilled returns the
    provider's result. *)
Lemma loginInteractive_popup_success w n h inst cfg result :
  ensureInitialized h = inr (inst, cfg) ->
  isLoginInProgress (svc h) = false ->
  flowType (svc h) = popup ->
  reply (w n (AcquireTokenPopup (MsalAuthConfig.scopes cfg)
                (default select_account (MsalAuthConfig.prompt cfg))))
  = Fulfilled result ->
  outcome (run w n (loginInteractive h)) = Some (Return result).
Proof.
  intros Hi Hl Hf Hr. unfold loginInteractive. rewrite Hi, Hl.
  unfold try_finally, try_catch, bind, await. simpl. rewrite Hf. simpl.
  rewrite Hr. reflexivity.
Qed.

(** C3. On an initialized session with nothing cached and no account
    listed, [getAccessToken()] is one [loginInteractive()] call followed by
    [return result.accessToken]: it awaits what that call awaits, ends as
    that call ends, and returns the token of its result when it succeeds.
    The call awaits the provider's interactive request exactly once
    (not at all when the lock is held). *)
Theorem getAccessToken_escalates_once (w : World) (n fuel : nat) (h : Heap)
    (inst : Configuration.t) (cfg : MsalAuthConfig.t) :
  ensureInitialized h = inr (inst, cfg) ->
  cachedToken (svc h) = None ->
  accounts (env h) = [] ->
  let r := run w n (getAccessToken (S fuel) h) in
  let l := run w n (loginInteractive h) in
  getAccessToken (S fuel) h
  = bind (loginInteractive h)
      (fun result h' => resolve (AuthenticationResult.accessToken result) h')
  /\ requests r = requests l
  /\ final r = final l
  /\ outcome r = tokenOf (outcome l)
  /\ interactiveAttempts r = (if isLoginInProgress (svc h) then 0 else 1)
  /\ (forall result,
        isLoginInProgress (svc h) = false ->
        flowType (svc h) = popup ->
        reply (w n (AcquireTokenPopup (MsalAuthConfig.scopes cfg)
                      (default select_account (MsalAuthConfig.prompt cfg))))
        = Fulfilled result ->
        outcome r = Some (Return (AuthenticationResult.accessToken result))).
Proof.
  intros Hi Hc Ha r l.
  assert (Hs : acquireTokenSilent h = reject (Error "NO_ACCOUNTS_FOUND") h).
  { unfold acquireTokenSilent, cacheHit, getCurrentAccount, getAllAccounts.
    rewrite Hi, Hc, Ha. reflexivity. }
  assert (Heq : getAccessToken (S fuel) h
                = bind (loginInteractive h)
                    (fun result h' => resolve (AuthenticationResult.accessToken result) h')).
  { simpl. rewrite Hs. reflexivity. }
  assert (Hr : r = continued w n l (fun o h' =>
                 match o with
                 | Return result => resolve (AuthenticationResult.accessToken result) h'
                 | Throw e => reject e h'
                 end)).
  { subst r l. rewrite Heq. unfold bind. apply run_andThen. }
  assert (Hreq : requests r = requests l /\ final r = final l
                 /\ outcome r = tokenOf (outcome l)).
  { rewrite Hr. unfold continued.
    destruct (outcome l) as [[a|e]|]; simpl; rewrite ?app_nil_r; auto. }
  destruct Hreq as (Hq & Hf & Ho).
  split; [exact Heq|]. split; [exact Hq|]. split; [exact Hf|]. split; [exact Ho|].
  split.
  - unfold interactiveAttempts. rewrite Hq.
    apply (loginInteractive_attempts w n h inst cfg Hi).
  - intros result Hl Hflow Hrep. rewrite Ho. subst l.
    rewrite (loginInteractive_popup_success w n h inst cfg result Hi Hl Hflow Hrep).
    reflexivity.
Qed.

Lemma getAccessToken_escalates_once_witness :
  let w := succeeding (demoResult "fresh" 3600000) 2000 [alice] in
  outcome (run w 0 (getAccessToken 1 (readyHeap 1000 []))) = Some (Return "fresh")
  /\ interactiveAttempts (run w 0 (getAccessToken 1 (readyHeap 1000 []))) = 1.
Proof.
  intros w.
  pose proof (getAccessToken_escalates_once w 0 0 (readyHeap 1000 [])
                (msalConfig demoConfig) demoConfig eq_refl eq_refl eq_refl) as H.
  split.
  - apply (proj2 (proj2 (proj2 (proj2 (proj2 H)))) (demoResult "fresh" 3600000));
      reflexivity.
  - exact (proj1 (proj2 (proj2 (proj2 (proj2 H))))).
Defined.

(** ** Failures of initialization *)

Lemma initialize_constructor_throws w n cfg h e :
  alreadyInitialized cfg h = false ->
  constructorThrows (env h) = Some e ->
  initializeFails w n cfg h e.
Proof.
  intros Ha Hc. unfold initializeFails, initialize. rewrite Ha.
  unfold try_catch. simpl. rewrite Hc. reflexivity.
Qed.

Lemma initialize_provider_rejects w n cfg h e :
  alreadyInitialized cfg h = false ->
  constructorThrows (env h) = None ->
  reply (w n PcaInitialize) = RejectedWith e ->
  initializeFails w n cfg h e.
Proof.
  intros Ha Hc Hr. unfold initializeFails, initialize. rewrite Ha.
  unfold try_catch, bind, await. simpl. rewrite Hc. simpl. rewrite Hr. reflexivity.
Qed.

(** C6. When [initialize(config)] throws, be it because the provider's
    constructor throws or because the provider's own initialization is
    rejected, the hook's effect ends with the snapshot
    [isInitializing = false], [needsLogin = true] and [authError] set to
    the message of what was thrown (the fixed text "Initialization failed"
    for a thrown value that is not an [Error]). *)
Theorem initialization_failure_resolves_to_needsLogin (w : World) (n fuel : nat)
    (cfg : MsalAuthConfig.t) (onAuthSuccess : bool) (st : AuthenticationState.t)
    (h : Heap) (e : Thrown) :
  let r := run w n (useAuthentication_initialize cfg onAuthSuccess fuel st h) in
  (initializeFails w n cfg h e ->
   exists st',
     outcome r = Some (Return st')
     /\ AuthenticationState.isInitializing st' = false
     /\ AuthenticationState.needsLogin st' = true
     /\ AuthenticationState.authError st' = Some (failureMessage e))
  /\ (alreadyInitialized cfg h = false -> constructorThrows (env h) = Some e ->
      initializeFails w n cfg h e)
  /\ (alreadyInitialized cfg h = false -> constructorThrows (env h) = None ->
      reply (w n PcaInitialize) = RejectedWith e ->
      initializeFails w n cfg h e).
Proof.
  intros r. split; [|split].
  - intros Hf. exists (initializationFailed e (startInitializing st)).
    split; [|repeat split].
    subst r. unfold useAuthentication_initialize, try_catch, bind.
    rewrite !run_andThen. unfold initializeFails in Hf.
    unfold continued at 2. rewrite Hf. simpl.
    unfold continued. simpl. reflexivity.
  - apply initialize_constructor_throws.
  - apply initialize_provider_rejects.
Qed.

Lemma initialization_failure_resolves_to_needsLogin_witness :
  exists st',
    outcome (run (succeeding (demoResult "t" 0) 0 []) 0
               (useAuthentication_initialize demoConfig false 1
                  (initialAuthState false) brokenConstructorHeap))
    = Some (Return st')
    /\ AuthenticationState.isInitializing st' = false
    /\ AuthenticationState.needsLogin st' = true
    /\ AuthenticationState.authError st' = Some "bad client id".
Proof.
  apply (proj1 (initialization_failure_resolves_to_needsLogin
                  (succeeding (demoResult "t" 0) 0 []) 0 1 demoConfig false
                  (initialAuthState false) brokenConstructorHeap
                  (ErrorObject OtherAuthError "invalid_config" "bad client id"))).
  reflexivity.
Defined.

(** ** The retry of [getAccessToken] *)

Lemma getAccessToken_unfold fuel h :
  getAccessToken (S fuel) h
  = andThen (bind (acquireTokenSilent h)
               (fun tokenResult h => resolve (TokenResult.accessToken tokenResult) h))
      (getAccessToken_catch fuel).
Proof. reflexivity. Qed.

Lemma ensureInitialized_inl h e : ensureInitialized h = inl e -> e = notInitialized.
Proof.
  unfold ensureInitialized.
  destruct (isInitialized (svc h)), (msalInstance (svc h)), (config (svc h));
    intros H; inversion H; reflexivity.
Qed.

(** The [catch] block either comes to an end by itself, whatever bound is
    left, or it is the recursive call. *)
Lemma getAccessToken_catch_cases o h :
  (forall fuel fuel', getAccessToken_catch fuel o h = getAccessToken_catch fuel' o h)
  /\ (forall fuel, completes (getAccessToken_catch fuel o h))
  \/ (exists e, o = Throw e /\ retries e = true
      /\ forall fuel, getAccessToken_catch fuel o h = getAccessToken fuel h).
Proof.
  destruct o as [a|e]; simpl.
  { left. split; [reflexivity|]. intros; exact I. }
  unfold retries.
  destruct (instanceofError e) eqn:He; simpl.
  2:{ left. split; [reflexivity|]. intros; exact I. }
  destruct (_ || _) eqn:Hesc; simpl.
  { left. split; [reflexivity|]. intros fuel. unfold bind.
    apply completes_andThen; [apply completes_loginInteractive|].
    intros [a|e'] h'; exact I. }
  destruct (eqs (message e) "INTERACTION_IN_PROGRESS_RESOLVED") eqn:Hres.
  - right. exists e. rewrite He, Hesc, Hres. auto.
  - left. split; [reflexivity|]. intros; exact I.
Qed.

(** A silent acquisition comes to an end, and it ends with an error on
    which [getAccessToken] calls itself again only after the provider has
    reported a stuck interaction and the recovery delay was awaited. *)
Lemma acquireTokenSilent_retry w n h :
  exists o, outcome (run w n (acquireTokenSilent h)) = Some o
  /\ forall e, o = Throw e -> retries e = true ->
       exists q, isSilent q = true /\ reportsStuck (reply (w n q)) = true
         /\ requests (run w n (acquireTokenSilent h)) = [q; SetTimeout 2000].
Proof.
  unfold acquireTokenSilent.
  destruct (ensureInitialized h) as [e0|[inst cfg]] eqn:Hi.
  { apply ensureInitialized_inl in Hi. subst e0. eexists. split; [reflexivity|].
    intros e [= <-] Hr. vm_compute in Hr. discriminate. }
  rewrite (getCurrentAccount_initialized _ _ _ Hi).
  destruct (cacheHit h) as [[tok expiry]|].
  { eexists. split; [reflexivity|]. intros e [=]. }
  destruct (head (accounts (env h))) as [account|].
  2:{ eexists. split; [reflexivity|]. intros e [= <-] Hr. vm_compute in Hr. discriminate. }
  unfold try_catch, bind, await. simpl.
  set (q := AcquireTokenSilent (MsalAuthConfig.scopes cfg) account false).
  destruct (reply (w n q)) as [v|e0] eqn:Hq; simpl.
  { eexists. split; [reflexivity|]. intros e [=]. }
  destruct (instanceofBrowserAuthError e0 && eqs (errorCode e0) "interaction_in_progress")
    eqn:Hstuck; simpl.
  - assert (Hrep : reportsStuck (reply (w n q)) = true).
    { rewrite Hq. exact Hstuck. }
    destruct (reply (w (S n) (SetTimeout 2000))) as [v|e1]; simpl.
    + eexists. split; [reflexivity|]. intros e _ _. exists q. auto.
    + eexists. split; [reflexivity|]. intros e _ _. exists q. auto.
  - destruct (instanceofInteractionRequiredAuthError e0); simpl;
      (eexists; split; [reflexivity|]; intros e [= <-] Hr; vm_compute in Hr; discriminate).
Qed.

(** One unfolding of [getAccessToken]: either it comes to an end without
    calling itself, in the same way whatever bound is left, or the provider
    has reported a stuck interaction on its silent request and, two awaits
    later, [getAccessToken] is called again. *)
Lemma getAccessToken_attempt w n h :
  (exists r : Run string, outcome r <> None
     /\ forall fuel, run w n (getAccessToken (S fuel) h) = r)
  \/ (exists q h', isSilent q = true /\ reportsStuck (reply (w n q)) = true
      /\ forall fuel, run w n (getAccessToken (S fuel) h)
                      = issued q (issued (SetTimeout 2000)
                          (run w (S (S n)) (getAccessToken fuel h')))).
Proof.
  destruct (acquireTokenSilent_retry w n h) as (o & Ho & Hretry).
  set (s := run w n (acquireTokenSilent h)) in *.
  set (g := fun (tokenResult : TokenResult.t) (h0 : Heap) =>
              resolve (TokenResult.accessToken tokenResult) h0).
  assert (Hb : exists o', outcome (run w n (bind (acquireTokenSilent h) g)) = Some o'
               /\ final (run w n (bind (acquireTokenSilent h) g)) = final s
               /\ requests (run w n (bind (acquireTokenSilent h) g)) = requests s
               /\ (forall e, o' = Throw e -> o = Throw e)).
  { unfold bind. rewrite run_andThen. fold s. unfold continued. rewrite Ho.
    destruct o as [a|e]; simpl; rewrite app_nil_r; eexists; repeat split; congruence. }
  destruct Hb as (o' & Ho' & Hf' & Hq' & Hthrow).
  assert (Hrun : forall fuel, run w n (getAccessToken (S fuel) h)
            = continued w n (run w n (bind (acquireTokenSilent h) g))
                (getAccessToken_catch fuel)).
  { intros fuel. rewrite getAccessToken_unfold. apply run_andThen. }
  destruct (getAccessToken_catch_cases o' (final s)) as [[Hsame Hcomp]|(e & -> & Hr & Hrec)].
  - left. exists (run w n (getAccessToken 1 h)). split.
    + rewrite Hrun. unfold continued. rewrite Ho', Hf', Hq'. simpl.
      destruct (completes_run w _ (Hcomp 0) (n + length (requests s))) as [o2 ->].
      discriminate.
    + intros fuel. rewrite !Hrun. unfold continued. rewrite Ho', Hf'.
      rewrite (Hsame fuel 0). reflexivity.
  - right. destruct (Hretry e (Hthrow e eq_refl) Hr) as (q & Hsil & Hrep & Hreq).
    exists q, (final s). split; [exact Hsil|]. split; [exact Hrep|].
    intros fuel. rewrite Hrun. unfold continued. rewrite Ho', Hf', Hq', Hreq, Hrec.
    simpl. replace (n + 2) with (S (S n)) by lia. reflexivity.
Qed.

Lemma outcome_issued {A} q (r : Run A) : outcome (issued q r) = outcome r.
Proof. reflexivity. Qed.

(** More unfoldings than a run needs do not change it. *)
Lemma getAccessToken_fuel_enough fuel : forall w n h o,
  outcome (run w n (getAccessToken fuel h)) = Some o ->
  forall k, run w n (getAccessToken (fuel + k) h) = run w n (getAccessToken fuel h).
Proof.
  induction fuel as [|fuel IH]; intros w n h o Ho k; [discriminate|].
  simpl Nat.add.
  destruct (getAccessToken_attempt w n h) as [(r & _ & Hr)|(q & h' & _ & _ & Hr)].
  - rewrite !Hr. reflexivity.
  - rewrite !Hr in *. rewrite !outcome_issued in Ho.
    rewrite (IH _ _ _ _ Ho). reflexivity.
Qed.

(** A run cut by the bound [S fuel] has seen the provider report a stuck
    interaction on each of its [S fuel] silent requests. *)
Lemma getAccessToken_cut fuel : forall w n h,
  outcome (run w n (getAccessToken (S fuel) h)) = None ->
  forall j, j <= fuel ->
  exists q, isSilent q = true /\ reportsStuck (reply (w (n + 2 * j) q)) = true.
Proof.
  induction fuel as [|fuel IH]; intros w n h Hcut j Hj.
  - destruct (getAccessToken_attempt w n h) as [(r & Hne & Hr)|(q & h' & Hs & Hrep & _)].
    + rewrite Hr in Hcut. contradiction.
    + assert (j = 0) as -> by lia. rewrite Nat.add_0_r. eauto.
  - destruct (getAccessToken_attempt w n h) as [(r & Hne & Hr)|(q & h' & Hs & Hrep & Hr)].
    + rewrite Hr in Hcut. contradiction.
    + destruct j as [|j].
      * rewrite Nat.add_0_r. eauto.
      * rewrite Hr in Hcut. rewrite !outcome_issued in Hcut.
        destruct (IH w (S (S n)) h' Hcut j ltac:(lia)) as (q' & Hs' & Hrep').
        exists q'. split; [exact Hs'|].
        replace (n + 2 * S j) with (S (S n) + 2 * j) by lia. exact Hrep'.
Qed.


(** C4, as the code has it.  The chain of recursive [getAccessToken()]
    calls is as long as the provider keeps reporting a stuck interaction:
    every call of the chain but the last has had that report on its silent
    request.  So if the silent request of the [m+1]-th call (the await
    number [2 m] of the chain, each retry taking the request and the
    recovery delay) is not answered with that report, the chain ends
    within [m] retries, and no larger bound on the unfolding changes the
    run. *)
Theorem getAccessToken_terminates_unless_stuck (w : World) (n m : nat) (h : Heap) :
  (forall q, isSilent q = true -> reportsStuck (reply (w (n + 2 * m) q)) = false) ->
  terminates w n h
  /\ (exists o, outcome (run w n (getAccessToken (S m) h)) = Some o)
  /\ (forall k, run w n (getAccessToken (S m + k) h)
                = run w n (getAccessToken (S m) h)).
Proof.
  intros Hm.
  assert (Ho : exists o, outcome (run w n (getAccessToken (S m) h)) = Some o).
  { destruct (outcome (run w n (getAccessToken (S m) h))) as [o|] eqn:Hout; [eauto|].
    destruct (getAccessToken_cut m w n h Hout m (le_n m)) as (q & Hs & Hrep).
    rewrite (Hm q Hs) in Hrep. discriminate. }
  destruct Ho as [o Ho]. split; [exists (S m), o; exact Ho|].
  split; [eauto|]. apply (getAccessToken_fuel_enough (S m) w n h o Ho).
Qed.

Lemma getAccessToken_terminates_unless_stuck_witness :
  terminates (stuckUntil 4) 0 (readyHeap 1000 [alice]).
Proof.
  apply (getAccessToken_terminates_unless_stuck (stuckUntil 4) 0 2 (readyHeap 1000 [alice])).
  intros q Hq. destruct q; try discriminate Hq. reflexivity.
Defined.

(** Against the provider that always reports a stuck interaction, every
    bound on the unfolding is reached. *)
Lemma getAccessToken_stuck_cut fuel : forall n h inst cfg,
  ensureInitialized h = inr (inst, cfg) ->
  cachedToken (svc h) = None ->
  accounts (env h) <> [] ->
  outcome (run stuckProvider n (getAccessToken fuel h)) = None.
Proof.
  induction fuel as [|fuel IH]; intros n h inst cfg Hi Hc Ha; [reflexivity|].
  rewrite getAccessToken_unfold. unfold acquireTokenSilent, cacheHit.
  rewrite Hi, Hc, (getCurrentAccount_initialized _ _ _ Hi).
  destruct (accounts (env h)) as [|account rest]; [contradiction|].
  unfold try_catch, bind, await. simpl head. cbv iota.
  simpl andThen. simpl run. rewrite !outcome_issued.
  apply (IH _ _ inst cfg).
  - rewrite <- Hi. apply ensureInitialized_frame; reflexivity.
  - reflexivity.
  - discriminate.
Qed.

(** C4 as stated fails: with [alice] signed in and a provider that
    reports a stuck interaction on every silent acquisition, the chain of
    recursive [getAccessToken()] calls never ends; the recovery clears the
    local lock and cache, which the provider's answer does not depend on. *)
Lemma getAccessToken_retries_forever :
  ~ terminates stuckProvider 0 (readyHeap 1000 [alice]).
Proof.
  intros (fuel & o & Ho).
  rewrite (getAccessToken_stuck_cut fuel 0 (readyHeap 1000 [alice])
             (msalConfig demoConfig) demoConfig) in Ho;
    [discriminate|reflexivity|reflexivity|discriminate].
Qed.

(** ** Concurrent calls of [loginInteractive] *)

(** A call that passes the lock check sets the lock before it suspends,
    at the provider's interactive request. *)
Lemma loginInteractive_enters h inst cfg :
  ensureInitialized h = inr (inst, cfg) ->
  isLoginInProgress (svc h) = false ->
  exists q k, loginInteractive h = Await q (set_isLoginInProgress true h) k
    /\ isInteractive q = true
    /\ endsReleased inst cfg {| awaited := q; resumption := k |}.
Proof.
  intros Hi Hl. unfold loginInteractive. rewrite Hi, Hl.
  unfold try_finally, try_catch, bind, await. simpl.
  destruct (flowType (svc h)); simpl;
    [ exists (AcquireTokenPopup (MsalAuthConfig.scopes cfg)
                (default select_account (MsalAuthConfig.prompt cfg)))
    | exists (AcquireTokenRedirect (MsalAuthConfig.scopes cfg)
                (default select_account (MsalAuthConfig.prompt cfg))) ];
    eexists; (split; [reflexivity|]); (split; [reflexivity|]);
    intros r h' Hr Hi'; simpl in *.
  - destruct r as [v|e]; simpl.
    + eexists; eexists. split; [reflexivity|]. split; [reflexivity|].
      rewrite <- Hi'. apply ensureInitialized_frame;
        destruct (svc_startTokenRefreshTimer (setCachedToken v h')) as (?&?&?&_);
        simpl; assumption.
    + unfold reportsStuck, interactionInProgress in Hr.
      destruct (instanceofBrowserAuthError e); simpl in *.
      * rewrite Hr. destruct (_ || _); simpl; eauto.
      * eauto.
  - destruct r as [v|e]; simpl.
    + eauto.
    + unfold reportsStuck, interactionInProgress in Hr.
      destruct (instanceofBrowserAuthError e); simpl in *.
      * rewrite Hr. destruct (_ || _); simpl; eauto.
      * eauto.
Qed.

(** A call made while the lock is held fails at once and changes nothing. *)
Lemma loginInteractive_locked h inst cfg :
  ensureInitialized h = inr (inst, cfg) ->
  isLoginInProgress (svc h) = true ->
  loginInteractive h = reject (Error "Login already in progress") h.
Proof. intros Hi Hl. unfold loginInteractive. rewrite Hi, Hl. reflexivity. Qed.

Lemma singleFlight_step inst cfg s s' :
  singleFlight inst cfg s -> step noRecovery s s' -> singleFlight inst cfg s'.
Proof.
  intros [Hi Hs] Hstep. destruct Hstep as [s | s i p r Hp Hr].
  - (* a new call *)
    unfold call. destruct Hs as [[Hnil Hl] | (p & Hp & Hl & Hgood)].
    + destruct (loginInteractive_enters _ _ _ Hi Hl) as (q & k & -> & _ & Hgood).
      rewrite Hnil. simpl. split.
      * rewrite <- Hi. apply ensureInitialized_frame; reflexivity.
      * right. eexists. split; [reflexivity|]. split; [reflexivity|exact Hgood].
    + rewrite (loginInteractive_locked _ _ _ Hi Hl). simpl. split; [exact Hi|].
      right. exists p. auto.
  - (* a settlement *)
    unfold settleAt. rewrite Hp.
    destruct Hs as [[Hnil Hl] | (p0 & Hp0 & Hl & Hgood)].
    + rewrite Hnil in Hp. discriminate.
    + rewrite Hp0 in Hp. destruct i as [|i]; [|discriminate].
      injection Hp as <-.
      destruct (Hgood (reply (r (awaited p0)))
                  (settle_env (clock (r (awaited p0))) (accountsThen (r (awaited p0))) (heap s))
                  Hr) as (o & h' & -> & Hl' & Hi').
      { rewrite <- Hi. apply ensureInitialized_frame; reflexivity. }
      rewrite Hp0. simpl. split; [exact Hi'|]. left. auto.
Qed.

Lemma singleFlight_reachable inst cfg h0 s :
  ensureInitialized h0 = inr (inst, cfg) ->
  isLoginInProgress (svc h0) = false ->
  rtc (step noRecovery) (start h0) s ->
  singleFlight inst cfg s.
Proof.
  intros Hi Hl. revert s. apply rtc_ind_r.
  - split; [exact Hi|]. left. auto.
  - intros s1 s2 _ Hstep IH. eapply singleFlight_step; eassumption.
Qed.

(** However a call that passed the lock check ends, it has released the
    lock at its end, the recovery from a stuck interaction included. *)
Lemma loginInteractive_releases w n h inst cfg :
  ensureInitialized h = inr (inst, cfg) ->
  isLoginInProgress (svc h) = false ->
  exists o, outcome (run w n (loginInteractive h)) = Some o
    /\ isLoginInProgress (svc (final (run w n (loginInteractive h)))) = false.
Proof.
  intros Hi Hl. unfold loginInteractive. rewrite Hi, Hl.
  unfold try_finally. rewrite run_andThen. unfold continued.
  match goal with |- context [outcome (run w n ?b)] =>
    destruct (completes_run w b) with (n := n) as [o Ho]
  end.
  { finish. }
  rewrite Ho. simpl. eauto.
Qed.

(** C2, as the code has it.  In every interleaving of [loginInteractive()]
    calls in which no awaited promise is rejected with the
    stuck-interaction error, at most one call is in flight, the lock flag
    is set exactly while one is, a call made meanwhile fails at once with
    "Login already in progress", and once the call in flight has ended a
    new call sets the lock (before it first suspends) and goes to the
    provider.  Run on its own, a call that passed the lock check has
    released the lock when it ends, however it ends. *)
Theorem single_interactive_flight (w : World) (n : nat) (h0 : Heap) (s : Session)
    (inst : Configuration.t) (cfg : MsalAuthConfig.t) :
  ensureInitialized h0 = inr (inst, cfg) ->
  isLoginInProgress (svc h0) = false ->
  rtc (step noRecovery) (start h0) s ->
  length (inFlight s) <= 1
  /\ lockMatchesFlight s
  /\ nextCall s
  /\ (exists o, outcome (run w n (loginInteractive h0)) = Some o
        /\ isLoginInProgress (svc (final (run w n (loginInteractive h0)))) = false).
Proof.
  intros Hi Hl Hreach.
  destruct (singleFlight_reachable inst cfg h0 s Hi Hl Hreach)
    as [His [[Hnil Hlock] | (p & Hp & Hlock & _)]];
    unfold lockMatchesFlight, nextCall.
  - rewrite Hnil. simpl. split; [lia|]. split; [exact Hlock|]. split.
    + destruct (loginInteractive_enters _ _ _ His Hlock) as (q & k & Heq & Hq & _).
      eauto.
    + apply (loginInteractive_releases w n h0 inst cfg Hi Hl).
  - rewrite Hp. simpl. split; [lia|]. split; [exact Hlock|]. split.
    + apply (loginInteractive_locked _ _ _ His Hlock).
    + apply (loginInteractive_releases w n h0 inst cfg Hi Hl).
Qed.

Lemma single_interactive_flight_witness :
  let s := call (call (start (readyHeap 1000 []))) in
  length (inFlight s) <= 1 /\ lockMatchesFlight s /\ nextCall s.
Proof.
  intros s.
  destruct (single_interactive_flight (succeeding (demoResult "t" 0) 0 []) 0
              (readyHeap 1000 []) s (msalConfig demoConfig) demoConfig
              eq_refl eq_refl) as (H1 & H2 & H3 & _).
  - eapply rtc_l; [apply step_call|]. eapply rtc_l; [apply step_call|]. apply rtc_refl.
  - auto.
Defined.

(** C2 as stated fails.  When the first call's popup is answered with the
    stuck-interaction error, its recovery clears the lock before the 2 s
    delay: a second call made during the delay passes the lock check
    instead of failing, so two calls are in flight.  When the delay has
    elapsed the first call ends and releases the lock the second call
    holds, and a third call goes to the provider beside the second. *)
Lemma second_login_enters_during_recovery :
  rtc (step anyReply) (start (readyHeap 1000 [])) duringRecovery
  /\ length (inFlight duringRecovery) = 2
  /\ ended duringRecovery = []
  /\ isInteractive <$> (awaited <$> inFlight duringRecovery) = [false; true]
  /\ rtc (step anyReply) duringRecovery afterRecovery
  /\ isInteractive <$> (awaited <$> inFlight afterRecovery) = [true; true]
  /\ ended afterRecovery
     = [Throw (Error "Authentication window was closed or interrupted. Please try again.")].
Proof.
  split.
  { eapply rtc_l; [apply step_call|].
    eapply rtc_l; [eapply (step_settle anyReply _ 0); [reflexivity|exact I]|].
    eapply rtc_l; [apply step_call|]. apply rtc_refl. }
  split; [reflexivity|]. split; [reflexivity|]. split; [reflexivity|]. split.
  { eapply rtc_l; [eapply (step_settle anyReply _ 0); [reflexivity|exact I]|].
    eapply rtc_l; [apply step_call|]. apply rtc_refl. }
  split; reflexivity.
Qed.

(** * Further properties of the service *)

(** ** Initialization, when it runs *)

Lemma stillInitialized_already cfg h :
  stillInitialized cfg h -> alreadyInitialized cfg h = true.
Proof.
  intros [Hi Hc]. unfold alreadyInitialized, eqs. rewrite Hi, Hc. simpl.
  apply bool_decide_eq_true_2. reflexivity.
Qed.

(** X1. [initialize(config)] is idempotent: however a call of it ends
    (resolved or thrown), a following call with the same configuration
    returns at once, awaiting nothing and leaving the heap as it is. *)
Theorem initialize_idempotent (w w' : World) (n n' : nat) (cfg : MsalAuthConfig.t)
    (h : Heap) :
  let r := run w n (initialize cfg h) in
  alreadyInitialized cfg (final r) = true
  /\ run w' n' (initialize cfg (final r)) = immediate (Return tt) (final r).
Proof.
  intros r.
  assert (Ha : alreadyInitialized cfg (final r) = true).
  { subst r. destruct (alreadyInitialized cfg h) eqn:Hg.
    - unfold initialize. rewrite Hg. exact Hg.
    - apply stillInitialized_already.
      pose proof (post_run _ _ (initialize_marks cfg h Hg) w n) as Hp.
      unfold ended_with in Hp.
      destruct (completes_run w _ (completes_initialize cfg h) n) as [o Ho].
      rewrite Ho in Hp. exact Hp. }
  split; [exact Ha|]. unfold initialize. rewrite Ha. reflexivity.
Qed.

(** On a service whose flag is unset the probe for a stuck interaction
    only clears the lock: [getAllAccounts()] throws inside it, and the
    throw is swallowed. *)
Lemma clearPendingInteractions_uninitialized h :
  isInitialized (svc h) = false ->
  clearPendingInteractions h = resolve tt (set_isLoginInProgress false h).
Proof.
  intros Hi. unfold clearPendingInteractions, getAllAccounts, ensureInitialized.
  simpl. rewrite Hi. reflexivity.
Qed.

(** X2. On a service not yet initialized, [initialize(config)] awaits
    only the provider's [initialize()] and, under the redirect flow,
    [handleRedirectPromise()]: the probe for a stuck interaction finds the
    flag unset and makes no silent acquisition, even when an account is
    listed.  When the call resolves, the service is initialized with the
    instance built from [config], the lock flag is false, and the renewal
    timer is armed with a fresh handle if the provider lists an account,
    and left as it was if not. *)
Theorem first_initialize_skips_probe (w : World) (n : nat) (cfg : MsalAuthConfig.t)
    (h : Heap) :
  isInitialized (svc h) = false ->
  let r := run w n (initialize cfg h) in
  forallb startupRequest (requests r) = true
  /\ (outcome r = Some (Return tt) ->
      ensureInitialized (final r) = inr (msalConfig cfg, cfg)
      /\ isLoginInProgress (svc (final r)) = false
      /\ flowType (svc (final r)) = default popup (MsalAuthConfig.flowType cfg)
      /\ match accounts (env (final r)) with
         | [] => tokenRefreshInterval (svc (final r)) = tokenRefreshInterval (svc h)
         | _ :: _ =>
             tokenRefreshInterval (svc (final r)) = Some (nextTimer (env h))
             /\ nextTimer (env h) ∈ timers (env (final r))
         end).
Proof.
  intros Hi. unfold initialize, alreadyInitialized. rewrite Hi. simpl andb. cbv iota.
  unfold try_catch, bind, await. simpl.
  destruct (constructorThrows (env h)); simpl.
  { split; [reflexivity|discriminate]. }
  destruct (reply (w n PcaInitialize)) as [v|e]; simpl.
  2:{ split; [reflexivity|discriminate]. }
  destruct (default popup (MsalAuthConfig.flowType cfg)) eqn:Hflow; simpl.
  - (* popup *)
    rewrite clearPendingInteractions_uninitialized by exact Hi. simpl.
    unfold isLoggedIn, getAllAccounts, ensureInitialized. simpl.
    destruct (accountsThen (w n PcaInitialize)) as [|acct rest] eqn:Hacc; simpl.
    + split; [reflexivity|]. intros _. repeat split.
    + split; [reflexivity|]. intros _.
      unfold startTokenRefreshTimer, stopTokenRefreshTimer. simpl.
      destruct (tokenRefreshInterval (svc h)); simpl; repeat split; set_solver.
  - (* redirect *)
    destruct (reply (w (S n) HandleRedirectPromise)) as [[res|]|e]; simpl.
    3:{ split; [reflexivity|discriminate]. }
    + rewrite clearPendingInteractions_uninitialized by exact Hi. simpl.
      unfold isLoggedIn, getAllAccounts, ensureInitialized. simpl.
      destruct (accountsThen (w (S n) HandleRedirectPromise)) as [|acct rest]; simpl.
      * split; [reflexivity|]. intros _. repeat split.
      * split; [reflexivity|]. intros _.
        unfold startTokenRefreshTimer, stopTokenRefreshTimer. simpl.
        destruct (tokenRefreshInterval (svc h)); simpl; repeat split; set_solver.
    + rewrite clearPendingInteractions_uninitialized by exact Hi. simpl.
      unfold isLoggedIn, getAllAccounts, ensureInitialized. simpl.
      destruct (accountsThen (w (S n) HandleRedirectPromise)) as [|acct rest]; simpl.
      * split; [reflexivity|]. intros _. repeat split.
      * split; [reflexivity|]. intros _.
        unfold startTokenRefreshTimer, stopTokenRefreshTimer. simpl.
        destruct (tokenRefreshInterval (svc h)); simpl; repeat split; set_solver.
Qed.

Lemma first_initialize_skips_probe_witness :
  let r := run (succeeding (demoResult "tok" 3600000) 2000 [alice]) 0
             (initialize demoConfig freshHeap) in
  forallb startupRequest (requests r) = true
  /\ tokenRefreshInterval (svc (final r)) = Some 1%positive.
Proof.
  intros r.
  destruct (first_initialize_skips_probe (succeeding (demoResult "tok" 3600000) 2000 [alice])
              0 demoConfig freshHeap eq_refl) as [Hq Hr].
  split; [exact Hq|].
  destruct (Hr eq_refl) as (_ & _ & _ & Ht). exact (proj1 Ht).
Defined.

(** X3. Resuming from a redirect: when a service not yet initialized is
    initialized under the redirect flow and the provider hands back the
    pending redirect response, that response is cached as any acquired
    token is, and a following [acquireTokenSilent()] returns its token
    without a provider call while the cache window lasts.  With no
    response pending the cache is left as it was. *)
Theorem redirect_response_seeds_cache (w : World) (n : nat) (cfg : MsalAuthConfig.t)
    (h : Heap) (pending : option AuthenticationResult.t) :
  isInitialized (svc h) = false ->
  constructorThrows (env h) = None ->
  MsalAuthConfig.flowType cfg = Some redirect ->
  reply (w n PcaInitialize) = Fulfilled tt ->
  reply (w (S n) HandleRedirectPromise) = Fulfilled pending ->
  let r := run w n (initialize cfg h) in
  let s := w (S n) HandleRedirectPromise in
  outcome r = Some (Return tt)
  /\ requests r = [PcaInitialize; HandleRedirectPromise]
  /\ match pending with
     | None =>
         cachedToken (svc (final r)) = cachedToken (svc h)
         /\ tokenExpiryTime (svc (final r)) = tokenExpiryTime (svc h)
     | Some result =>
         cachedToken (svc (final r)) = Some (AuthenticationResult.accessToken result)
         /\ forall E,
              AuthenticationResult.expiresOn result = Some E ->
              E <> 0%Z -> (E - 300000)%Z <> 0%Z ->
              AuthenticationResult.accessToken result <> "" ->
              (clock s < E - 300000)%Z ->
              acquireTokenSilent (final r)
              = resolve (cachedResult (AuthenticationResult.accessToken result)
                           (E - 300000) (head (accountsThen s))) (final r)
     end.
Proof.
  intros Hi Hc Hflow Hp Hr r s. subst r.
  unfold initialize, alreadyInitialized. rewrite Hi. simpl andb. cbv iota.
  unfold try_catch, bind, await. simpl. rewrite Hc, Hflow. simpl.
  rewrite Hp. simpl. rewrite Hr. fold s.
  destruct pending as [result|]; simpl.
  - rewrite clearPendingInteractions_uninitialized by exact Hi. simpl.
    unfold isLoggedIn, getAllAccounts, ensureInitialized. simpl.
    assert (Hgoal : forall hf : Heap,
      ensureInitialized hf = inr (msalConfig cfg, cfg) ->
      accounts (env hf) = accountsThen s -> now (env hf) = clock s ->
      cachedToken (svc hf) = Some (AuthenticationResult.accessToken result) ->
      tokenExpiryTime (svc hf)
      = tokenExpiryTime (svc (setCachedToken result
          (settle_env (clock s) (accountsThen s) h))) ->
      forall E,
        AuthenticationResult.expiresOn result = Some E ->
        E <> 0%Z -> (E - 300000)%Z <> 0%Z ->
        AuthenticationResult.accessToken result <> "" ->
        (clock s < E - 300000)%Z ->
        acquireTokenSilent hf
        = resolve (cachedResult (AuthenticationResult.accessToken result)
                     (E - 300000) (head (accountsThen s))) hf).
    { intros hf Hini Hacc Hnow Htok Hexp E HE HE0 HEl Hne Hlt.
      assert (Hexp' : tokenExpiryTime (svc hf) = Some (E - 300000)%Z).
      { rewrite Hexp. unfold setCachedToken. rewrite HE. simpl.
        destruct (E =? 0)%Z eqn:Hz; [apply Z.eqb_eq in Hz; contradiction|].
        reflexivity. }
      unfold acquireTokenSilent, cacheHit.
      rewrite Hini, (getCurrentAccount_initialized _ _ _ Hini), Htok, Hexp', Hnow, Hacc.
      unfold eqs. rewrite bool_decide_eq_false_2 by exact Hne.
      destruct (E - 300000 =? 0)%Z eqn:Hz'; [apply Z.eqb_eq in Hz'; contradiction|].
      apply Z.ltb_lt in Hlt. rewrite Hlt. reflexivity. }
    destruct (accountsThen s) as [|acct rest] eqn:Hacc; simpl.
    + split; [reflexivity|]. split; [reflexivity|]. split; [reflexivity|].
      apply Hgoal; reflexivity.
    + split; [reflexivity|]. split; [reflexivity|].
      split.
      { unfold startTokenRefreshTimer, stopTokenRefreshTimer. simpl.
        destruct (tokenRefreshInterval (svc h)); reflexivity. }
      apply Hgoal.
      * unfold startTokenRefreshTimer, stopTokenRefreshTimer. simpl.
        destruct (tokenRefreshInterval (svc h)); reflexivity.
      * unfold startTokenRefreshTimer, stopTokenRefreshTimer. simpl.
        destruct (tokenRefreshInterval (svc h)); reflexivity.
      * unfold startTokenRefreshTimer, stopTokenRefreshTimer. simpl.
        destruct (tokenRefreshInterval (svc h)); reflexivity.
      * unfold startTokenRefreshTimer, stopTokenRefreshTimer. simpl.
        destruct (tokenRefreshInterval (svc h)); reflexivity.
      * unfold startTokenRefreshTimer, stopTokenRefreshTimer. simpl.
        destruct (tokenRefreshInterval (svc h)); reflexivity.
  - rewrite clearPendingInteractions_uninitialized by exact Hi. simpl.
    unfold isLoggedIn, getAllAccounts, ensureInitialized. simpl.
    destruct (accountsThen s) as [|acct rest]; simpl.
    + repeat split.
    + unfold startTokenRefreshTimer, stopTokenRefreshTimer. simpl.
      destruct (tokenRefreshInterval (svc h)); repeat split.
Qed.

Lemma redirect_response_seeds_cache_witness :
  let w := returning (demoResult "resumed" 3600000) 2000 [alice] in
  let r := run w 0 (initialize redirectConfig freshHeap) in
  cachedToken (svc (final r)) = Some "resumed"
  /\ acquireTokenSilent (final r)
     = resolve (cachedResult "resumed" 3300000 (Some alice)) (final r).
Proof.
  intros w r.
  destruct (redirect_response_seeds_cache w 0 redirectConfig freshHeap
              (Some (demoResult "resumed" 3600000))
              eq_refl eq_refl eq_refl eq_refl eq_refl) as (_ & _ & Hc & Ha).
  split; [exact Hc|].
  apply (Ha 3600000%Z); try reflexivity; discriminate.
Defined.

(** ** Silent acquisition *)

(** X4. How [acquireTokenSilent()] classifies a rejection by the
    provider.  A stuck interaction is recovered from (lock flag and cache
    cleared, the 2 s delay awaited) and reported as
    [INTERACTION_IN_PROGRESS_RESOLVED]; an [InteractionRequiredAuthError]
    becomes [INTERACTION_REQUIRED]; anything else [SILENT_REFRESH_FAILED].
    In the last two cases the service is left as it was: only the
    provider was asked. *)
Theorem acquireTokenSilent_classifies (w : World) (n : nat) (h : Heap)
    (inst : Configuration.t) (cfg : MsalAuthConfig.t) (account : AccountInfo)
    (rest : list AccountInfo) (e : Thrown) :
  ensureInitialized h = inr (inst, cfg) ->
  cacheHit h = None ->
  accounts (env h) = account :: rest ->
  reply (w n (silentRequest cfg account)) = RejectedWith e ->
  sleepsElapse w ->
  let r := run w n (acquireTokenSilent h) in
  outcome r = Some (Throw (classifySilent e))
  /\ if interactionInProgress e
     then requests r = [silentRequest cfg account; SetTimeout 2000]
          /\ isLoginInProgress (svc (final r)) = false
          /\ cachedToken (svc (final r)) = None
          /\ tokenExpiryTime (svc (final r)) = None
     else requests r = [silentRequest cfg account]
          /\ svc (final r) = svc h.
Proof.
  intros Hi Hc Ha Hr Hs r. subst r.
  unfold acquireTokenSilent. rewrite Hi, Hc, (getCurrentAccount_initialized _ _ _ Hi), Ha.
  unfold try_catch, bind, await, silentRequest in *. simpl. rewrite Hr. simpl.
  unfold classifySilent, interactionInProgress.
  destruct (instanceofBrowserAuthError e && eqs (errorCode e) "interaction_in_progress");
    simpl.
  - rewrite (Hs (S n) 2000%Z). simpl. repeat split.
  - destruct (instanceofInteractionRequiredAuthError e); simpl; repeat split.
Qed.

Lemma acquireTokenSilent_classifies_witness :
  let w := failing stuckError 2000 [alice] in
  let r := run w 0 (acquireTokenSilent (busyHeap 1000 500)) in
  outcome r = Some (Throw (Error "INTERACTION_IN_PROGRESS_RESOLVED"))
  /\ isLoginInProgress (svc (final r)) = false
  /\ cachedToken (svc (final r)) = None.
Proof.
  intros w r.
  destruct (acquireTokenSilent_classifies w 0 (busyHeap 1000 500)
              (msalConfig demoConfig) demoConfig alice [] stuckError
              eq_refl eq_refl eq_refl eq_refl) as [Ho Hs].
  - intros n ms. reflexivity.
  - split; [exact Ho|]. simpl in Hs. destruct Hs as (_ & Hl & Hc & _). auto.
Defined.

(** X5. No provider error leaves [acquireTokenSilent()] as it came: the
    call always ends, and whatever it throws is one of its own five plain
    errors. *)
Theorem acquireTokenSilent_throws_its_own (w : World) (n : nat) (h : Heap) (e : Thrown) :
  sleepsElapse w ->
  outcome (run w n (acquireTokenSilent h)) = Some (Throw e) ->
  e ∈ silentErrors.
Proof.
  intros Hs. unfold acquireTokenSilent, silentErrors.
  destruct (ensureInitialized h) as [e0|[inst cfg]] eqn:Hi.
  { apply ensureInitialized_inl in Hi. subst e0. simpl. intros [= <-]. set_solver. }
  rewrite (getCurrentAccount_initialized _ _ _ Hi).
  destruct (cacheHit h) as [[tok expiry]|]; simpl; [discriminate|].
  destruct (head (accounts (env h))) as [account|]; simpl.
  2:{ intros [= <-]. set_solver. }
  unfold try_catch, bind, await. simpl.
  destruct (reply _) as [v|e0]; simpl; [discriminate|].
  destruct (instanceofBrowserAuthError e0 && eqs (errorCode e0) "interaction_in_progress");
    simpl.
  - rewrite (Hs (S n) 2000%Z). simpl. intros [= <-]. set_solver.
  - destruct (instanceofInteractionRequiredAuthError e0); simpl;
      intros [= <-]; set_solver.
Qed.

Lemma acquireTokenSilent_throws_its_own_witness :
  Error "SILENT_REFRESH_FAILED" ∈ silentErrors.
Proof.
  apply (acquireTokenSilent_throws_its_own (failing networkError 2000 [alice]) 0
           (readyHeap 1000 [alice])).
  - intros n ms. reflexivity.
  - reflexivity.
Defined.

(** ** Interactive login *)

(** X6. A popup login that the provider fulfils returns the provider's
    result, having awaited the popup request alone; it has cached the
    token, disarmed the interval the service held and armed a fresh one in
    its place, and released the lock. *)
Theorem loginInteractive_popup_caches_and_arms (w : World) (n : nat) (h : Heap)
    (inst : Configuration.t) (cfg : MsalAuthConfig.t) (result : AuthenticationResult.t) :
  ensureInitialized h = inr (inst, cfg) ->
  isLoginInProgress (svc h) = false ->
  flowType (svc h) = popup ->
  reply (w n (popupRequest cfg)) = Fulfilled result ->
  let s := w n (popupRequest cfg) in
  let r := run w n (loginInteractive h) in
  outcome r = Some (Return result)
  /\ requests r = [popupRequest cfg]
  /\ isLoginInProgress (svc (final r)) = false
  /\ cachedToken (svc (final r)) = Some (AuthenticationResult.accessToken result)
  /\ tokenExpiryTime (svc (final r))
     = tokenExpiryTime (svc (setCachedToken result
                               (settle_env (clock s) (accountsThen s) h)))
  /\ tokenRefreshInterval (svc (final r)) = Some (nextTimer (env h))
  /\ timers (env (final r)) = {[ nextTimer (env h) ]} ∪ (timers (env h) ∖ ownTimer h).
Proof.
  intros Hi Hl Hf Hr s r. subst r s.
  unfold loginInteractive. rewrite Hi, Hl.
  unfold try_finally, try_catch, bind, await, popupRequest in *. simpl.
  rewrite Hf. simpl. rewrite Hr. simpl.
  unfold startTokenRefreshTimer, stopTokenRefreshTimer, ownTimer. simpl.
  destruct (tokenRefreshInterval (svc h)); simpl; repeat split.
  rewrite difference_empty_L. reflexivity.
Qed.

Lemma loginInteractive_popup_caches_and_arms_witness :
  let w := succeeding (demoResult "fresh" 3600000) 2000 [alice] in
  let r := run w 0 (loginInteractive (armedHeap 1000 500)) in
  outcome r = Some (Return (demoResult "fresh" 3600000))
  /\ tokenRefreshInterval (svc (final r)) = Some 2%positive
  /\ timers (env (final r)) = {[ 2%positive ]} ∪ ({[ 1%positive ]} ∖ {[ 1%positive ]}).
Proof.
  intros w r.
  destruct (loginInteractive_popup_caches_and_arms w 0 (armedHeap 1000 500)
              (msalConfig demoConfig) demoConfig (demoResult "fresh" 3600000)
              eq_refl eq_refl eq_refl eq_refl) as (Ho & _ & _ & _ & _ & Ht & Hs).
  auto.
Defined.

(** X7. An interactive login that the provider rejects with anything but
    the stuck-interaction error ends with the lock released and the
    service otherwise as it was (cache and timer untouched), having
    awaited the interactive request alone.  It throws the "cancelled"
    message for the [user_cancelled] and [popup_window_error] codes of a
    [BrowserAuthError], and the provider's error itself otherwise. *)
Theorem loginInteractive_failure_changes_nothing (w : World) (n : nat) (h : Heap)
    (inst : Configuration.t) (cfg : MsalAuthConfig.t) (e : Thrown) :
  ensureInitialized h = inr (inst, cfg) ->
  isLoginInProgress (svc h) = false ->
  interactiveRejected w n h cfg e ->
  interactionInProgress e = false ->
  let r := run w n (loginInteractive h) in
  outcome r = Some (Throw (classifyLogin e))
  /\ svc (final r) = svc h
  /\ timers (env (final r)) = timers (env h)
  /\ requests r = [interactiveRequest h cfg].
Proof.
  intros Hi Hl Hrej He r. subst r.
  assert (Hp : flowType (svc h) = popup ->
               reply (w n (popupRequest cfg)) = RejectedWith e).
  { intros Hf. unfold interactiveRejected in Hrej. rewrite Hf in Hrej. exact Hrej. }
  assert (Hr : flowType (svc h) = redirect ->
               reply (w n (redirectRequest cfg)) = RejectedWith e).
  { intros Hf. unfold interactiveRejected in Hrej. rewrite Hf in Hrej. exact Hrej. }
  clear Hrej.
  unfold loginInteractive. rewrite Hi, Hl.
  unfold try_finally, try_catch, bind, await, interactiveRequest,
    popupRequest, redirectRequest in *.
  unfold classifyLogin. rewrite He.
  unfold interactionInProgress in He.
  assert (Hsvc : forall c a, svc (set_isLoginInProgress false
                    (settle_env c a (set_isLoginInProgress true h))) = svc h).
  { intros c a. destruct h as [[] ?]. simpl in *. subst. reflexivity. }
  simpl. destruct (flowType (svc h)); simpl.
  - rewrite Hp by reflexivity. simpl.
    destruct (instanceofBrowserAuthError e); simpl in *.
    + rewrite He. destruct (_ || _); simpl; repeat split; apply (Hsvc 0%Z []).
    + repeat split; apply (Hsvc 0%Z []).
  - rewrite Hr by reflexivity. simpl.
    destruct (instanceofBrowserAuthError e); simpl in *.
    + rewrite He. destruct (_ || _); simpl; repeat split; apply (Hsvc 0%Z []).
    + repeat split; apply (Hsvc 0%Z []).
Qed.

Lemma loginInteractive_failure_changes_nothing_witness :
  let e := ErrorObject BrowserAuthError "user_cancelled" "User cancelled the flow." in
  let r := run (failing e 2000 [alice]) 0 (loginInteractive (armedHeap 1000 9000000)) in
  outcome r = Some (Throw (Error "Authentication was cancelled. Please try again."))
  /\ svc (final r) = svc (armedHeap 1000 9000000).
Proof.
  intros e r.
  destruct (loginInteractive_failure_changes_nothing (failing e 2000 [alice]) 0
              (armedHeap 1000 9000000) (msalConfig demoConfig) demoConfig e
              eq_refl eq_refl eq_refl eq_refl) as (Ho & Hs & _).
  auto.
Defined.

(** X8. Under the redirect flow [loginInteractive()] never returns a
    result: when the provider's redirect request is fulfilled it throws
    "Redirect initiated", and however the call ends it has not touched the
    renewal timer and has left the lock flag as it found it. *)
Theorem loginInteractive_redirect_never_returns (w : World) (n : nat) (h : Heap) :
  flowType (svc h) = redirect ->
  let r := run w n (loginInteractive h) in
  ended_with (noResultNoTimer h) r
  /\ (forall inst cfg,
        ensureInitialized h = inr (inst, cfg) ->
        isLoginInProgress (svc h) = false ->
        reply (w n (redirectRequest cfg)) = Fulfilled tt ->
        outcome r = Some (Throw (Error "Redirect initiated"))
        /\ requests r = [redirectRequest cfg]
        /\ svc (final r) = svc h).
Proof.
  intros Hf r. subst r. split.
  - apply post_run. unfold loginInteractive, noResultNoTimer.
    destruct (ensureInitialized h) as [e|[inst cfg]]; simpl.
    { repeat split; try discriminate; reflexivity. }
    destruct (isLoginInProgress (svc h)) eqn:Hl; simpl.
    { repeat split; try discriminate; try reflexivity; congruence. }
    rewrite Hf. unfold try_finally, try_catch, bind, await. simpl.
    intros [v|e] c a; simpl.
    + repeat split; try discriminate; try reflexivity; congruence.
    + destruct (instanceofBrowserAuthError e); simpl.
      * destruct (eqs (errorCode e) "interaction_in_progress"); simpl.
        -- intros [v|e'] c' a'; simpl; repeat split; try discriminate;
             try reflexivity; congruence.
        -- destruct (_ || _); simpl; repeat split; try discriminate;
             try reflexivity; congruence.
      * repeat split; try discriminate; try reflexivity; congruence.
  - intros inst cfg Hi Hl Hr. unfold loginInteractive. rewrite Hi, Hl.
    unfold try_finally, try_catch, bind, await, redirectRequest in *. simpl.
    rewrite Hf. simpl. rewrite Hr. simpl. repeat split.
    destruct h as [[] ?]. simpl in *. subst. reflexivity.
Qed.

Lemma loginInteractive_redirect_never_returns_witness :
  let r := run (succeeding (demoResult "t" 0) 2000 []) 0
             (loginInteractive (redirectHeap 1000 [])) in
  outcome r = Some (Throw (Error "Redirect initiated"))
  /\ requests r = [redirectRequest redirectConfig].
Proof.
  intros r.
  destruct (proj2 (loginInteractive_redirect_never_returns
                     (succeeding (demoResult "t" 0) 2000 []) 0
                     (redirectHeap 1000 []) eq_refl)
              (msalConfig redirectConfig) redirectConfig eq_refl eq_refl eq_refl)
    as (Ho & Hq & _).
  auto.
Defined.

(** ** Answers from the cache *)

Lemma acquireTokenSilent_hit h inst cfg tok expiry :
  ensureInitialized h = inr (inst, cfg) ->
  cacheHit h = Some (tok, expiry) ->
  acquireTokenSilent h = resolve (cachedResult tok expiry (head (accounts (env h)))) h.
Proof.
  intros Hi Hc. unfold acquireTokenSilent.
  rewrite Hi, Hc, (getCurrentAccount_initialized _ _ _ Hi). reflexivity.
Qed.

Lemma getAccessToken_hit fuel h inst cfg tok expiry :
  ensureInitialized h = inr (inst, cfg) ->
  cacheHit h = Some (tok, expiry) ->
  getAccessToken (S fuel) h = resolve tok h.
Proof.
  intros Hi Hc. simpl. rewrite (acquireTokenSilent_hit _ _ _ _ _ Hi Hc). reflexivity.
Qed.

Lemma cacheHit_fresh h tok expiry :
  cachedToken (svc h) = Some tok -> tokenExpiryTime (svc h) = Some expiry ->
  tok <> "" -> expiry <> 0%Z -> (now (env h) < expiry)%Z ->
  cacheHit h = Some (tok, expiry).
Proof.
  intros Ht He Hne Hz Hlt. unfold cacheHit, eqs. rewrite Ht, He.
  rewrite bool_decide_eq_false_2 by exact Hne.
  destruct (expiry =? 0)%Z eqn:Hz'; [apply Z.eqb_eq in Hz'; contradiction|].
  apply Z.ltb_lt in Hlt. rewrite Hlt. reflexivity.
Qed.

(** X9. After a popup login that succeeded with a non-empty token
    reported to expire at [E], [getAccessToken()] called at any time
    before [E - 300000] ms returns that token at once, awaiting nothing
    and changing nothing, whatever accounts the provider lists then. *)
Theorem getAccessToken_after_login (w w' : World) (n n' fuel : nat) (h : Heap)
    (inst : Configuration.t) (cfg : MsalAuthConfig.t)
    (result : AuthenticationResult.t) (E t : Z) (accts : list AccountInfo) :
  ensureInitialized h = inr (inst, cfg) ->
  isLoginInProgress (svc h) = false ->
  flowType (svc h) = popup ->
  reply (w n (popupRequest cfg)) = Fulfilled result ->
  AuthenticationResult.expiresOn result = Some E ->
  E <> 0%Z -> (E - 300000)%Z <> 0%Z ->
  AuthenticationResult.accessToken result <> "" ->
  (t < E - 300000)%Z ->
  let later := settle_env t accts (final (run w n (loginInteractive h))) in
  run w' n' (getAccessToken (S fuel) later)
  = immediate (Return (AuthenticationResult.accessToken result)) later.
Proof.
  intros Hi Hl Hf Hr HE HE0 HEl Hne Hlt later.
  assert (Hfin : final (run w n (loginInteractive h))
                 = set_isLoginInProgress false (startTokenRefreshTimer
                     (setCachedToken result
                        (settle_env (clock (w n (popupRequest cfg)))
                           (accountsThen (w n (popupRequest cfg)))
                           (set_isLoginInProgress true h))))).
  { unfold loginInteractive. rewrite Hi, Hl.
    unfold try_finally, try_catch, bind, await, popupRequest in *. simpl.
    rewrite Hf. simpl. rewrite Hr. reflexivity. }
  assert (Hini : ensureInitialized later = inr (inst, cfg)).
  { subst later. rewrite Hfin, <- Hi.
    apply ensureInitialized_frame;
      unfold startTokenRefreshTimer, stopTokenRefreshTimer; simpl;
      destruct (tokenRefreshInterval (svc h)); reflexivity. }
  assert (Hhit : cacheHit later
                 = Some (AuthenticationResult.accessToken result, (E - 300000)%Z)).
  { apply cacheHit_fresh; try assumption; subst later; rewrite Hfin;
      unfold startTokenRefreshTimer, stopTokenRefreshTimer, setCachedToken;
      rewrite ?HE; simpl.
    - destruct (tokenRefreshInterval (svc h)); reflexivity.
    - destruct (E =? 0)%Z eqn:Hz; [apply Z.eqb_eq in Hz; contradiction|].
      destruct (tokenRefreshInterval (svc h)); reflexivity. }
  rewrite (getAccessToken_hit fuel later inst cfg _ _ Hini Hhit). reflexivity.
Qed.

Lemma getAccessToken_after_login_witness :
  let w := succeeding (demoResult "fresh" 3600000) 2000 [alice] in
  let later := settle_env 3000000 [] (final (run w 0 (loginInteractive (readyHeap 1000 [])))) in
  run (failing networkError 0 []) 0 (getAccessToken 1 later)
  = immediate (Return "fresh") later.
Proof.
  intros w later.
  apply (getAccessToken_after_login w (failing networkError 0 []) 0 0 0
           (readyHeap 1000 []) (msalConfig demoConfig) demoConfig
           (demoResult "fresh" 3600000) 3600000 3000000 []);
    try reflexivity; discriminate.
Defined.

(** X10. A firing of the renewal timer inside the cache window does not
    reach the provider: with an account listed and the cached token still
    in its window, the callback awaits nothing and leaves the heap as it
    is. *)
Theorem refreshTick_within_window_is_silent (w : World) (n : nat) (h : Heap)
    (inst : Configuration.t) (cfg : MsalAuthConfig.t) (tok : string) (expiry : Z) :
  ensureInitialized h = inr (inst, cfg) ->
  accounts (env h) <> [] ->
  cacheHit h = Some (tok, expiry) ->
  run w n (refreshTick h) = immediate (Return tt) h.
Proof.
  intros Hi Ha Hc. unfold refreshTick, isLoggedIn, getAllAccounts. rewrite Hi.
  destruct (accounts (env h)) as [|a rest] eqn:Hacc; [contradiction|]. simpl.
  rewrite (acquireTokenSilent_hit _ _ _ _ _ Hi Hc). reflexivity.
Qed.

Lemma refreshTick_within_window_is_silent_witness :
  run (failing networkError 0 []) 0 (refreshTick (armedHeap 1800000 3300000))
  = immediate (Return tt) (armedHeap 1800000 3300000).
Proof.
  apply (refreshTick_within_window_is_silent (failing networkError 0 []) 0
           (armedHeap 1800000 3300000) (msalConfig demoConfig) demoConfig
           "tok" 3300000); [reflexivity|discriminate|reflexivity].
Defined.

(** ** Forced refresh and escalation *)

Lemma cacheHit_cleared h : cacheHit (clearCachedToken h) = None.
Proof. reflexivity. Qed.

(** X11. [forceRefreshToken()] never answers from the cache.  With an
    account listed it first awaits the provider's silent acquisition,
    whatever was cached, and returns the token the provider then gives;
    and in no case does it return a token without having awaited the
    provider. *)
Theorem forceRefreshToken_asks_provider (w : World) (n fuel : nat) (h : Heap) :
  let r := run w n (forceRefreshToken fuel h) in
  (forall tok, outcome r = Some (Return tok) -> requests r <> [])
  /\ (forall inst cfg account rest result,
        ensureInitialized h = inr (inst, cfg) ->
        accounts (env h) = account :: rest ->
        reply (w n (silentRequest cfg account)) = Fulfilled result ->
        run w n (forceRefreshToken (S fuel) h)
        = {| outcome := Some (Return (AuthenticationResult.accessToken result));
             final := setCachedToken result
                        (settle_env (clock (w n (silentRequest cfg account)))
                           (accountsThen (w n (silentRequest cfg account)))
                           (clearCachedToken h));
             requests := [silentRequest cfg account] |}).
Proof.
  intros r. split.
  - subst r. unfold forceRefreshToken. destruct fuel as [|fuel]; [discriminate|].
    intros tok. rewrite getAccessToken_unfold. unfold acquireTokenSilent.
    rewrite cacheHit_cleared.
    destruct (ensureInitialized (clearCachedToken h)) as [e|[inst cfg]] eqn:Hi.
    { apply ensureInitialized_inl in Hi. subst e. simpl. discriminate. }
    rewrite (getCurrentAccount_initialized _ _ _ Hi).
    destruct (head (accounts (env (clearCachedToken h)))) as [account|].
    + unfold try_catch, bind, await. simpl. discriminate.
    + simpl. unfold loginInteractive. rewrite Hi.
      destruct (isLoginInProgress (svc (clearCachedToken h))); simpl; [discriminate|].
      unfold try_finally, try_catch, bind, await. simpl.
      destruct (flowType (svc h)); simpl; discriminate.
  - intros inst cfg account rest result Hi Ha Hr.
    unfold forceRefreshToken. rewrite getAccessToken_unfold. unfold acquireTokenSilent.
    rewrite cacheHit_cleared.
    assert (Hi' : ensureInitialized (clearCachedToken h) = inr (inst, cfg)).
    { rewrite <- Hi. apply ensureInitialized_frame; reflexivity. }
    rewrite Hi', (getCurrentAccount_initialized _ _ _ Hi'). simpl accounts.
    rewrite Ha. unfold try_catch, bind, await, silentRequest in *. simpl.
    rewrite Hr. reflexivity.
Qed.

Lemma forceRefreshToken_asks_provider_witness :
  let w := succeeding (demoResult "newer" 7200000) 2000 [alice] in
  outcome (run w 0 (forceRefreshToken 1 (armedHeap 1000 3300000)))
  = Some (Return "newer")
  /\ requests (run w 0 (forceRefreshToken 1 (armedHeap 1000 3300000)))
     = [silentRequest demoConfig alice].
Proof.
  intros w.
  rewrite (proj2 (forceRefreshToken_asks_provider w 0 0 (armedHeap 1000 3300000))
             (msalConfig demoConfig) demoConfig alice [] (demoResult "newer" 7200000)
             eq_refl eq_refl eq_refl).
  split; reflexivity.
Defined.

(** X12. When the provider rejects the silent acquisition with anything
    but the stuck-interaction error, [getAccessToken()] goes on with one
    [loginInteractive()] call on the heap as the rejection left it: it
    awaits the silent request and then what that call awaits, ends as
    that call ends, and returns the token of its result. *)
Theorem getAccessToken_escalates_after_rejection (w : World) (n fuel : nat) (h : Heap)
    (inst : Configuration.t) (cfg : MsalAuthConfig.t) (account : AccountInfo)
    (rest : list AccountInfo) (e : Thrown) :
  ensureInitialized h = inr (inst, cfg) ->
  cacheHit h = None ->
  accounts (env h) = account :: rest ->
  reply (w n (silentRequest cfg account)) = RejectedWith e ->
  interactionInProgress e = false ->
  let s := w n (silentRequest cfg account) in
  let l := run w (S n) (loginInteractive (settle_env (clock s) (accountsThen s) h)) in
  let r := run w n (getAccessToken (S fuel) h) in
  requests r = silentRequest cfg account :: requests l
  /\ final r = final l
  /\ outcome r = tokenOf (outcome l)
  /\ interactiveAttempts r = (if isLoginInProgress (svc h) then 0 else 1).
Proof.
  intros Hi Hc Ha Hr He s l r.
  set (h1 := settle_env (clock s) (accountsThen s) h).
  assert (Hi1 : ensureInitialized h1 = inr (inst, cfg)).
  { rewrite <- Hi. apply ensureInitialized_frame; reflexivity. }
  assert (Hrun : r = issued (silentRequest cfg account)
                   (run w (S n) (bind (loginInteractive h1)
                      (fun result h' =>
                         resolve (AuthenticationResult.accessToken result) h')))).
  { subst r. rewrite getAccessToken_unfold. unfold acquireTokenSilent.
    rewrite Hi, Hc, (getCurrentAccount_initialized _ _ _ Hi), Ha.
    unfold try_catch, bind, await. simpl.
    change (AcquireTokenSilent (MsalAuthConfig.scopes cfg) account false)
      with (silentRequest cfg account).
    rewrite Hr. simpl.
    unfold interactionInProgress in He. rewrite He. simpl.
    destruct (instanceofInteractionRequiredAuthError e); reflexivity. }
  assert (Hb : run w (S n) (bind (loginInteractive h1)
                      (fun result h' =>
                         resolve (AuthenticationResult.accessToken result) h'))
               = {| outcome := tokenOf (outcome l); final := final l;
                    requests := requests l |}).
  { assert (Hl : run w (S n) (loginInteractive h1) = l) by reflexivity.
    unfold bind. rewrite run_andThen, Hl. unfold continued.
    destruct (outcome l) as [[a|e']|]; simpl; rewrite ?app_nil_r; reflexivity. }
  rewrite Hrun, Hb. simpl. repeat split.
  unfold interactiveAttempts. simpl.
  pose proof (loginInteractive_attempts w (S n) h1 inst cfg Hi1) as Hat.
  exact Hat.
Qed.

Lemma getAccessToken_escalates_after_rejection_witness :
  let e := ErrorObject InteractionRequiredAuthError "interaction_required" "consent" in
  let w : World := fun n q => if (n <? 1)%nat then failing e 2000 [alice] n q
                              else succeeding (demoResult "fresh" 3600000) 3000 [alice] n q in
  outcome (run w 0 (getAccessToken 1 (readyHeap 1000 [alice]))) = Some (Return "fresh")
  /\ interactiveAttempts (run w 0 (getAccessToken 1 (readyHeap 1000 [alice]))) = 1.
Proof.
  intros e w.
  destruct (getAccessToken_escalates_after_rejection w 0 0 (readyHeap 1000 [alice])
              (msalConfig demoConfig) demoConfig alice [] e
              eq_refl eq_refl eq_refl eq_refl eq_refl) as (_ & _ & Ho & Ha).
  split; [exact Ho|exact Ha].
Defined.

(** ** Before initialization *)

(** X13. Until [initialize] has run, and again after
    [clearAuthenticationState()], the service does nothing: silent
    acquisition, interactive login, logout and [getAccessToken()] throw the
    not-initialized error at once (no escalation to a login), awaiting
    nothing and leaving the heap as it is; [forceRefreshToken()] does the
    same after it has cleared the cache; a firing of the renewal timer
    swallows the error. *)
Theorem uninitialized_service_does_nothing (w : World) (n fuel : nat) (h : Heap) :
  isInitialized (svc h) = false ->
  run w n (acquireTokenSilent h) = immediate (Throw notInitialized) h
  /\ run w n (loginInteractive h) = immediate (Throw notInitialized) h
  /\ run w n (logout h) = immediate (Throw notInitialized) h
  /\ run w n (getAccessToken (S fuel) h) = immediate (Throw notInitialized) h
  /\ run w n (forceRefreshToken (S fuel) h)
     = immediate (Throw notInitialized) (clearCachedToken h)
  /\ run w n (refreshTick h) = immediate (Return tt) h.
Proof.
  intros Hi.
  assert (He : forall h', isInitialized (svc h') = false ->
                 ensureInitialized h' = inl notInitialized).
  { intros h' H'. unfold ensureInitialized. rewrite H'. reflexivity. }
  assert (Hs : forall h', isInitialized (svc h') = false ->
                 acquireTokenSilent h' = reject notInitialized h').
  { intros h' H'. unfold acquireTokenSilent. rewrite (He h' H'). reflexivity. }
  assert (Hg : forall h', isInitialized (svc h') = false ->
                 getAccessToken (S fuel) h' = reject notInitialized h').
  { intros h' H'. simpl. rewrite (Hs h' H'). reflexivity. }
  repeat split.
  - rewrite (Hs h Hi). reflexivity.
  - unfold loginInteractive. rewrite (He h Hi). reflexivity.
  - unfold logout. rewrite (He h Hi). reflexivity.
  - rewrite (Hg h Hi). reflexivity.
  - unfold forceRefreshToken. rewrite Hg by exact Hi. reflexivity.
  - unfold refreshTick, isLoggedIn, getAllAccounts. rewrite (He h Hi). reflexivity.
Qed.

Lemma uninitialized_service_does_nothing_witness :
  let h := final (run (succeeding (demoResult "t" 0) 0 []) 0
                    (clearAuthenticationState (armedHeap 1000 9000000))) in
  run (succeeding (demoResult "t" 0) 0 []) 0 (getAccessToken 1 h)
  = immediate (Throw notInitialized) h.
Proof.
  intros h.
  apply (uninitialized_service_does_nothing (succeeding (demoResult "t" 0) 0 []) 0 0 h).
  reflexivity.
Defined.

(** ** One armed interval *)

(** X14. The service never leaks an interval: if the only armed interval
    is the one whose handle it holds, this is still so whenever one of its
    methods stops, at an [await] or at its end, whatever the provider
    does.  In particular arming the timer again disarms the previous
    interval. *)
Theorem service_owns_the_only_interval (cfg : MsalAuthConfig.t) (fuel : nat) (h : Heap) :
  timerOwned h ->
  maintains timerOwned (initialize cfg h)
  /\ maintains timerOwned (acquireTokenSilent h)
  /\ maintains timerOwned (loginInteractive h)
  /\ maintains timerOwned (getAccessToken fuel h)
  /\ maintains timerOwned (forceRefreshToken fuel h)
  /\ maintains timerOwned (logout h)
  /\ maintains timerOwned (clearAuthenticationState h)
  /\ maintains timerOwned (refreshTick h)
  /\ timerOwned (startTokenRefreshTimer (startTokenRefreshTimer h)).
Proof.
  intros H. repeat split.
  - apply timerOwned_initialize, H.
  - apply timerOwned_acquireTokenSilent, H.
  - apply timerOwned_loginInteractive, H.
  - apply timerOwned_getAccessToken, H.
  - apply timerOwned_getAccessToken.
    refine (timerOwned_frame h _ _ _ H); reflexivity.
  - apply timerOwned_logout, H.
  - apply (timerOwned_clearAuthenticationState (fun _ q => succeeding (demoResult "" 0) 0 [] 0 q) 0 h H).
  - apply timerOwned_refreshTick, H.
  - apply timerOwned_start, timerOwned_start, H.
Qed.

Lemma service_owns_the_only_interval_witness :
  timerOwned (final (run (succeeding (demoResult "fresh" 3600000) 2000 [alice]) 0
                       (loginInteractive (armedHeap 1000 500)))).
Proof.
  apply maintains_run.
  - apply timerOwned_world.
  - apply (service_owns_the_only_interval demoConfig 1 (armedHeap 1000 500)).
    reflexivity.
Defined.

(** * Properties of the React hook and wrapper *)

(** ** The initialisation effect *)

Lemma post_initialize_effect cfg onAuthSuccess fuel st h :
  post (returnsState settledState)
    (useAuthentication_initialize cfg onAuthSuccess fuel st h).
Proof.
  unfold useAuthentication_initialize, try_catch.
  apply post_andThen with
    (Q1 := fun o _ => forall st', o = Return st' -> settledState st').
  2:{ intros [st'|e] h' Hs; simpl.
      - exists st'. split; [reflexivity|]. apply Hs. reflexivity.
      - eexists. split; [reflexivity|]. split; [reflexivity|left; reflexivity]. }
  unfold bind.
  apply post_andThen with (Q1 := fun _ _ => True); [apply post_trivial|].
  intros [u|e] h1 _; simpl; [|discriminate].
  apply post_andThen with
    (Q1 := fun o _ => forall st3, o = Return st3 ->
             AuthenticationState.needsLogin st3 = true
             \/ AuthenticationState.isAuthenticated st3 = true).
  - destruct (isLoggedIn h1) as [e|[|]]; simpl.
    + discriminate.
    + apply post_andThen with (Q1 := fun _ _ => True); [apply post_trivial|].
      intros [token|e] h2 _; simpl.
      * destruct onAuthSuccess; simpl.
        -- intros [v|e] c a; simpl; intros st3 [= <-]; auto.
        -- intros st3 [= <-]. auto.
      * intros st3 [= <-]. auto.
    + intros st3 [= <-]. auto.
  - intros [st3|e] h2 H3; simpl; [|discriminate].
    intros st' [= <-]. split; [reflexivity|]. apply (H3 st3 eq_refl).
Qed.





(** ** What the wrapper renders *)

(** X16. The default wrapper (no [wrapperComponent]) renders the children
    exactly when the snapshot is not initializing and it is not the case
    that a login is needed and nobody is authenticated.  So after the
    initialisation effect has ended, whatever the provider did, the
    children are rendered only to an authenticated snapshot, and the
    loading view is not rendered. *)
Theorem children_rendered_only_when_authenticated (w : World) (n fuel : nat)
    (cfg : MsalAuthConfig.t) (onAuthSuccess : bool) (st : AuthenticationState.t)
    (h : Heap) (props : WrapperProps) :
  wrapperComponent props = false ->
  (forall st', AuthenticationWrapper props st' = ChildrenView (showAuthStatus props)
               <-> AuthenticationState.isInitializing st' = false
                   /\ (AuthenticationState.needsLogin st'
                       && negb (AuthenticationState.isAuthenticated st')) = false)
  /\ ended_with
       (returnsState (fun st' =>
          (forall bar, AuthenticationWrapper props st' = ChildrenView bar ->
                       AuthenticationState.isAuthenticated st' = true)
          /\ forall custom, AuthenticationWrapper props st' <> LoadingView custom))
       (run w n (useAuthentication_initialize cfg onAuthSuccess fuel st h)).
Proof.
  intros Hw. split.
  - intros st'. unfold AuthenticationWrapper. rewrite Hw.
    destruct (AuthenticationState.isInitializing st').
    { split; [discriminate|intros [? _]; discriminate]. }
    destruct (AuthenticationState.needsLogin st' && _).
    + split; [|intros [_ ?]; discriminate].
      destruct (loginComponent props); [discriminate|].
      destruct (AuthenticationState.authError st') as [err|]; [|discriminate].
      destruct (errorComponent props && _); discriminate.
    + split; auto.
  - pose proof (post_run _ _ (post_initialize_effect cfg onAuthSuccess fuel st h) w n)
      as He.
    unfold ended_with in *.
    destruct (outcome _) as [o|]; [|exact I].
    destruct He as (st' & -> & Hi & Hs). exists st'. split; [reflexivity|].
    unfold AuthenticationWrapper. rewrite Hw, Hi. split.
    + intros bar.
      destruct (AuthenticationState.isAuthenticated st'); [reflexivity|].
      destruct Hs as [Hn|Ha]; [|discriminate]. rewrite Hn. simpl.
      destruct (loginComponent props); [discriminate|].
      destruct (AuthenticationState.authError st') as [err|]; [|discriminate].
      destruct (errorComponent props && _); discriminate.
    + intros custom.
      destruct (AuthenticationState.needsLogin st' && _); [|discriminate].
      destruct (loginComponent props); [discriminate|].
      destruct (AuthenticationState.authError st') as [err|]; [|discriminate].
      destruct (errorComponent props && _); discriminate.
Qed.

Lemma children_rendered_only_when_authenticated_witness :
  AuthenticationWrapper defaultProps (initialAuthState false) = LoadingView false
  /\ (AuthenticationWrapper defaultProps (signedOut (initialAuthState false))
      = ChildrenView false
      <-> AuthenticationState.isInitializing (signedOut (initialAuthState false)) = false
          /\ (AuthenticationState.needsLogin (signedOut (initialAuthState false))
              && negb (AuthenticationState.isAuthenticated
                         (signedOut (initialAuthState false)))) = false).
Proof.
  split; [reflexivity|].
  apply (proj1 (children_rendered_only_when_authenticated
                  (succeeding (demoResult "t" 0) 0 []) 0 1 demoConfig false
                  (initialAuthState false) freshHeap defaultProps eq_refl)).
Defined.

(** ** The actions of the hook *)


(** X18. The provider's stuck-interaction error does not make
    [handleLogin] clear the authentication state: [loginInteractive()] has
    replaced it by its own "window was closed or interrupted" error, whose
    message does not contain "interaction_in_progress".  The snapshot
    shows that message and keeps its session fields, and the service
    stays initialized (its cache cleared by the recovery). *)
Theorem handleLogin_stuck_interaction_does_not_clear (w : World) (n : nat)
    (st : AuthenticationState.t) (h : Heap) (inst : Configuration.t)
    (cfg : MsalAuthConfig.t) (e : Thrown) :
  ensureInitialized h = inr (inst, cfg) ->
  isLoginInProgress (svc h) = false ->
  interactiveRejected w n h cfg e ->
  interactionInProgress e = true ->
  sleepsElapse w ->
  let r := run w n (handleLogin false st h) in
  ended_with (returnsState
    (actionFailed "Authentication window was closed or interrupted. Please try again."
       st)) r
  /\ requests r = [interactiveRequest h cfg; SetTimeout 2000]
  /\ ensureInitialized (final r) = inr (inst, cfg)
  /\ cachedToken (svc (final r)) = None
  /\ isLoginInProgress (svc (final r)) = false.
Proof.
  intros Hi Hl Hrej He Hs r. subst r.
  unfold handleLogin, loginInteractive. rewrite Hi, Hl.
  unfold try_finally, try_catch, bind, await, interactiveRequest, interactiveRejected,
    popupRequest, redirectRequest in *.
  unfold interactionInProgress in He. apply andb_true_iff in He. destruct He as [Hb Hcode].
  assert (Hini : forall c a c' a',
    ensureInitialized (set_isLoginInProgress false (settle_env c' a'
      (clearCachedToken (set_isLoginInProgress false (settle_env c a
         (set_isLoginInProgress true h)))))) = inr (inst, cfg)).
  { intros. rewrite <- Hi. apply ensureInitialized_frame; reflexivity. }
  simpl. destruct (flowType (svc h)); simpl; rewrite Hrej; simpl;
    rewrite Hb, Hcode; simpl; rewrite (Hs (S n) 2000%Z); simpl;
    unfold ended_with; simpl.
  - split; [eexists; split; [reflexivity|repeat split]|].
    split; [reflexivity|]. split; [apply Hini|]. split; reflexivity.
  - split; [eexists; split; [reflexivity|repeat split]|].
    split; [reflexivity|]. split; [apply Hini|]. split; reflexivity.
Qed.

Lemma handleLogin_stuck_interaction_does_not_clear_witness :
  let r := run (failing stuckError 2000 [alice]) 0
             (handleLogin false (authenticatedState "old") (armedHeap 1000 9000000)) in
  ended_with (returnsState
    (actionFailed "Authentication window was closed or interrupted. Please try again."
       (authenticatedState "old"))) r
  /\ isInitialized (svc (final r)) = true.
Proof.
  intros r.
  destruct (handleLogin_stuck_interaction_does_not_clear (failing stuckError 2000 [alice])
              0 (authenticatedState "old") (armedHeap 1000 9000000)
              (msalConfig demoConfig) demoConfig stuckError
              eq_refl eq_refl eq_refl eq_refl) as (He & _ & Hi & _).
  - intros n ms. reflexivity.
  - split; [exact He|].
    apply ensureInitialized_inr in Hi. tauto.
Defined.

(** X19. [handleLogout] makes one [logout()] call and never throws.  When
    the call returns, the snapshot is signed out (not authenticated,
    login needed, no token, no error); when it throws, the snapshot shows
    the error's message and stays as authenticated as it was, token
    included.  [isInitializing] is false at the end either way. *)
Theorem handleLogout_reports_the_logout (w : World) (n : nat)
    (st : AuthenticationState.t) (h : Heap) :
  let l := run w n (logout h) in
  let r := run w n (handleLogout st h) in
  requests r = requests l
  /\ final r = final l
  /\ match outcome l with
     | Some (Return _) => ended_with (returnsState isSignedOut) r
     | Some (Throw e) =>
         ended_with (returnsState
           (actionFailed (if instanceofError e then message e else "Logout failed") st)) r
     | None => False
     end.
Proof.
  intros l r. subst r. unfold handleLogout. rewrite run_andThen. fold l.
  unfold continued, ended_with.
  destruct (completes_run w _ (completes_logout h) n) as [o Ho].
  fold l in Ho. rewrite Ho.
  destruct o as [u|e]; simpl; rewrite app_nil_r;
    (split; [reflexivity|]); (split; [reflexivity|]);
    eexists; (split; [reflexivity|]); repeat split.
Qed.

(** X20. [handleClearAuthState] never throws and always ends with the
    signed-out snapshot and the service reset.  After it, the sign-in
    button cannot log in until [initialize] has run again: [handleLogin]
    awaits nothing, leaves the service as it is, and reports the
    not-initialized error. *)
Theorem handleClearAuthState_disables_login (w w' : World) (n n' : nat)
    (st : AuthenticationState.t) (h : Heap) :
  let c := run w n (handleClearAuthState st h) in
  requests c = []
  /\ outcome c = Some (Return (doneInitializing (signedOut (beginAction st))))
  /\ isSignedOut (doneInitializing (signedOut (beginAction st)))
  /\ final c = final (run w n (clearAuthenticationState h))
  /\ forall st',
       run w' n' (handleLogin false st' (final c))
       = immediate
           (Return (doneInitializing
                      (withAuthError "MSAL not initialized. Call initialize() first."
                         (beginAction st'))))
           (final c).
Proof.
  intros c. subst c. unfold handleClearAuthState, handleClearAuthState_during. simpl.
  split; [reflexivity|]. split; [reflexivity|]. split; [repeat split|].
  split; [reflexivity|]. intros st'.
  unfold handleLogin, loginInteractive, ensureInitialized. simpl. reflexivity.
Qed.






(** ** The Angular service *)







(** X25. The Angular [logout()] makes one core [logout()] call and settles
    as that call does.  When the call returns, the subject is signed out
    and the promise fulfilled; when it throws, the subject shows the
    error's message, stays as authenticated as it was with its token, and
    the promise is rejected with that very error. *)
Theorem angular_logout_rethrows (w : World) (n : nat)
    (st : AuthenticationState.t) (h : Heap) :
  let l := run w n (logout h) in
  let r := run w n (Angular.logout st h) in
  requests r = requests l
  /\ final r = final l
  /\ match outcome l with
     | Some (Return _) =>
         exists st', outcome r = Some (Return {| subject := st'; thrown := None |})
           /\ isSignedOut st'
     | Some (Throw e) =>
         exists st', outcome r = Some (Return {| subject := st'; thrown := Some e |})
           /\ actionFailed (if instanceofError e then message e else "Logout failed")
                st st'
     | None => False
     end.
Proof.
  intros l r. subst r. unfold Angular.logout. rewrite run_andThen. fold l.
  unfold continued.
  destruct (completes_run w _ (completes_logout h) n) as [o Ho].
  fold l in Ho. rewrite Ho.
  destruct o as [u|e]; simpl; rewrite app_nil_r;
    (split; [reflexivity|]); (split; [reflexivity|]);
    eexists; (split; [reflexivity|]); repeat split.
Qed.

(** ** The route guard *)

Lemma completes_angular_login st h : completes (Angular.login st h).
Proof.
  unfold Angular.login. apply completes_andThen.
  - apply completes_loginInteractive.
  - intros [result|e] h'; exact I.
Qed.

Lemma completes_checkAuth url st h : completes (checkAuth url st h).
Proof.
  unfold checkAuth.
  destruct (AuthenticationState.isAuthenticated st); [exact I|].
  destruct (AuthenticationState.needsLogin st); [|exact I].
  apply completes_andThen; [apply completes_angular_login|].
  intros [e|e] h'; [destruct (thrown e)|]; exact I.
Qed.


(** What the guard may answer from the subject value [st] for [url]. *)
Lemma post_checkAuth url st h :
  post (fun o _ =>
          exists st' a, o = Return (st', a)
            /\ match a with
               | Activate => AuthenticationState.isAuthenticated st' = true
               | Refuse =>
                   st' = st
                   /\ AuthenticationState.isAuthenticated st = false
                   /\ AuthenticationState.needsLogin st = false
               | RedirectToLogin returnUrl =>
                   returnUrl = url
                   /\ AuthenticationState.isAuthenticated st' = false
                   /\ AuthenticationState.isInitializing st' = false
                   /\ AuthenticationState.authError st' <> None
               end)
       (checkAuth url st h).
Proof.
  unfold checkAuth.
  destruct (AuthenticationState.isAuthenticated st) eqn:Ha; simpl.
  { exists st, Activate. auto. }
  destruct (AuthenticationState.needsLogin st) eqn:Hn; simpl.
  2:{ exists st, Refuse. auto. }
  apply post_andThen with
    (Q1 := fun o _ =>
       exists e, o = Return e
         /\ match thrown e with
            | None => AuthenticationState.isAuthenticated (subject e) = true
            | Some _ =>
                AuthenticationState.isAuthenticated (subject e) = false
                /\ AuthenticationState.isInitializing (subject e) = false
                /\ AuthenticationState.authError (subject e) <> None
            end).
  - unfold Angular.login.
    apply post_andThen with (Q1 := fun _ _ => True); [apply post_trivial|].
    intros [result|e] h1 _; simpl.
    + eexists. split; reflexivity.
    + eexists. split; [reflexivity|]. simpl. repeat split; auto; discriminate.
  - intros o h1 (e & -> & He). destruct (thrown e); simpl.
    + exists (subject e), (RedirectToLogin url). split; [reflexivity|]. tauto.
    + exists (subject e), Activate. split; [reflexivity|exact He].
Qed.

(** X26. The route guard never rejects and never lets an unauthenticated
    subject through: when [canActivate] answers [true], the subject it
    leaves is authenticated.  An authenticated subject is let through at
    once, the provider asked nothing.  The guard answers [false] exactly
    for a subject that is neither authenticated nor in need of a login,
    which it leaves as it is, having asked the provider nothing.  It
    answers with a [UrlTree] only for an unauthenticated subject in need
    of a login; the tree's [returnUrl] is the guarded URL and the
    subject, still unauthenticated, shows an error. *)
Theorem guard_activates_only_authenticated (w : World) (n : nat) (url : string)
    (st : AuthenticationState.t) (h : Heap) :
  let r := run w n (canActivate url st h) in
  exists st' a,
    outcome r = Some (Return (st', a))
    /\ match a with
       | Activate => AuthenticationState.isAuthenticated st' = true
       | Refuse =>
           AuthenticationState.isAuthenticated st = false
           /\ AuthenticationState.needsLogin st = false
           /\ st' = st /\ requests r = [] /\ final r = h
       | RedirectToLogin returnUrl =>
           AuthenticationState.isAuthenticated st = false
           /\ AuthenticationState.needsLogin st = true
           /\ returnUrl = url
           /\ AuthenticationState.isAuthenticated st' = false
           /\ AuthenticationState.authError st' <> None
       end
    /\ (AuthenticationState.isAuthenticated st = true ->
        a = Activate /\ st' = st /\ requests r = [] /\ final r = h)
    /\ (AuthenticationState.isAuthenticated st = false ->
        AuthenticationState.needsLogin st = false -> a = Refuse).
Proof.
  intros r. subst r. unfold canActivate.
  destruct (completes_run w _ (completes_checkAuth url st h) n) as [o Ho].
  pose proof (post_run _ _ (post_checkAuth url st h) w n) as Hp.
  unfold ended_with in Hp. rewrite Ho in Hp.
  destruct Hp as (st' & a & -> & Ha).
  exists st', a. split; [exact Ho|].
  unfold checkAuth in *.
  destruct (AuthenticationState.isAuthenticated st) eqn:Hau.
  { simpl in Ho. injection Ho as <- <-. simpl.
    split; [exact Hau|]. split; [intros _; auto|intros; congruence]. }
  destruct (AuthenticationState.needsLogin st) eqn:Hn.
  2:{ simpl in Ho. injection Ho as <- <-. simpl.
      split; [auto 6|]. split; [intros; congruence|auto]. }
  destruct a as [| |u].
  - split; [exact Ha|]. split; intros; congruence.
  - destruct Ha as (_ & _ & Hn'). discriminate.
  - split; [|split; intros; congruence]. repeat split; tauto.
Qed.



(** ** The HTTP interceptor *)

Lemma prefix_app (sub post : string) : String.prefix sub (sub +:+ post) = true.
Proof.
  induction sub as [|a sub IH]; simpl.
  - destruct post; reflexivity.
  - destruct (Ascii.ascii_dec a a); [exact IH|congruence].
Qed.

Lemma includes_prefix (key sub : string) :
  String.prefix sub key = true -> includes key sub = true.
Proof.
  intros H. destruct key.
  - destruct sub; [reflexivity|discriminate].
  - change (String.prefix sub (String a key) || includes key sub = true).
    rewrite H. reflexivity.
Qed.

Lemma includes_app (pre sub post : string) :
  includes (pre +:+ sub +:+ post) sub = true.
Proof.
  induction pre as [|a pre IH].
  - apply includes_prefix. exact (prefix_app sub post).
  - change (String.prefix sub (String a (pre +:+ sub +:+ post))
            || includes (pre +:+ sub +:+ post) sub = true).
    rewrite IH. apply orb_true_r.
Qed.

(** X28. A request whose URL contains "login.microsoftonline.com" or
    "graph.microsoft.com" anywhere, be it in its path or its query string,
    is handed on as it came: no token is acquired, no header set, and the
    service is not touched. *)
Theorem intercept_skips_identity_providers (w : World) (n fuel : nat)
    (pre host post : string) (h : Heap) :
  In host ["login.microsoftonline.com"; "graph.microsoft.com"] ->
  let url := pre +:+ host +:+ post in
  run w n (intercept fuel url h)
  = immediate (Return {| handledUrl := url; setHeaders := [] |}) h.
Proof.
  intros Hin url. unfold intercept.
  assert (Hs : shouldSkipAuth url = true).
  { unfold shouldSkipAuth, url. simpl.
    destruct Hin as [<-|[<-|[]]]; rewrite includes_app; simpl;
      [reflexivity|apply orb_true_r]. }
  rewrite Hs. reflexivity.
Qed.

Lemma intercept_skips_identity_providers_witness :
  run (failing networkError 0 []) 0
    (intercept 1 "https://api.example.com/items?next=graph.microsoft.com/me"
       freshHeap)
  = immediate
      (Return {| handledUrl := "https://api.example.com/items?next=graph.microsoft.com/me";
                 setHeaders := [] |})
      freshHeap.
Proof.
  exact (intercept_skips_identity_providers (failing networkError 0 []) 0 1
           "https://api.example.com/items?next=" "graph.microsoft.com" "/me"
           freshHeap (or_intror (or_introl eq_refl))).
Defined.

(** X29. For any other URL the interceptor makes one [getAccessToken()]
    call and nothing else.  When the call returns a token, the request is
    handed on with the single header [Authorization] set to "Bearer "
    followed by that token; when it throws, nothing is handed on and the
    error comes out unchanged. *)
Theorem intercept_attaches_bearer (w : World) (n fuel : nat) (url : string)
    (h : Heap) :
  shouldSkipAuth url = false ->
  let g := run w n (getAccessToken fuel h) in
  let r := run w n (intercept fuel url h) in
  requests r = requests g
  /\ final r = final g
  /\ outcome r
     = match outcome g with
       | Some (Return token) =>
           Some (Return {| handledUrl := url;
                           setHeaders := [("Authorization", "Bearer " +:+ token)] |})
       | Some (Throw e) => Some (Throw e)
       | None => None
       end.
Proof.
  intros Hs g r. subst r. unfold intercept. rewrite Hs.
  unfold bind, Angular.getAccessTokenAsync. rewrite run_andThen. fold g.
  unfold continued.
  destruct (outcome g) as [[token|e]|]; simpl.
  - rewrite app_nil_r. auto.
  - rewrite app_nil_r. auto.
  - auto.
Qed.

Lemma intercept_attaches_bearer_witness :
  outcome (run (failing networkError 2000 [alice]) 0
             (intercept 1 "https://api.example.com/data" (armedHeap 1000 5000)))
  = Some (Return {| handledUrl := "https://api.example.com/data";
                    setHeaders := [("Authorization", "Bearer tok")] |}).
Proof.
  exact (proj2 (proj2 (intercept_attaches_bearer (failing networkError 2000 [alice])
                         0 1 "https://api.example.com/data" (armedHeap 1000 5000)
                         eq_refl))).
Defined.

(** X30. While the service holds a token that has not reached its local
    expiry, the interceptor attaches that token at once: the request is
    handed on with "Bearer " and the cached token without any request to
    the provider, and the service is left as it was. *)
Theorem intercept_uses_cached_token (w : World) (n fuel : nat) (url : string)
    (h : Heap) (inst : Configuration.t) (cfg : MsalAuthConfig.t)
    (tok : string) (expiry : Z) :
  shouldSkipAuth url = false ->
  ensureInitialized h = inr (inst, cfg) ->
  cacheHit h = Some (tok, expiry) ->
  run w n (intercept (S fuel) url h)
  = immediate
      (Return {| handledUrl := url;
                 setHeaders := [("Authorization", "Bearer " +:+ tok)] |}) h.
Proof.
  intros Hs Hi Hc. unfold intercept, Angular.getAccessTokenAsync.
  rewrite Hs, (getAccessToken_hit fuel h inst cfg tok expiry Hi Hc).
  reflexivity.
Qed.

Lemma intercept_uses_cached_token_witness :
  run (failing networkError 2000 [alice]) 0
    (intercept 1 "https://api.example.com/data" (armedHeap 1000 5000))
  = immediate
      (Return {| handledUrl := "https://api.example.com/data";
                 setHeaders := [("Authorization", "Bearer tok")] |})
      (armedHeap 1000 5000).
Proof.
  exact (intercept_uses_cached_token (failing networkError 2000 [alice]) 0 0
           "https://api.example.com/data" (armedHeap 1000 5000)
           (msalConfig demoConfig) demoConfig "tok" 5000%Z
           eq_refl eq_refl eq_refl).
Defined.
